(** * bufbuild: the launcher's install pipeline (src/util.js, src/buf.js)

    A shallow embedding of the release namer, the install cache, the HTTP
    fetcher, the PATH prober and the install orchestrator, followed by the
    properties stated about them.

    Conventions of the embedding.
    - JavaScript strings are modelled as [string] (sequences of 8-bit
      characters) and read as ASCII text; [toUpperCase] is modelled on the
      ASCII range, and what is proved of it is stated for ASCII characters.
    - [undefined] is [None]; a JavaScript exception is a [JsError].
    - The host ([os], [process], [__dirname]) is a record [Host]; the path
      flavour is the POSIX one ([path.sep] is [/], [path.delimiter] is [:]).
    - The file system is a finite map from canonical paths to inodes, without
      symbolic links and without permission checks.
    - The network is an oracle from the request number and the URL to a
      reply.  Response bodies are delivered whole.
    - A function that returns a promise has type [Result (M A)]: the call
      itself can throw, or it gives the computation the promise stands for.
      An exception thrown inside an event callback (the response callback of
      [client.get]) reaches no promise and no [catch]: it is [Uncaught]. *)

From Stdlib Require Import Ascii NArith DecimalString.
From Stdlib.Strings Require Byte.
From stdpp Require Import gmap strings list fin_maps.

(** ** JavaScript strings *)

Module Js.

(** [s.startsWith(p)] *)
Definition startsWith (s p : string) : bool := String.prefix p s.

(** [s.slice(n)] for [0 <= n] *)
Fixpoint slice (n : nat) (s : string) : string :=
  match n, s with
  | 0, _ => s
  | S _, EmptyString => EmptyString
  | S n', String _ s' => slice n' s'
  end.

(** [s.endsWith(p)]: the last [p.length] characters of [s] are [p]. *)
Definition endsWith (s p : string) : bool :=
  (String.length p <=? String.length s) &&
  bool_decide (slice (String.length s - String.length p) s = p).

(** The characters of the ASCII range.  The strings of the launcher
    (platform and architecture names, versions, paths, URLs) are read as
    sequences of such characters; where an operation of JavaScript depends
    on the character set beyond it, the properties below say so in a
    hypothesis. *)
Definition isAsciiChar (c : ascii) : bool := nat_of_ascii c <? 128.

(** The first character of [s] is there and is an ASCII character. *)
Definition startsAscii (s : string) : bool :=
  match s with
  | String c _ => isAsciiChar c
  | EmptyString => false
  end.

(** [c.toUpperCase()] for a character [c] of the ASCII range: the letters
    [a] to [z] are mapped, every other character of the range is left as it
    is.  Outside the range JavaScript follows the Unicode case mapping
    (which can also yield another number of characters); that mapping is not
    modelled, and what is proved of an upper-cased character is proved for
    ASCII characters. *)
Definition toUpperCaseChar (c : ascii) : ascii :=
  let n := nat_of_ascii c in
  if (97 <=? n) && (n <=? 122) then ascii_of_nat (n - 32) else c.

(** [String(n)] for a non-negative integer *)
Definition ofNumber (n : N) : string := NilZero.string_of_uint (N.to_uint n).

Definition dquote : string := String "034"%char EmptyString.
Definition newline : string := String "010"%char EmptyString.

(** [s.split(sep)] for a non-empty separator: the pieces between the
    occurrences of [sep] found from left to right.  [skip] counts the
    characters of a separator just matched that are still to be dropped,
    [cur] is the piece being read, reversed. *)
Fixpoint splitFrom (sep : string) (skip : nat) (cur : string) (s : string)
  : list string :=
  match s with
  | EmptyString => [String.rev cur]
  | String c s' =>
      match skip with
      | S k => splitFrom sep k cur s'
      | 0 =>
          if String.prefix sep s
          then String.rev cur :: splitFrom sep (String.length sep - 1) EmptyString s'
          else splitFrom sep 0 (String c cur) s'
      end
  end.

Definition split (sep s : string) : list string := splitFrom sep 0 EmptyString s.

(** [parts.join(sep)] *)
Fixpoint join (sep : string) (parts : list string) : string :=
  match parts with
  | [] => EmptyString
  | [p] => p
  | p :: rest => p +:+ sep +:+ join sep rest
  end.

(** [a.pop()] on a non-empty array: its last element. *)
Definition pop (a : list string) : string := List.last a EmptyString.

End Js.

(** ** Exceptions *)

Inductive JsError :=
| Error (message : string)
| TypeError (message : string)
| AssertionError (expression : string)
| SystemError (code syscall path : string)
| DescriptorError (code syscall : string).   (* a system error on an open file: no path *)

(** The text an error takes inside a template literal.  For assertion and
    system errors Node composes a longer text; the model keeps the parts that
    identify the failure. *)
Definition errorToString (e : JsError) : string :=
  match e with
  | Error m => "Error: " +:+ m
  | TypeError m => "TypeError: " +:+ m
  | AssertionError x => "AssertionError [ERR_ASSERTION]: " +:+ x
  | SystemError code syscall path =>
      "Error: " +:+ code +:+ ", " +:+ syscall +:+ " '" +:+ path +:+ "'"
  | DescriptorError code syscall =>
      "Error: " +:+ code +:+ ", " +:+ syscall
  end.

Inductive Result (A : Type) :=
| Ok (a : A)
| Thrown (e : JsError).
Arguments Ok {A} a.
Arguments Thrown {A} e.

(** ** Release namer (src/util.js, makeReleaseName) *)

Record ReleaseParameters := {
  platform : string;
  arch : string;
  version : string
}.

Definition makeReleaseName (params : ReleaseParameters) : Result string :=
  let platform0 := platform params in
  let '(platform1, ext) :=
    if Js.startsWith platform0 "win" then ("windows", ".exe") else (platform0, "") in
  match platform1 with
  | EmptyString =>
      (* platform[0] is undefined *)
      Thrown (TypeError "Cannot read properties of undefined (reading 'toUpperCase')")
  | String c rest =>
      let platform2 := String (Js.toUpperCaseChar c) (Js.slice 1 platform1) in
      let arch1 := if bool_decide (arch params = "x64") then "x86_64" else arch params in
      Ok (version params +:+ "/buf-" +:+ platform2 +:+ "-" +:+ arch1 +:+ ext)
  end.

(** ** Node's [path] module, POSIX flavour *)

Module Path.

Definition sep : string := "/".
Definition delimiter : string := ":".

Definition isAbsolute (p : string) : bool := Js.startsWith p "/".

(** One segment of [normalizeString]: empty and [.] segments are dropped,
    [..] removes the segment before it, or is kept when there is none to
    remove and the path is relative.  [acc] is the result so far, last
    segment first. *)
Definition normStep (allowAboveRoot : bool) (acc : list string) (seg : string)
  : list string :=
  if bool_decide (seg = "") || bool_decide (seg = ".") then acc
  else if bool_decide (seg = "..") then
    match acc with
    | top :: rest =>
        if bool_decide (top = "..")
        then (if allowAboveRoot then ".." :: acc else acc)
        else rest
    | [] => if allowAboveRoot then [".."] else []
    end
  else seg :: acc.

Definition normSegments (allowAboveRoot : bool) (segs : list string) : list string :=
  rev (fold_left (normStep allowAboveRoot) segs []).

Definition normalizeString (p : string) (allowAboveRoot : bool) : string :=
  Js.join "/" (normSegments allowAboveRoot (Js.split "/" p)).

(** [path.normalize(p)] *)
Definition normalize (p : string) : string :=
  if bool_decide (p = "") then "."
  else
    let isAbs := isAbsolute p in
    let trailingSeparator := Js.endsWith p "/" in
    let q := normalizeString p (negb isAbs) in
    if bool_decide (q = "") then
      (if isAbs then "/" else if trailingSeparator then "./" else ".")
    else
      let q' := if trailingSeparator then q +:+ "/" else q in
      if isAbs then "/" +:+ q' else q'.

(** [path.join(a, b)] *)
Definition join (a b : string) : string :=
  let joined :=
    match bool_decide (a = ""), bool_decide (b = "") with
    | true, true => None
    | true, false => Some b
    | false, true => Some a
    | false, false => Some (a +:+ "/" +:+ b)
    end in
  match joined with
  | None => "."
  | Some j => normalize j
  end.

(** The scan of [path.dirname]: [rest] holds the characters at the indices
    [i, i-1, ..., 1] (the first character is never examined); the result is
    the index [end] of the separator that closes the directory part. *)
Fixpoint dirnameEnd (rest : list ascii) (i : nat) (matchedSlash : bool) : option nat :=
  match rest with
  | [] => None
  | c :: rest' =>
      if bool_decide (c = "/"%char) then
        (if matchedSlash then dirnameEnd rest' (i - 1) matchedSlash else Some i)
      else dirnameEnd rest' (i - 1) false
  end.

(** [path.dirname(p)] *)
Definition dirname (p : string) : string :=
  match p with
  | EmptyString => "."
  | String c0 tl =>
      let hasRoot := bool_decide (c0 = "/"%char) in
      match dirnameEnd (rev (String.list_ascii_of_string tl)) (String.length tl) true with
      | None => if hasRoot then "/" else "."
      | Some e =>
          if hasRoot && bool_decide (e = 1) then "//"
          else String.substring 0 e p
      end
  end.

End Path.

(** ** The file system behind Node's [fs] module *)

Inductive Inode :=
| IFile (mode : N) (data : list Byte.byte)
| IDir.

#[global] Instance byte_eq_dec : EqDecision Byte.byte := Stdlib.Strings.Byte.byte_eq_dec.
#[global] Instance Inode_eq_dec : EqDecision Inode.
Proof. solve_decision. Defined.

(** The [Stats] object: only [isDirectory()] is consulted. *)
Definition isDirectory (i : Inode) : bool :=
  match i with IDir => true | IFile _ _ => false end.

Module Fs.

(** A file system maps the canonical path of every entry, the list of its
    segments from the root, to its inode; the root is the empty list. *)
Abbreviation FileSystem := (gmap (list string) Inode).

Definition noSlash (n : string) : bool :=
  forallb (fun c => negb (bool_decide (c = "/"%char))) (String.list_ascii_of_string n).

(** A name that a directory entry can carry. *)
Definition plainName (n : string) : bool :=
  negb (bool_decide (n = "")) && negb (bool_decide (n = ".")) &&
  negb (bool_decide (n = "..")) && noSlash n.

Definition wfEntry (fs : FileSystem) (kv : list string * Inode) : bool :=
  forallb plainName kv.1 &&
  (bool_decide (kv.1 = []) || bool_decide (fs !! removelast kv.1 = Some IDir)).

(** Well-formed: the root is a directory, names are plain, and every entry
    lies in a directory. *)
Definition wf (fs : FileSystem) : bool :=
  bool_decide (fs !! [] = Some IDir) && forallb (wfEntry fs) (map_to_list fs).

(** Path resolution, one segment at a time.  [cur] is the canonical path
    reached so far, last segment first; a segment can only be resolved in a
    directory. *)
Inductive Walk :=
| At (cur : list string)
| Lost (code : string).

Definition walkStep (fs : FileSystem) (w : Walk) (seg : string) : Walk :=
  match w with
  | Lost code => Lost code
  | At cur =>
      match fs !! rev cur with
      | None => Lost "ENOENT"
      | Some (IFile _ _) => Lost "ENOTDIR"
      | Some IDir =>
          if bool_decide (seg = "") || bool_decide (seg = ".") then At cur
          else if bool_decide (seg = "..") then At (tail cur)
          else At (seg :: cur)
      end
  end.

Definition resolve (fs : FileSystem) (cwd p : string) : Walk :=
  if bool_decide (p = "") then Lost "ENOENT"
  else
    let segs :=
      if Path.isAbsolute p then Js.split "/" p
      else Js.split "/" cwd ++ Js.split "/" p in
    fold_left (walkStep fs) segs (At []).

(** The canonical path and the inode a path string denotes. *)
Definition stat (fs : FileSystem) (cwd syscall p : string)
  : Result (list string * Inode) :=
  match resolve fs cwd p with
  | Lost code => Thrown (SystemError code syscall p)
  | At cur =>
      match fs !! rev cur with
      | Some i => Ok (rev cur, i)
      | None => Thrown (SystemError "ENOENT" syscall p)
      end
  end.

(** [fs.existsSync(p)] *)
Definition existsSync (fs : FileSystem) (cwd p : string) : bool :=
  match stat fs cwd "access" p with
  | Ok _ => true
  | Thrown _ => false
  end.

(** [fs.lstatSync(p)] *)
Definition lstatSync (fs : FileSystem) (cwd p : string) : Result Inode :=
  match stat fs cwd "lstat" p with
  | Ok ci => Ok ci.2
  | Thrown e => Thrown e
  end.

Fixpoint stripPrefix (c k : list string) : option (list string) :=
  match c, k with
  | [], _ => Some k
  | x :: c', y :: k' => if bool_decide (x = y) then stripPrefix c' k' else None
  | _ :: _, [] => None
  end.

Definition childName (c k : list string) : option string :=
  match stripPrefix c k with
  | Some [n] => Some n
  | _ => None
  end.

(** The names of the entries of the directory at [c]. *)
Definition children (fs : FileSystem) (c : list string) : list string :=
  omap (fun kv : list string * Inode => childName c kv.1) (map_to_list fs).

(** [fs.readdirSync(p)] *)
Definition readdirSync (fs : FileSystem) (cwd p : string) : Result (list string) :=
  match stat fs cwd "scandir" p with
  | Ok (c, IDir) => Ok (children fs c)
  | Ok (_, IFile _ _) => Thrown (SystemError "ENOTDIR" "scandir" p)
  | Thrown e => Thrown e
  end.

(** [fs.mkdirSync(p)]: the new file system. *)
Definition mkdirSync (fs : FileSystem) (cwd p : string) : Result FileSystem :=
  match resolve fs cwd p with
  | Lost code => Thrown (SystemError code "mkdir" p)
  | At cur =>
      match fs !! rev cur with
      | Some _ => Thrown (SystemError "EEXIST" "mkdir" p)
      | None => Ok (<[rev cur := IDir]> fs)
      end
  end.

(** [fs.writeFileSync(p, data, {mode})]: the new file system.  An existing
    file keeps its mode. *)
Definition writeFileSync (fs : FileSystem) (cwd p : string)
    (data : list Byte.byte) (mode : N) : Result FileSystem :=
  match resolve fs cwd p with
  | Lost code => Thrown (SystemError code "open" p)
  | At cur =>
      match fs !! rev cur with
      | Some IDir => Thrown (SystemError "EISDIR" "open" p)
      | Some (IFile m _) => Ok (<[rev cur := IFile m data]> fs)
      | None => Ok (<[rev cur := IFile mode data]> fs)
      end
  end.

(** [fs.readFileSync(p, 'utf8')].  A directory can be opened; it is the
    read of the open file that fails, and its error names no path. *)
Definition readFileSync (fs : FileSystem) (cwd p : string) : Result string :=
  match stat fs cwd "open" p with
  | Ok (_, IFile _ data) => Ok (String.string_of_list_byte data)
  | Ok (_, IDir) => Thrown (DescriptorError "EISDIR" "read")
  | Thrown e => Thrown e
  end.

End Fs.

(** ** Host, network and world *)

Record Host := {
  os_platform : string;      (* os.platform() *)
  os_arch : string;          (* os.arch() *)
  os_homedir : string;       (* os.homedir() *)
  process_cwd : string;      (* process.cwd(), an absolute path *)
  module_dirname : string    (* __dirname of util.js, an absolute path *)
}.

(** What the launcher reads of an [IncomingMessage]. *)
Record Response := {
  statusCode : N;
  headers_location : option string;
  body : list Byte.byte
}.

Inductive NetReply :=
| Responded (response : Response)
| Failed (e : JsError).          (* the request's 'error' event *)

Inductive Event :=
| EvHttpGet (url : string)
| EvMkdir (path : string)
| EvWriteFile (path : string) (data : list Byte.byte)
| EvConsoleInfo (message : string).

Record World := {
  w_fs : Fs.FileSystem;
  w_log : list Event
}.

Definition isHttpGet (ev : Event) : bool :=
  match ev with EvHttpGet _ => true | _ => false end.

(** The number of requests issued so far. *)
Definition requestCount (w : World) : nat := length (List.filter isHttpGet (w_log w)).

(** ** Computations

    A computation ends by returning, by raising an exception its caller can
    catch (a synchronous [throw] or a rejected promise), or by an exception
    thrown inside an event callback, which no caller can catch. *)

Inductive Outcome (A : Type) :=
| Returned (a : A)
| Raised (e : JsError)
| Uncaught (e : JsError).
Arguments Returned {A} a.
Arguments Raised {A} e.
Arguments Uncaught {A} e.

Definition M (A : Type) : Type := World -> Outcome A * World.

#[global] Instance M_ret : MRet M := fun A a w => (Returned a, w).
#[global] Instance M_bind : MBind M := fun A B f m w =>
  match m w with
  | (Returned a, w') => f a w'
  | (Raised e, w') => (Raised e, w')
  | (Uncaught e, w') => (Uncaught e, w')
  end.

#[global] Instance Result_ret : MRet Result := fun A a => Ok a.
#[global] Instance Result_bind : MBind Result := fun A B f r =>
  match r with
  | Ok a => f a
  | Thrown e => Thrown e
  end.

Definition raise {A} (e : JsError) : M A := fun w => (Raised e, w).
Definition uncaught {A} (e : JsError) : M A := fun w => (Uncaught e, w).

(** [try { m } catch (e) { h e }] *)
Definition tryCatch {A} (m : M A) (h : JsError -> M A) : M A := fun w =>
  match m w with
  | (Raised e, w') => h e w'
  | r => r
  end.

Definition emit (ev : Event) : M unit := fun w =>
  (Returned tt, {| w_fs := w_fs w; w_log := w_log w ++ [ev] |}).

Definition getFs : M Fs.FileSystem := fun w => (Returned (w_fs w), w).
Definition putFs (fs : Fs.FileSystem) : M unit := fun w =>
  (Returned tt, {| w_fs := fs; w_log := w_log w |}).

(** A synchronous call made where its exception is caught or rejects the
    enclosing promise: in a [try], an [async] body, a promise executor. *)
Definition sync {A} (r : Result A) : M A :=
  match r with
  | Ok a => mret a
  | Thrown e => raise e
  end.

(** A call returning a promise, awaited. *)
Definition await {A} (call : Result (M A)) : M A :=
  match call with
  | Ok promise => promise
  | Thrown e => raise e
  end.

(** The body of an event callback resolving the enclosing promise with the
    promise it computes: what the body throws is caught by nobody. *)
Definition callback {A} (body : Result (M A)) : M A :=
  match body with
  | Ok promise => promise
  | Thrown e => uncaught e
  end.

(** [assert(b)]; [expression] is the source text of the condition. *)
Definition assert (b : bool) (expression : string) : Result unit :=
  if b then Ok tt else Thrown (AssertionError expression).

Fixpoint forM_ {A} (l : list A) (f : A -> M unit) : M unit :=
  match l with
  | [] => mret tt
  | x :: l' => f x ≫= fun _ => forM_ l' f
  end.

(** ** JSON values

    What [JSON.parse] returns.  The fields of an object carry distinct
    keys; a property is looked up by its first occurrence. *)

#[local] Unset Elimination Schemes.
Inductive Json :=
| JNull
| JBool (b : bool)
| JNumber (literal : string)
| JString (s : string)
| JArray (items : list Json)
| JObject (fields : list (string * Json)).
#[local] Set Elimination Schemes.

Module JsonValue.

(** [typeof j === 'object'] *)
Definition isObjectType (j : Json) : bool :=
  match j with
  | JNull | JArray _ | JObject _ => true
  | _ => false
  end.

(** The own property [key] of an object; an array has no such property
    for a key that is not an index. *)
Definition property (j : Json) (key : string) : option Json :=
  match j with
  | JObject fields =>
      match List.find (fun kv : string * Json => bool_decide (kv.1 = key)) fields with
      | Some kv => Some kv.2
      | None => None
      end
  | _ => None
  end.

End JsonValue.

(** ** The launcher (src/util.js, src/buf.js) *)

Module Dist.

(** [DistEntry] *)
Record Entry := {
  name : string;       (* e.g. '1.6.0/buf-Darwin-arm64' *)
  version : string;    (* e.g. '1.6.0' *)
  bufPath : string     (* e.g. '/path/to/1.6.0/buf-Darwin-arm64' *)
}.

End Dist.
Abbreviation DistEntry := Dist.Entry.

#[global] Instance DistEntry_eq_dec : EqDecision DistEntry.
Proof. solve_decision. Defined.

Section Launcher.

Variable host : Host.
Variable net : nat -> string -> NetReply.

Definition cwd : string := process_cwd host.

Definition standardInstallDirectory : string :=
  Path.join (module_dirname host) "installed".

(** *** The [fs] calls as computations *)

Definition existsSync (p : string) : M bool :=
  fs ← getFs; mret (Fs.existsSync fs cwd p).

Definition lstatSync (p : string) : M Inode :=
  fs ← getFs; sync (Fs.lstatSync fs cwd p).

Definition mkdirSync (p : string) : M unit :=
  fs ← getFs;
  fs' ← sync (Fs.mkdirSync fs cwd p);
  putFs fs';;
  emit (EvMkdir p).

Definition writeFileSync (p : string) (data : list Byte.byte) (mode : N) : M unit :=
  fs ← getFs;
  fs' ← sync (Fs.writeFileSync fs cwd p data mode);
  putFs fs';;
  emit (EvWriteFile p data).

(** [client.get(url, ...)]: the request is issued and answered. *)
Definition request (url : string) : M NetReply := fun w =>
  (Returned (net (requestCount w) url),
   {| w_fs := w_fs w; w_log := w_log w ++ [EvHttpGet url] |}).

(** *** mkDirRecursive *)

(** The body of the loop, for the index [i]. *)
Definition mkDirStep (dirname : string) (parts : list string) (i : nat) : M unit :=
  let p := Js.join Path.sep (take i parts) in
  existsSync p ≫= fun e : bool =>
  if e then
    i ← lstatSync p;
    if negb (isDirectory i)
    then raise (Error ("cannot mkdir '" +:+ dirname +:+ "'. '" +:+ p +:+
                       "' is not a directory."))
    else mret tt
  else mkdirSync p.

Definition mkDirRecursive (dirname : string) : M unit :=
  let dirname :=
    if negb (Path.isAbsolute dirname) then Path.join cwd dirname else dirname in
  let dirname := Path.normalize dirname in
  let parts := Js.split Path.sep dirname in
  forM_ (seq 2 (length parts - 1)) (mkDirStep dirname parts).

(** *** listInstalled *)

(** The body of the outer loop, for one entry [version] of [installDir]. *)
Definition listVersion (fs : Fs.FileSystem) (installDir : string)
    (entries : list DistEntry) (version : string) : Result (list DistEntry) :=
  let abs := Path.join installDir version in
  st ← Fs.lstatSync fs cwd abs;
  if negb (isDirectory st) then mret entries
  else
    binaries ← Fs.readdirSync fs cwd abs;
    mret (fold_left (fun entries binaryName =>
            if negb (Js.startsWith binaryName "buf-") then entries
            else entries ++ [ {| Dist.name := version +:+ "/" +:+ binaryName;
                                 Dist.version := version;
                                 Dist.bufPath := Path.join abs binaryName |} ])
          binaries entries).

Fixpoint forEach {A S} (l : list A) (f : S -> A -> Result S) (s : S) : Result S :=
  match l with
  | [] => Ok s
  | x :: l' => s' ← f s x; forEach l' f s'
  end.

Definition listInstalled (fs : Fs.FileSystem) (installDir : string)
  : Result (list DistEntry) :=
  if negb (Fs.existsSync fs cwd installDir) then Ok []
  else
    versions ← Fs.readdirSync fs cwd installDir;
    forEach versions (listVersion fs installDir) [].

(** *** httpGetRedirect *)

Definition isRedirect (status : N) : bool := ((300 <=? status) && (status <? 400))%N.

(** [const location = response.headers.location;
     assert(location && location.length > 0)] *)
Definition requireLocation (response : Response) : Result string :=
  match headers_location response with
  | Some location =>
      assert (0 <? String.length location) "location && location.length > 0";;
      Ok location
  | None => Thrown (AssertionError "location && location.length > 0")
  end.

Definition httpGetRedirect (url : string) : Result (M string) :=
  assert (0 <? String.length url) "typeof url === 'string' && url.length > 0";;
  assert (Js.startsWith url "https://" || Js.startsWith url "http://")
         "url.startsWith('https://') || url.startsWith('http://')";;
  Ok (reply ← request url;
      match reply with
      | Failed e => raise e
      | Responded response =>
          if isRedirect (statusCode response) then
            callback (location ← requireLocation response; Ok (mret location))
          else if negb (bool_decide (statusCode response = 200%N)) then
            raise (Error ("HTTP " +:+ Js.ofNumber (statusCode response) +:+
                          " for " +:+ url))
          else
            raise (Error ("Did not get expected redirect for " +:+ url))
      end).

(** *** httpGet

    The recursion of the source ends by the assertion on [redirects.length];
    [fuel] makes it structural, and [httpGet] supplies enough of it
    (lemma [httpGet_unfold]). *)

Fixpoint httpGetFuel (fuel : nat) (url : string) (redirects : list string)
  : Result (M Response) :=
  match fuel with
  | 0 => Thrown (AssertionError "redirects.length <= 3")
  | S fuel' =>
      assert (0 <? String.length url) "typeof url === 'string' && url.length > 0";;
      assert (Js.startsWith url "https://" || Js.startsWith url "http://")
             "url.startsWith('https://') || url.startsWith('http://')";;
      assert (length redirects <=? 3) "redirects.length <= 3";;
      Ok (reply ← request url;
          match reply with
          | Failed e => raise e
          | Responded response =>
              if isRedirect (statusCode response) then
                callback (location ← requireLocation response;
                          httpGetFuel fuel' location (redirects ++ [location]))
              else if negb (bool_decide (statusCode response = 200%N)) then
                raise (Error ("HTTP " +:+ Js.ofNumber (statusCode response) +:+
                              " for " +:+ url))
              else mret response
          end)
  end.

Definition httpGet (url : string) (redirects : list string) : Result (M Response) :=
  httpGetFuel (S (4 - length redirects)) url redirects.

(** *** httpDownload *)

Definition httpDownload (url : string) : Result (M (list Byte.byte)) :=
  assert (0 <? String.length url) "typeof url === 'string' && url.length > 0";;
  assert (Js.startsWith url "https://" || Js.startsWith url "http://")
         "url.startsWith('https://') || url.startsWith('http://')";;
  Ok (response ← await (httpGet url []);
      mret (body response)).

(** *** findBufInPath *)

Definition exeName : string :=
  if Js.startsWith (os_platform host) "win" then "buf.exe" else "buf".

Definition expandTilde (p : string) : string :=
  match p with
  | String "~" _ => Path.join (os_homedir host) (Js.slice 1 p)
  | _ => p
  end.

Definition findBufInPath (fs : Fs.FileSystem) (envPath : option string)
  : option string :=
  match envPath with
  | None => None
  | Some envPath =>
      let candidates :=
        map expandTilde
          (map (fun p => Path.join p exeName)
             (List.filter (fun p => negb (Js.endsWith p (".npm-global" +:+ Path.sep +:+ "bin")))
                (List.filter (fun p => negb (Js.endsWith p ("node_modules" +:+ Path.sep +:+ ".bin")))
                   (Js.split Path.delimiter envPath)))) in
      List.find (Fs.existsSync fs cwd) candidates
  end.

(** *** ensureInstalled (src/buf.js) *)

Definition latestUrl : string := "https://github.com/bufbuild/buf/releases/latest".

(** Lines 65-70: the redirect target of the latest-release URL; a rejection
    is wrapped. *)
Definition fetchLatestLocation : M string :=
  tryCatch (await (httpGetRedirect latestUrl))
    (fun e => raise (Error ("bufbuild failed to retrieve latest buf version number: "
                            +:+ errorToString e))).

(** Lines 64-72: the version to install. *)
Definition resolveVersion (version : option string) : M string :=
  match version with
  | Some v =>
      if bool_decide (v = "latest") then
        latestLocation ← fetchLatestLocation;
        mret (Js.pop (Js.split "/v" latestLocation))
      else mret v
  | None =>
      latestLocation ← fetchLatestLocation;
      mret (Js.pop (Js.split "/v" latestLocation))
  end.

Definition findByName (releaseName : string) (l : list DistEntry) : option DistEntry :=
  List.find (fun i => bool_decide (Dist.name i = releaseName)) l.

(** Lines 89-94: the download; a rejection is wrapped. *)
Definition downloadRelease (version releaseName : string) : M (list Byte.byte) :=
  tryCatch
    (await (httpDownload ("https://github.com/bufbuild/buf/releases/download/v"
                          +:+ releaseName)))
    (fun e => raise (Error ("bufbuild failed to download buf v" +:+ version +:+
        ". " +:+ Js.newline +:+
        "Did you misspell the version number? The version number must look like "
        +:+ Js.dquote +:+ "1.6.0" +:+ Js.dquote +:+ ", without a leading "
        +:+ Js.dquote +:+ "v" +:+ Js.dquote +:+ "." +:+ Js.newline
        +:+ errorToString e))).

(** Lines 96-99: the release is saved under the install directory. *)
Definition saveRelease (releaseName : string) (binaryContent : list Byte.byte) : M unit :=
  let releasePath := Path.join standardInstallDirectory releaseName in
  let releaseDir := Path.dirname releasePath in
  mkDirRecursive releaseDir;;
  writeFileSync releasePath binaryContent 493.

(** Lines 74-110, with the version resolved. *)
Definition installVersion (version : string) : M DistEntry :=
  releaseName ← sync (makeReleaseName {| platform := os_platform host;
                                         arch := os_arch host;
                                         version := version |});
  fs ← getFs;
  installedList ← sync (listInstalled fs standardInstallDirectory);
  match findByName releaseName installedList with
  | Some alreadyInstalled => mret alreadyInstalled
  | None =>
      binaryContent ← downloadRelease version releaseName;
      saveRelease releaseName binaryContent;;
      fs ← getFs;
      installedList ← sync (listInstalled fs standardInstallDirectory);
      match findByName releaseName installedList with
      | None => raise (Error ("bufbuild failed to install buf v" +:+ version +:+ "."))
      | Some installed =>
          emit (EvConsoleInfo ("bufbuild installed buf v" +:+ Dist.version installed +:+ "."));;
          mret installed
      end
  end.

Definition ensureInstalled (version : option string) : M DistEntry :=
  version ← resolveVersion version;
  installVersion version.

(** *** findBufVersionConfig (src/util.js) *)

(** [JSON.parse]; [None] when it throws. *)
Variable JSON_parse : string -> option Json.

Definition tryReadBufVersion (fs : Fs.FileSystem) (pkgPath : string)
  : Result (option string) :=
  if negb (Fs.existsSync fs cwd pkgPath) then Ok None
  else
    json ← Fs.readFileSync fs cwd pkgPath;
    match JSON_parse json with
    | None => Ok None
    | Some pkg =>
        if JsonValue.isObjectType pkg then
          match pkg with
          | JNull =>
              (* pkg.config on null *)
              Thrown (TypeError "Cannot read properties of null (reading 'config')")
          | _ =>
              match JsonValue.property pkg "config" with
              | Some (JObject fields) =>
                  match JsonValue.property (JObject fields) "bufVersion" with
                  | Some (JString version) => Ok (Some version)
                  | _ => Ok None
                  end
              | _ => Ok None
              end
          end
        else Ok None
    end.

(** The loop of the source ends when [path.dirname] no longer changes the
    directory; [fuel] makes the recursion structural, and
    [findBufVersionConfig] supplies enough of it (lemma
    [findBufVersionConfig_unfold]). *)
Fixpoint findBufVersionConfigFuel (fuel : nat) (fs : Fs.FileSystem) (dirname : string)
  : Result (option string) :=
  match fuel with
  | 0 => Ok None
  | S fuel' =>
      version ← tryReadBufVersion fs (Path.join dirname "package.json");
      match version with
      | Some v => Ok (Some v)
      | None =>
          let parent := Path.dirname dirname in
          if bool_decide (parent = dirname) then Ok None
          else findBufVersionConfigFuel fuel' fs parent
      end
  end.

Definition findBufVersionConfig (fs : Fs.FileSystem) (cwd : string)
  : Result (option string) :=
  findBufVersionConfigFuel (String.length cwd + 2) fs cwd.

(** *** main (src/buf.js), up to the spawn *)

(** [process.argv] and [process.env.PATH]. *)
Record Process := {
  argv : list string;
  env_PATH : option string
}.

(** What [spawnSync] is called with, and the PATH it inherits. *)
Record Launch := {
  command : string;
  args : list string;
  launch_PATH : option string
}.

(** [path.dirname(process.argv[1])] validates its argument: without a
    second entry in [argv] it throws. *)
Definition getNodeModulesBinPath (proc : Process) : Result (option string) :=
  match argv proc !! 1 with
  | None =>
      Thrown (TypeError ("The " +:+ Js.dquote +:+ "path" +:+ Js.dquote +:+
                         " argument must be of type string. Received undefined"))
  | Some script =>
      let bufDir := Path.dirname script in
      if Js.endsWith bufDir "node_modules/.bin" then Ok (Some bufDir) else Ok None
  end.

(** Lines 19-36: the full path to the buf executable. *)
Definition resolveCommand (proc : Process) : M string :=
  fs ← getFs;
  configuredVersion ← sync (findBufVersionConfig fs cwd);
  match configuredVersion with
  | Some (String c v) =>
      release ← ensureInstalled configuredVersion;
      mret (Dist.bufPath release)
  | _ =>
      match findBufInPath fs (env_PATH proc) with
      | Some (String c p) => mret (String c p)
      | _ =>
          release ← ensureInstalled configuredVersion;
          mret (Dist.bufPath release)
      end
  end.

(** Lines 17-48 of main. *)
Definition prepareLaunch (proc : Process) : M Launch :=
  command ← resolveCommand proc;
  nodeModulesBin ← sync (getNodeModulesBinPath proc);
  let path :=
    match nodeModulesBin with
    | Some nodeModulesBin =>
        Some (nodeModulesBin +:+ ":" +:+
              match env_PATH proc with Some p => p | None => "undefined" end)
    | None => env_PATH proc
    end in
  mret {| command := command; args := drop 2 (argv proc); launch_PATH := path |}.

End Launcher.

(** ** Definitions used to state the properties *)

(** The normalization rules in the words of the specification. *)
Module ReleaseSpec.

Definition isWindows (platform : string) : bool := Js.startsWith platform "win".

Definition capitalize (s : string) : string :=
  match s with
  | EmptyString => EmptyString
  | String c rest => String (Js.toUpperCaseChar c) rest
  end.

Definition platformName (platform : string) : string :=
  if isWindows platform then "Windows" else capitalize platform.

Definition extension (platform : string) : string :=
  if isWindows platform then ".exe" else "".

Definition archName (arch : string) : string :=
  if bool_decide (arch = "x64") then "x86_64" else arch.

End ReleaseSpec.

(** The two assertions on a URL. *)
Definition validUrl (url : string) : bool :=
  (0 <? String.length url) &&
  (Js.startsWith url "https://" || Js.startsWith url "http://").

(** The world after further events. *)
Definition logged (w : World) (evs : list Event) : World :=
  {| w_fs := w_fs w; w_log := w_log w ++ evs |}.

(** The absolute, normalized path with the given segments. *)
Definition absPath (segs : list string) : string := "/" +:+ Js.join "/" segs.

(** The normalized segments of a path, last first, and the root it starts
    from. *)
Definition normStack (dir : string) : list string :=
  fold_left (Path.normStep (negb (Path.isAbsolute dir))) (Js.split "/" dir) [].

Definition rootPrefix (dir : string) : string :=
  if Path.isAbsolute dir then "/" else "".

(** The shape of a normalized stack: plain names above [k] parent
    references, of which there are none in an absolute path. *)
Definition normShape (allowAboveRoot : bool) (acc names : list string) (k : nat) : Prop :=
  forallb Fs.plainName names = true ∧ acc = names ++ repeat ".." k ∧
  (allowAboveRoot = false -> k = 0).

(** The entry listed for the binary [binaryName] of the version [version]. *)
Definition mkEntry (installDir version binaryName : string) : DistEntry :=
  {| Dist.name := version +:+ "/" +:+ binaryName;
     Dist.version := version;
     Dist.bufPath := Path.join (Path.join installDir version) binaryName |}.

(** The entries listed for the entry [version] of the directory at [root]:
    none unless it is a directory, else one for each of its entries whose
    name begins with [buf-]. *)
Definition versionEntries (fs : Fs.FileSystem) (installDir : string)
    (root : list string) (version : string) : list DistEntry :=
  match fs !! (root ++ [version]) with
  | Some IDir =>
      map (mkEntry installDir version)
        (List.filter (fun binaryName => Js.startsWith binaryName "buf-")
           (Fs.children fs (root ++ [version])))
  | _ => []
  end.

(** A directory of the PATH that findBufInPath leaves out. *)
Definition isShimDir (dir : string) : bool :=
  Js.endsWith dir "node_modules/.bin" || Js.endsWith dir ".npm-global/bin".

(** The file probed for a directory of the PATH. *)
Definition candidatePath (host : Host) (dir : string) : string :=
  expandTilde host (Path.join dir (exeName host)).

(** [sep] occurs somewhere in [s]. *)
Fixpoint occursIn (sep s : string) : bool :=
  String.prefix sep s ||
  match s with
  | EmptyString => false
  | String _ s' => occursIn sep s'
  end.

(** [w'] has every entry of [w] as it was; what it has more are
    directories, and the log has grown by creations of directories only. *)
Definition addsDirectories (w w' : World) : Prop :=
  (∀ k i, w_fs w !! k = Some i -> w_fs w' !! k = Some i)
  ∧ (∀ k, w_fs w !! k = None -> w_fs w' !! k = None ∨ w_fs w' !! k = Some IDir)
  ∧ ∃ paths, w_log w' = w_log w ++ map EvMkdir paths.

Definition isFile (o : option Inode) : bool :=
  match o with Some (IFile _ _) => true | _ => false end.

(** [w'] has an entry wherever [w] has one, a directory where [w] has a
    directory and a file where [w] has a file; and it is well-formed if [w]
    is. *)
Definition keepsEntries (w w' : World) : Prop :=
  (∀ k i, w_fs w !! k = Some i ->
     ∃ i', w_fs w' !! k = Some i' ∧ isDirectory i' = isDirectory i)
  ∧ (Fs.wf (w_fs w) = true -> Fs.wf (w_fs w') = true).

(** The release name of the host for a version. *)
Abbreviation releaseOf host v :=
  (makeReleaseName {| platform := os_platform host; arch := os_arch host; version := v |}).

(** The URL a release is downloaded from. *)
Definition downloadUrl (releaseName : string) : string :=
  "https://github.com/bufbuild/buf/releases/download/v" +:+ releaseName.

(** What the walk of findBufVersionConfig up the directories has left to
    go: nothing at [.] and at the root. *)
Definition dirMeasure (d : string) : nat :=
  if bool_decide (d = ".") || bool_decide (d = "/") then 0 else S (String.length d).

(** The package.json of the directory with the given segments. *)
Abbreviation packageJsonOf D := (absPath (D ++ ["package.json"])).

(** The computation has returned: it has neither thrown nor been
    rejected. *)
Definition isReturned {A} (o : Outcome A) : bool :=
  match o with Returned _ => true | _ => false end.

(** ** Sample hosts, networks and worlds *)

Module Sample.

Definition redirectTo (location : string) : Response :=
  {| statusCode := 302; headers_location := Some location; body := [] |}.

Definition okResponse : Response :=
  {| statusCode := 200; headers_location := None; body := [Byte.x62; Byte.x75; Byte.x66] |}.

Definition notFound : Response :=
  {| statusCode := 404; headers_location := None; body := [] |}.

(** The first [k] requests are redirected to the same place, the next one is
    answered by [last]. *)
Definition redirectsThen (k : nat) (last : Response) (n : nat) (url : string) : NetReply :=
  if n <? k then Responded (redirectTo "https://example.com/next") else Responded last.

Definition notModified : Response :=
  {| statusCode := 304; headers_location := None; body := [] |}.

Definition always (r : Response) (n : nat) (url : string) : NetReply := Responded r.

(** A file system holding only the root directory. *)
Definition bareFs : Fs.FileSystem := {[ [] := IDir ]}.

Definition bareWorld : World := {| w_fs := bareFs; w_log := [] |}.

Definition darwinArm : Host :=
  {| os_platform := "darwin"; os_arch := "arm64"; os_homedir := "/home/u";
     process_cwd := "/work"; module_dirname := "/opt/bufbuild" |}.

Definition linuxX64 : Host :=
  {| os_platform := "linux"; os_arch := "x64"; os_homedir := "/home/u";
     process_cwd := "/work"; module_dirname := "/opt/bufbuild" |}.

Definition installRoot : list string := ["opt"; "bufbuild"; "installed"].

(** An install directory holding one release, a stray file beside the
    version directory and one inside it; a system-wide buf; a project shim. *)
Definition cachedFs : Fs.FileSystem :=
  list_to_map
    [ ([], IDir);
      (["opt"], IDir); (["opt"; "bufbuild"], IDir); (installRoot, IDir);
      (installRoot ++ ["README"], IFile 420 []);
      (installRoot ++ ["1.6.0"], IDir);
      (installRoot ++ ["1.6.0"; "buf-Darwin-arm64"], IFile 493 [Byte.x62]);
      (installRoot ++ ["1.6.0"; "notes.txt"], IFile 420 []);
      (["usr"], IDir); (["usr"; "bin"], IDir);
      (["usr"; "bin"; "buf"], IFile 493 [Byte.x62]);
      (["proj"], IDir); (["proj"; "node_modules"], IDir);
      (["proj"; "node_modules"; ".bin"], IDir);
      (["proj"; "node_modules"; ".bin"; "buf"], IFile 493 []) ].

Definition cachedWorld : World := {| w_fs := cachedFs; w_log := [] |}.

Definition cachedEntry : DistEntry :=
  {| Dist.name := "1.6.0/buf-Darwin-arm64";
     Dist.version := "1.6.0";
     Dist.bufPath := "/opt/bufbuild/installed/1.6.0/buf-Darwin-arm64" |}.

(** The latest-release URL redirects to the tag of 1.50.0; every other URL is
    answered by a 200. *)
Definition latestIs150 (n : nat) (url : string) : NetReply :=
  if bool_decide (url = "https://github.com/bufbuild/buf/releases/latest")
  then Responded (redirectTo "https://github.com/bufbuild/buf/releases/tag/v1.50.0")
  else Responded okResponse.

(** The text of a package.json that configures the version [v], and what
    it parses to. *)
Definition packageJsonText (v : string) : string :=
  "{" +:+ Js.dquote +:+ "config" +:+ Js.dquote +:+ ":{" +:+ Js.dquote +:+ "bufVersion"
  +:+ Js.dquote +:+ ":" +:+ Js.dquote +:+ v +:+ Js.dquote +:+ "}}".

Definition packageJson (v : string) : Json :=
  JObject [("config", JObject [("bufVersion", JString v)])].

(** A parser that knows the texts of the samples and rejects every other
    text. *)
Definition parse (s : string) : option Json :=
  if bool_decide (s = packageJsonText "1.6.0") then Some (packageJson "1.6.0")
  else if bool_decide (s = packageJsonText "") then Some (packageJson "")
  else if bool_decide (s = "null") then Some JNull
  else None.

Definition textFile (s : string) : Inode := IFile 420 (String.list_byte_of_string s).

(** A project below /work whose package.json configures 1.6.0, which is
    installed; below it a directory with a package.json that does not parse,
    one whose package.json is null, one whose package.json is a directory and
    one that configures the empty version. *)
Definition projectFs : Fs.FileSystem :=
  list_to_map
    [ ([], IDir);
      (["opt"], IDir); (["opt"; "bufbuild"], IDir); (installRoot, IDir);
      (installRoot ++ ["1.6.0"], IDir);
      (installRoot ++ ["1.6.0"; "buf-Darwin-arm64"], IFile 493 [Byte.x62]);
      (["usr"], IDir); (["usr"; "bin"], IDir);
      (["usr"; "bin"; "buf"], IFile 493 [Byte.x62]);
      (["work"], IDir);
      (["work"; "package.json"], textFile (packageJsonText "1.6.0"));
      (["work"; "app"], IDir);
      (["work"; "app"; "package.json"], textFile "not json");
      (["work"; "app"; "src"], IDir);
      (["work"; "broken"], IDir);
      (["work"; "broken"; "package.json"], textFile "null");
      (["work"; "odd"], IDir);
      (["work"; "odd"; "package.json"], IDir);
      (["work"; "empty"], IDir);
      (["work"; "empty"; "package.json"], textFile (packageJsonText "")) ].

Definition projectWorld : World := {| w_fs := projectFs; w_log := [] |}.

(** The host [h] with the process started in [dir]. *)
Definition startedIn (h : Host) (dir : string) : Host :=
  {| os_platform := os_platform h; os_arch := os_arch h; os_homedir := os_homedir h;
     process_cwd := dir; module_dirname := module_dirname h |}.

(** The launcher started through the shim of a project, with an argument. *)
Definition shimProcess : Process :=
  {| argv := ["/usr/bin/node"; "/work/node_modules/.bin/buf"; "lint"];
     env_PATH := Some "/usr/bin" |}.

End Sample.

(** * Properties *)

(** ** Strings *)

Lemma last_cons_ne {A} (x : A) (l : list A) (d : A) :
  l ≠ [] -> List.last (x :: l) d = List.last l d.
Proof. destruct l; [congruence | reflexivity]. Qed.

Lemma splitFrom_ne sep skip cur s : Js.splitFrom sep skip cur s ≠ [].
Proof.
  revert skip cur. induction s as [|c s IH]; intros skip cur; cbn [Js.splitFrom]; [done|].
  destruct skip; [|apply IH]. destruct (String.prefix sep (String c s)); [done|].
  apply IH.
Qed.

(** Without an occurrence of the separator the string is one piece. *)
Lemma splitFrom_absent sep cur s :
  sep ≠ "" -> occursIn sep s = false ->
  Js.splitFrom sep 0 cur s = [String.rev_app cur s].
Proof.
  intros Hsep. revert cur. induction s as [|c s IH]; intros cur H; [reflexivity|].
  cbn [occursIn] in H. apply orb_false_iff in H as [Hp Ho].
  cbn [Js.splitFrom]. rewrite Hp. now rewrite IH.
Qed.

Lemma prefix_cons a s1 b s2 :
  String.prefix (String a s1) (String b s2)
  = if ascii_dec a b then String.prefix s1 s2 else false.
Proof. reflexivity. Qed.

Lemma prefix_empty s : String.prefix "" s = true.
Proof. now destruct s. Qed.

Lemma prefix_slash_v c s :
  String.prefix "/v" (String c s) = true -> c = "/"%char ∧ ∃ s', s = String "v" s'.
Proof.
  rewrite prefix_cons. destruct (ascii_dec "/" c) as [<-|]; [|discriminate].
  destruct s as [|c' s']; [discriminate|].
  rewrite prefix_cons. destruct (ascii_dec "v" c') as [<-|]; [|discriminate]. eauto.
Qed.

Lemma splitFrom_cons sep cur c s :
  Js.splitFrom sep 0 cur (String c s)
  = if String.prefix sep (String c s)
    then String.rev cur :: Js.splitFrom sep (String.length sep - 1) EmptyString s
    else Js.splitFrom sep 0 (String c cur) s.
Proof. reflexivity. Qed.

Lemma splitFrom_skip sep k cur c s :
  Js.splitFrom sep (S k) cur (String c s) = Js.splitFrom sep k cur s.
Proof. reflexivity. Qed.

Lemma append_cons c s t : String c s +:+ t = String c (s +:+ t).
Proof. reflexivity. Qed.

Lemma splitFrom_slash_v_last n a b cur :
  occursIn "/v" b = false -> String.length a <= n ->
  List.last (Js.splitFrom "/v" 0 cur (a +:+ "/v" +:+ b)) "" = b.
Proof.
  intros Hb.
  assert (Hbase : ∀ cur, List.last (Js.splitFrom "/v" 0 cur ("/v" +:+ b)) "" = b).
  { intros cur'. change ("/v" +:+ b) with (String "/" (String "v" b)).
    rewrite splitFrom_cons, !prefix_cons, prefix_empty.
    destruct (ascii_dec "/" "/"); [|congruence].
    destruct (ascii_dec "v" "v"); [|congruence].
    rewrite last_cons_ne by apply splitFrom_ne.
    change (String.length "/v" - 1) with 1. rewrite splitFrom_skip.
    rewrite splitFrom_absent by done. reflexivity. }
  revert a cur. induction n as [|n IH]; intros a cur Hle.
  - destruct a; [|cbn in Hle; lia]. apply Hbase.
  - destruct a as [|c a]; [apply Hbase|].
    rewrite append_cons, splitFrom_cons.
    destruct (String.prefix "/v" (String c (a +:+ "/v" +:+ b))) eqn:Hp.
    + apply prefix_slash_v in Hp as [-> [s' Hs']].
      destruct a as [|c' a'].
      { cbn in Hs'. discriminate. }
      rewrite append_cons in Hs'. injection Hs' as -> Hs'.
      rewrite last_cons_ne by apply splitFrom_ne.
      change (String.length "/v" - 1) with 1. rewrite append_cons, splitFrom_skip.
      apply IH. cbn in Hle. lia.
    + apply IH. cbn in Hle. lia.
Qed.

(** The last piece of [split('/v')] is what follows the last [/v]. *)
Lemma split_slash_v_last a b :
  occursIn "/v" b = false ->
  Js.pop (Js.split "/v" (a +:+ "/v" +:+ b)) = b.
Proof.
  intros Hb. unfold Js.pop, Js.split.
  now apply (splitFrom_slash_v_last (String.length a)).
Qed.

(** *** Splitting at [/] *)

Lemma prefix_slash c s :
  String.prefix "/" (String c s) = bool_decide (c = "/"%char).
Proof.
  rewrite prefix_cons, prefix_empty.
  destruct (ascii_dec "/" c) as [<-|Hne].
  - now rewrite bool_decide_eq_true_2.
  - rewrite bool_decide_eq_false_2; [reflexivity | congruence].
Qed.

Lemma noSlash_cons c s :
  Fs.noSlash (String c s) = negb (bool_decide (c = "/"%char)) && Fs.noSlash s.
Proof. reflexivity. Qed.

Lemma splitFrom_noSlash cur s :
  Fs.noSlash s = true -> Js.splitFrom "/" 0 cur s = [String.rev_app cur s].
Proof.
  revert cur. induction s as [|c s IH]; intros cur H; [reflexivity|].
  rewrite noSlash_cons in H. apply andb_true_iff in H as [Hc Hs].
  rewrite splitFrom_cons, prefix_slash.
  apply negb_true_iff in Hc. rewrite Hc. now rewrite IH.
Qed.

Lemma splitFrom_slash_app cur a b :
  Js.splitFrom "/" 0 cur (a +:+ String "/" b)
  = Js.splitFrom "/" 0 cur a ++ Js.splitFrom "/" 0 EmptyString b.
Proof.
  revert cur. induction a as [|c a IH]; intros cur.
  - change ("" +:+ String "/" b) with (String "/" b).
    rewrite splitFrom_cons, prefix_slash.
    now rewrite bool_decide_eq_true_2.
  - rewrite append_cons, !splitFrom_cons, !prefix_slash.
    destruct (bool_decide (c = "/"%char)).
    + change (String.length "/" - 1) with 0. now rewrite IH.
    + apply IH.
Qed.

Lemma split_slash_app a b :
  Js.split "/" (a +:+ "/" +:+ b) = Js.split "/" a ++ Js.split "/" b.
Proof. apply splitFrom_slash_app. Qed.

Lemma split_noSlash s : Fs.noSlash s = true -> Js.split "/" s = [s].
Proof. intros H. unfold Js.split. now rewrite splitFrom_noSlash. Qed.

Lemma join_cons2 sep x y l :
  Js.join sep (x :: y :: l) = x +:+ sep +:+ Js.join sep (y :: l).
Proof. reflexivity. Qed.

Lemma split_join l :
  l ≠ [] -> forallb Fs.noSlash l = true -> Js.split "/" (Js.join "/" l) = l.
Proof.
  induction l as [|x l IH]; [congruence|]. intros _ H.
  cbn [forallb] in H. apply andb_true_iff in H as [Hx Hl].
  destruct l as [|y l]; [now apply split_noSlash|].
  rewrite join_cons2, split_slash_app, split_noSlash by exact Hx.
  now rewrite IH.
Qed.

Lemma plainName_noSlash n : Fs.plainName n = true -> Fs.noSlash n = true.
Proof. unfold Fs.plainName. intros H. now apply andb_true_iff in H as [_ H]. Qed.

Lemma plainName_ne n : Fs.plainName n = true -> n ≠ "" ∧ n ≠ "." ∧ n ≠ "..".
Proof.
  unfold Fs.plainName. intros H.
  apply andb_true_iff in H as [H _]. apply andb_true_iff in H as [H H3].
  apply andb_true_iff in H as [H1 H2].
  apply negb_true_iff, bool_decide_eq_false in H1, H2, H3. auto.
Qed.

Lemma forallb_plain_noSlash l :
  forallb Fs.plainName l = true -> forallb Fs.noSlash l = true.
Proof.
  rewrite !forallb_forall. intros H x Hx. apply plainName_noSlash, H, Hx.
Qed.

Lemma absPath_cons segs : absPath segs = String "/" (Js.join "/" segs).
Proof. reflexivity. Qed.

Lemma split_absPath segs :
  forallb Fs.plainName segs = true ->
  Js.split "/" (absPath segs) = "" :: (if segs is [] then [""] else segs).
Proof.
  intros H. rewrite absPath_cons.
  unfold Js.split. rewrite splitFrom_cons, prefix_slash, bool_decide_eq_true_2 by done.
  change (String.length "/" - 1) with 0. cbn [String.rev String.rev_app].
  f_equal. destruct segs as [|x l]; [reflexivity|].
  apply split_join; [done | now apply forallb_plain_noSlash].
Qed.

(** *** Appending *)

Lemma append_assoc a b c : (a +:+ b) +:+ c = a +:+ (b +:+ c).
Proof. induction a as [|x a IH]; [reflexivity|]. now rewrite !append_cons, IH. Qed.

Lemma length_append a b : String.length (a +:+ b) = String.length a + String.length b.
Proof. induction a as [|x a IH]; [reflexivity|]. rewrite append_cons. cbn. now rewrite IH. Qed.

Lemma chars_append a b :
  String.list_ascii_of_string (a +:+ b)
  = String.list_ascii_of_string a ++ String.list_ascii_of_string b.
Proof. induction a as [|x a IH]; [reflexivity|]. rewrite append_cons. cbn. now rewrite IH. Qed.

Lemma length_chars s : length (String.list_ascii_of_string s) = String.length s.
Proof. induction s as [|c s IH]; [reflexivity|]. cbn. now rewrite IH. Qed.

Lemma noSlash_append a b : Fs.noSlash (a +:+ b) = Fs.noSlash a && Fs.noSlash b.
Proof. unfold Fs.noSlash. now rewrite chars_append, forallb_app. Qed.

Lemma slice_append a k b : Js.slice (String.length a + k) (a +:+ b) = Js.slice k b.
Proof. induction a as [|x a IH]; [reflexivity|]. exact IH. Qed.

Lemma slice_suffix k s : ∃ pre, s = pre +:+ Js.slice k s.
Proof.
  revert s. induction k as [|k IH]; intros s.
  - exists "". now destruct s.
  - destruct s as [|c s]; [now exists ""|].
    destruct (IH s) as [pre Hpre]. exists (String c pre).
    rewrite append_cons. cbn [Js.slice]. now rewrite <- Hpre.
Qed.

Lemma substring_append a b : String.substring 0 (String.length a) (a +:+ b) = a.
Proof.
  induction a as [|x a IH]; [now destruct b|].
  rewrite append_cons. cbn. now rewrite IH.
Qed.

Lemma startsWith_slash s : Js.startsWith (String "/" s) "/" = true.
Proof. unfold Js.startsWith. rewrite prefix_slash. now apply bool_decide_eq_true_2. Qed.

(** A path ending in a plain name does not end in a separator. *)
Lemma endsWith_slash_plain x n :
  Fs.plainName n = true -> Js.endsWith (x +:+ n) "/" = false.
Proof.
  intros Hn. pose proof (plainName_noSlash _ Hn) as Hs.
  apply plainName_ne in Hn as (Hne & _).
  unfold Js.endsWith. apply andb_false_iff. right. apply bool_decide_eq_false.
  intros H. rewrite length_append in H.
  assert (Hlen : 0 < String.length n) by (destruct n; [congruence | cbn; lia]).
  replace (String.length x + String.length n - String.length "/")
    with (String.length x + (String.length n - 1)) in H by (cbn; lia).
  rewrite slice_append in H.
  destruct (slice_suffix (String.length n - 1) n) as [pre Hpre].
  rewrite H in Hpre. rewrite Hpre, noSlash_append in Hs.
  apply andb_true_iff in Hs as [_ Hs]. discriminate.
Qed.

(** *** [path.normalize], [path.join] and [path.dirname] on absolute paths *)

Lemma normStep_plain b acc n :
  Fs.plainName n = true -> Path.normStep b acc n = n :: acc.
Proof.
  intros H. apply plainName_ne in H as (H1 & H2 & H3). unfold Path.normStep.
  now rewrite !bool_decide_eq_false_2.
Qed.

Lemma normStep_empty b acc : Path.normStep b acc "" = acc.
Proof. reflexivity. Qed.

Lemma fold_normStep_plain b l acc :
  forallb Fs.plainName l = true ->
  fold_left (Path.normStep b) l acc = rev l ++ acc.
Proof.
  revert acc. induction l as [|n l IH]; intros acc H; [reflexivity|].
  cbn [forallb] in H. apply andb_true_iff in H as [Hn Hl].
  cbn [fold_left]. rewrite normStep_plain, IH by assumption.
  cbn [rev]. now rewrite <- app_assoc.
Qed.

Lemma normSegments_plain b l :
  forallb Fs.plainName l = true -> Path.normSegments b l = l.
Proof.
  intros H. unfold Path.normSegments.
  now rewrite fold_normStep_plain, app_nil_r, rev_involutive.
Qed.

Lemma join_ne l x :
  x ≠ "" -> Js.join "/" (x :: l) ≠ "".
Proof.
  intros Hx. destruct l as [|y l]; [exact Hx|].
  rewrite join_cons2. destruct x; [congruence | discriminate].
Qed.

Lemma join_cons_ne sep x l :
  l ≠ [] -> Js.join sep (x :: l) = x +:+ sep +:+ Js.join sep l.
Proof. destruct l; [congruence | reflexivity]. Qed.

Lemma join_snoc l n :
  l ≠ [] -> Js.join "/" (l ++ [n]) = Js.join "/" l +:+ "/" +:+ n.
Proof.
  induction l as [|x l IH]; [congruence|]. intros _.
  destruct (decide (l = [])) as [->|Hl]; [reflexivity|].
  rewrite <- app_comm_cons, join_cons_ne by (now destruct l).
  rewrite IH, (join_cons_ne _ x l) by exact Hl.
  now rewrite !append_assoc.
Qed.

Lemma forallb_plain_app l1 l2 :
  forallb Fs.plainName (l1 ++ l2) = true <->
  forallb Fs.plainName l1 = true ∧ forallb Fs.plainName l2 = true.
Proof. rewrite forallb_app. apply andb_true_iff. Qed.

Lemma absPath_snoc segs n :
  absPath (segs ++ [n]) = (if segs is [] then "" else absPath segs) +:+ "/" +:+ n.
Proof.
  destruct segs as [|x l]; [reflexivity|].
  rewrite !absPath_cons, join_snoc by done. reflexivity.
Qed.

Lemma endsWith_absPath segs :
  forallb Fs.plainName segs = true -> segs ≠ [] ->
  Js.endsWith (absPath segs) "/" = false.
Proof.
  intros H Hne. destruct (exists_last Hne) as (l & n & ->).
  apply forallb_plain_app in H as [_ Hn]. cbn in Hn.
  rewrite andb_true_r in Hn.
  rewrite absPath_snoc, <- append_assoc. now apply endsWith_slash_plain.
Qed.

Lemma isAbsolute_absPath segs x : Path.isAbsolute (absPath segs +:+ x) = true.
Proof. rewrite absPath_cons, append_cons. apply startsWith_slash. Qed.

Lemma isAbsolute_absPath' segs : Path.isAbsolute (absPath segs) = true.
Proof. rewrite absPath_cons. apply startsWith_slash. Qed.

Lemma normalizeString_absPath segs :
  forallb Fs.plainName segs = true ->
  Path.normalizeString (absPath segs) false = Js.join "/" segs.
Proof.
  intros H. unfold Path.normalizeString. rewrite split_absPath by exact H.
  unfold Path.normSegments. cbn [fold_left]. rewrite normStep_empty.
  destruct segs as [|x l]; [reflexivity|].
  fold (Path.normSegments false (x :: l)). now rewrite normSegments_plain.
Qed.

Lemma normalize_absPath segs :
  forallb Fs.plainName segs = true -> Path.normalize (absPath segs) = absPath segs.
Proof.
  intros H. unfold Path.normalize.
  rewrite bool_decide_eq_false_2 by (rewrite absPath_cons; discriminate).
  rewrite isAbsolute_absPath'.
  cbn [negb]. rewrite normalizeString_absPath by exact H.
  destruct segs as [|x l]; [reflexivity|].
  rewrite bool_decide_eq_false_2.
  - rewrite endsWith_absPath by done. reflexivity.
  - apply join_ne. cbn in H. apply andb_true_iff in H as [Hx _].
    now apply plainName_ne in Hx.
Qed.

(** Joining an absolute path with further plain segments. *)
Lemma normalize_absPath_more segs more n :
  forallb Fs.plainName segs = true -> forallb Fs.plainName (more ++ [n]) = true ->
  Path.normalize (absPath segs +:+ "/" +:+ Js.join "/" (more ++ [n]))
  = absPath (segs ++ more ++ [n]).
Proof.
  intros Hs Hm. pose proof Hm as Hm'. apply forallb_plain_app in Hm' as [_ Hn].
  cbn in Hn. rewrite andb_true_r in Hn.
  assert (Hall : forallb Fs.plainName (segs ++ more ++ [n]) = true)
    by now apply forallb_plain_app.
  assert (Hmne : more ++ [n] ≠ []) by (now destruct more).
  unfold Path.normalize.
  rewrite bool_decide_eq_false_2 by (rewrite absPath_cons; discriminate).
  rewrite isAbsolute_absPath.
  cbn [negb].
  assert (Hq : Path.normalizeString (absPath segs +:+ "/" +:+ Js.join "/" (more ++ [n])) false
               = Js.join "/" (segs ++ more ++ [n])).
  { unfold Path.normalizeString.
    rewrite split_slash_app, split_absPath, split_join
      by (auto using forallb_plain_noSlash).
    unfold Path.normSegments. cbn [fold_left app]. rewrite normStep_empty.
    destruct segs as [|x l].
    - cbn [fold_left app]. rewrite normStep_empty.
      fold (Path.normSegments false (more ++ [n])). now rewrite normSegments_plain.
    - fold (Path.normSegments false ((x :: l) ++ more ++ [n])).
      now rewrite normSegments_plain. }
  rewrite Hq.
  destruct (segs ++ more ++ [n]) as [|x l] eqn:E.
  { destruct segs; [now destruct more|discriminate]. }
  rewrite bool_decide_eq_false_2.
  - assert (He : Js.endsWith (absPath segs +:+ "/" +:+ Js.join "/" (more ++ [n])) "/" = false).
    { destruct more as [|y more'].
      - cbn [app Js.join]. rewrite <- append_assoc. now apply endsWith_slash_plain.
      - change ((y :: more') ++ [n]) with ((y :: more') ++ [n]).
        rewrite join_snoc by done. rewrite <- !append_assoc.
        now apply endsWith_slash_plain. }
    rewrite He. reflexivity.
  - apply join_ne. cbn in Hall. apply andb_true_iff in Hall as [Hx _].
    now apply plainName_ne in Hx.
Qed.

Lemma absPath_ne segs : absPath segs ≠ "".
Proof. rewrite absPath_cons. discriminate. Qed.

Lemma join_absPath segs n :
  forallb Fs.plainName segs = true -> Fs.plainName n = true ->
  Path.join (absPath segs) n = absPath (segs ++ [n]).
Proof.
  intros Hs Hn. unfold Path.join.
  rewrite (bool_decide_eq_false_2 (absPath segs = "")) by apply absPath_ne.
  rewrite (bool_decide_eq_false_2 (n = "")) by (now apply plainName_ne in Hn).
  apply (normalize_absPath_more segs [] n Hs). cbn. now rewrite Hn.
Qed.

Lemma join_absPath2 segs v b :
  forallb Fs.plainName segs = true -> Fs.plainName v = true -> Fs.plainName b = true ->
  Path.join (absPath segs) (v +:+ "/" +:+ b) = absPath (segs ++ [v; b]).
Proof.
  intros Hs Hv Hb. unfold Path.join.
  rewrite (bool_decide_eq_false_2 (absPath segs = "")) by apply absPath_ne.
  rewrite (bool_decide_eq_false_2 (v +:+ "/" +:+ b = ""))
    by (destruct v; discriminate).
  apply (normalize_absPath_more segs [v] b Hs). cbn. now rewrite Hv, Hb.
Qed.

Lemma dirnameEnd_noSlash bs rest i m :
  forallb (fun c => negb (bool_decide (c = "/"%char))) bs = true ->
  Path.dirnameEnd (bs ++ rest) i m
  = Path.dirnameEnd rest (i - length bs) (if bs is [] then m else false).
Proof.
  revert i m. induction bs as [|c bs IH]; intros i m H.
  - cbn. now rewrite Nat.sub_0_r.
  - cbn [forallb] in H. apply andb_true_iff in H as [Hc Hbs].
    apply negb_true_iff in Hc. cbn [app Path.dirnameEnd]. rewrite Hc.
    rewrite IH by exact Hbs. cbn [length].
    replace (i - 1 - length bs) with (i - S (length bs)) by lia.
    now destruct bs.
Qed.

Lemma noSlash_rev_chars n :
  Fs.noSlash n = true ->
  forallb (fun c => negb (bool_decide (c = "/"%char)))
    (rev (String.list_ascii_of_string n)) = true.
Proof.
  unfold Fs.noSlash. rewrite !forallb_forall. intros H c Hc.
  apply H. now apply in_rev.
Qed.

Lemma dirname_absPath segs b :
  forallb Fs.plainName segs = true -> Fs.plainName b = true ->
  Path.dirname (absPath (segs ++ [b])) = absPath segs.
Proof.
  intros Hs Hb. pose proof (plainName_noSlash _ Hb) as Hbs.
  pose proof (plainName_ne _ Hb) as (Hbne & _).
  assert (Hblen : 0 < String.length b) by (destruct b; [congruence | cbn; lia]).
  rewrite absPath_cons. unfold Path.dirname.
  rewrite (bool_decide_eq_true_2 ("/"%char = "/"%char)) by reflexivity.
  destruct segs as [|x l].
  - cbn [app Js.join].
    rewrite <- (app_nil_r (rev (String.list_ascii_of_string b))).
    rewrite dirnameEnd_noSlash by now apply noSlash_rev_chars.
    reflexivity.
  - rewrite join_snoc by done.
    rewrite !chars_append, !rev_app_distr, <- !app_assoc.
    rewrite dirnameEnd_noSlash by now apply noSlash_rev_chars.
    rewrite length_rev, length_chars.
    destruct (rev (String.list_ascii_of_string b)) as [|c0 r0] eqn:Er.
    { apply (f_equal (@length _)) in Er. rewrite length_rev, length_chars in Er.
      cbn in Er. lia. }
    cbn [rev String.list_ascii_of_string app Path.dirnameEnd].
    rewrite (bool_decide_eq_true_2 ("/"%char = "/"%char)) by reflexivity.
    rewrite !length_append. cbn [String.length].
    set (j := String.length (Js.join "/" (x :: l))).
    assert (Hj : 0 < j).
    { unfold j. assert (Hx : x ≠ "").
      { cbn in Hs. apply andb_true_iff in Hs as [Hx _]. now apply plainName_ne in Hx. }
      pose proof (join_ne l x Hx) as Hjn.
      destruct (Js.join "/" (x :: l)); [congruence | cbn; lia]. }
    replace (j + (1 + String.length b) - String.length b) with (S j) by lia.
    rewrite (bool_decide_eq_false_2 (S j = 1)) by lia. cbn [andb].
    rewrite absPath_cons.
    cbn [String.substring]. f_equal. apply substring_append.
Qed.

(** *** [path.join] of any directory with plain segments *)

Lemma noSlash_rev_app a b :
  Fs.noSlash (String.rev_app a b) = Fs.noSlash a && Fs.noSlash b.
Proof.
  revert b. induction a as [|c a IH]; intros b; [reflexivity|].
  cbn [String.rev_app]. rewrite IH, !noSlash_cons. 
  destruct (negb (bool_decide (c = "/"%char))), (Fs.noSlash a); reflexivity.
Qed.

Lemma splitFrom_all_noSlash cur s :
  Fs.noSlash cur = true -> forallb Fs.noSlash (Js.splitFrom "/" 0 cur s) = true.
Proof.
  revert cur. induction s as [|c s IH]; intros cur Hc.
  - cbn. unfold String.rev. now rewrite noSlash_rev_app, Hc.
  - rewrite splitFrom_cons, prefix_slash.
    destruct (bool_decide (c = "/"%char)) eqn:E.
    + cbn [forallb]. unfold String.rev. rewrite noSlash_rev_app, Hc. cbn [andb].
      change (String.length "/" - 1) with 0. now apply IH.
    + apply IH. rewrite noSlash_cons, E. exact Hc.
Qed.

(** The pieces of a path contain no separator. *)
Lemma split_all_noSlash s : forallb Fs.noSlash (Js.split "/" s) = true.
Proof. now apply splitFrom_all_noSlash. Qed.

Lemma plainName_intro n :
  n ≠ "" -> n ≠ "." -> n ≠ ".." -> Fs.noSlash n = true -> Fs.plainName n = true.
Proof.
  intros H1 H2 H3 H4. unfold Fs.plainName.
  now rewrite !bool_decide_eq_false_2, H4.
Qed.

Lemma normStep_shape b acc names k seg :
  Fs.noSlash seg = true -> normShape b acc names k ->
  ∃ names' k', normShape b (Path.normStep b acc seg) names' k'.
Proof.
  intros Hs (Hn & -> & Hk). unfold Path.normStep.
  destruct (bool_decide (seg = "")) eqn:E1; [exists names, k; now split|].
  destruct (bool_decide (seg = ".")) eqn:E2; [exists names, k; now split|].
  cbn [orb]. apply bool_decide_eq_false in E1, E2.
  destruct (bool_decide (seg = "..")) eqn:E3.
  - destruct names as [|x names].
    + cbn [app]. destruct k as [|k]; cbn [repeat].
      * destruct b; [exists [], 1 | exists [], 0]; repeat split; auto; discriminate.
      * rewrite bool_decide_eq_true_2 by reflexivity.
        destruct b; [exists [], (S (S k)); repeat split; auto; discriminate|].
        specialize (Hk eq_refl). discriminate.
    + cbn [app]. cbn [forallb] in Hn. apply andb_true_iff in Hn as [Hx Hn].
      pose proof (plainName_ne _ Hx) as (_ & _ & Hx3).
      rewrite bool_decide_eq_false_2 by exact Hx3.
      exists names, k. now split.
  - apply bool_decide_eq_false in E3. exists (seg :: names), k. split; [|now split].
    cbn [forallb]. now rewrite plainName_intro.
Qed.

Lemma fold_normStep_shape b segs acc names k :
  forallb Fs.noSlash segs = true -> normShape b acc names k ->
  ∃ names' k', normShape b (fold_left (Path.normStep b) segs acc) names' k'.
Proof.
  revert acc names k. induction segs as [|seg segs IH]; intros acc names k Hs Hsh.
  - exists names, k. exact Hsh.
  - cbn [forallb] in Hs. apply andb_true_iff in Hs as [Hseg Hs].
    destruct (normStep_shape b acc names k seg Hseg Hsh) as (n1 & k1 & H1).
    cbn [fold_left]. now apply (IH _ n1 k1).
Qed.

Lemma fold_normStep_parents b k acc :
  b = true -> acc = repeat ".." (length acc) ->
  fold_left (Path.normStep b) (repeat ".." k) acc = repeat ".." k ++ acc.
Proof.
  intros ->. revert acc. induction k as [|k IH]; intros acc Hacc; [reflexivity|].
  cbn [repeat fold_left].
  assert (Hstep : Path.normStep true acc ".." = ".." :: acc).
  { unfold Path.normStep. cbn [orb].
    rewrite (bool_decide_eq_false_2 (".." = "")), (bool_decide_eq_false_2 (".." = ".")),
      (bool_decide_eq_true_2 (".." = "..")) by done. cbn [orb].
    destruct acc as [|x acc]; [reflexivity|].
    cbn in Hacc. injection Hacc as -> _. now rewrite bool_decide_eq_true_2. }
  rewrite Hstep, IH.
  - change (repeat ".." k ++ ".." :: acc = (".." :: repeat ".." k) ++ acc).
    rewrite repeat_cons, <- app_assoc. reflexivity.
  - cbn [length repeat]. now rewrite <- Hacc.
Qed.

(** Normalizing the segments of a normalized stack gives it back. *)
Lemma fold_normStep_idem b acc names k :
  normShape b acc names k -> fold_left (Path.normStep b) (rev acc) [] = acc.
Proof.
  intros (Hn & -> & Hk). rewrite rev_app_distr, rev_repeat, fold_left_app.
  destruct b.
  - rewrite fold_normStep_parents by done. rewrite app_nil_r.
    rewrite fold_normStep_plain, rev_involutive; [reflexivity|].
    rewrite forallb_forall in *. intros x Hx. apply Hn. now apply in_rev.
  - rewrite (Hk eq_refl). cbn [repeat fold_left]. rewrite app_nil_r.
    rewrite fold_normStep_plain, rev_involutive; [now rewrite app_nil_r|].
    rewrite forallb_forall in *. intros x Hx. apply Hn. now apply in_rev.
Qed.

Lemma app_snoc_ne {A} (l more : list A) (n : A) : l ++ more ++ [n] ≠ [].
Proof. destruct l, more; discriminate. Qed.

Lemma normStack_shape dir :
  ∃ names k, normShape (negb (Path.isAbsolute dir)) (normStack dir) names k.
Proof.
  apply (fold_normStep_shape _ _ [] [] 0); [apply split_all_noSlash|].
  now repeat split.
Qed.

Lemma shape_elems b acc names k x :
  normShape b acc names k -> x ∈ acc -> x ≠ "" ∧ Fs.noSlash x = true.
Proof.
  intros (Hn & -> & _) Hx. apply elem_of_app in Hx as [Hx|Hx].
  - rewrite forallb_forall in Hn. apply list_elem_of_In, Hn in Hx.
    split; [now apply plainName_ne in Hx | now apply plainName_noSlash].
  - apply list_elem_of_In, repeat_spec in Hx as ->. split; [discriminate | reflexivity].
Qed.

Lemma join_nonempty l :
  l ≠ [] -> (∀ x, x ∈ l -> x ≠ "") -> Js.join "/" l ≠ "".
Proof.
  destruct l as [|x l]; [congruence|]. intros _ H. apply join_ne, H. constructor.
Qed.

Lemma isAbsolute_append dir x :
  dir ≠ "" -> Path.isAbsolute (dir +:+ x) = Path.isAbsolute dir.
Proof.
  destruct dir as [|c dir]; [congruence|]. intros _.
  unfold Path.isAbsolute, Js.startsWith. now rewrite append_cons, !prefix_slash.
Qed.

Lemma isAbsolute_join l :
  l ≠ [] -> (∀ x, x ∈ l -> x ≠ "" ∧ Fs.noSlash x = true) ->
  Path.isAbsolute (Js.join "/" l) = false.
Proof.
  destruct l as [|x l]; [congruence|]. intros _ H.
  destruct (H x) as [Hx Hs]; [constructor|].
  destruct x as [|c x]; [congruence|].
  rewrite noSlash_cons in Hs. apply andb_true_iff in Hs as [Hc _].
  apply negb_true_iff in Hc.
  unfold Path.isAbsolute, Js.startsWith.
  destruct l as [|y l].
  - change (Js.join "/" [String c x]) with (String c x). now rewrite prefix_slash.
  - now rewrite join_cons2, append_cons, prefix_slash.
Qed.

(** The segments a joined path is made of. *)
Lemma stackSegments dir more n x :
  forallb Fs.plainName (more ++ [n]) = true ->
  x ∈ rev (normStack dir) ++ more ++ [n] -> x ≠ "" ∧ Fs.noSlash x = true.
Proof.
  intros Hm Hx. apply elem_of_app in Hx as [Hx|Hx].
  - destruct (normStack_shape dir) as (names & k & Hsh).
    apply (shape_elems _ _ _ _ x Hsh).
    apply list_elem_of_In, in_rev. now apply list_elem_of_In in Hx.
  - rewrite forallb_forall in Hm. apply list_elem_of_In, Hm in Hx.
    split; [now apply plainName_ne in Hx | now apply plainName_noSlash].
Qed.

(** [path.join] of a non-empty path with plain segments: the normalized
    segments of the path followed by the new ones. *)
Lemma join_more dir more n :
  dir ≠ "" -> forallb Fs.plainName (more ++ [n]) = true ->
  Path.join dir (Js.join "/" (more ++ [n]))
  = rootPrefix dir +:+ Js.join "/" (rev (normStack dir) ++ more ++ [n]).
Proof.
  intros Hdir Hm. pose proof Hm as Hm'. apply forallb_plain_app in Hm' as [_ Hn].
  cbn in Hn. rewrite andb_true_r in Hn.
  assert (Hmne : more ++ [n] ≠ []) by (now destruct more).
  assert (HJ : Js.join "/" (more ++ [n]) ≠ "").
  { apply join_nonempty; [exact Hmne|]. intros x Hx.
    rewrite forallb_forall in Hm. apply list_elem_of_In, Hm in Hx.
    now apply plainName_ne in Hx. }
  unfold Path.join. rewrite !bool_decide_eq_false_2 by assumption.
  unfold Path.normalize.
  rewrite bool_decide_eq_false_2 by (destruct dir; [congruence|discriminate]).
  rewrite isAbsolute_append by exact Hdir.
  assert (Hq : Path.normalizeString (dir +:+ "/" +:+ Js.join "/" (more ++ [n]))
                 (negb (Path.isAbsolute dir))
               = Js.join "/" (rev (normStack dir) ++ more ++ [n])).
  { unfold Path.normalizeString, Path.normSegments.
    rewrite split_slash_app, split_join by (auto using forallb_plain_noSlash).
    rewrite fold_left_app. fold (normStack dir).
    rewrite fold_normStep_plain by exact Hm.
    now rewrite rev_app_distr, rev_involutive. }
  rewrite Hq. rewrite bool_decide_eq_false_2.
  - assert (He : Js.endsWith (dir +:+ "/" +:+ Js.join "/" (more ++ [n])) "/" = false).
    { destruct (decide (more = [])) as [->|Hne].
      - cbn [app Js.join]. rewrite <- append_assoc. now apply endsWith_slash_plain.
      - rewrite join_snoc by exact Hne. rewrite <- !append_assoc.
        now apply endsWith_slash_plain. }
    rewrite He. unfold rootPrefix. now destruct (Path.isAbsolute dir).
  - apply join_nonempty; [apply app_snoc_ne|].
    intros x Hx. now apply (stackSegments dir more n x Hm).
Qed.

Lemma join_more_ne dir more n :
  dir ≠ "" -> forallb Fs.plainName (more ++ [n]) = true ->
  Path.join dir (Js.join "/" (more ++ [n])) ≠ "".
Proof.
  intros Hdir Hm. rewrite join_more by assumption. unfold rootPrefix.
  destruct (Path.isAbsolute dir); [discriminate|]. cbn [String.append].
  apply join_nonempty; [apply app_snoc_ne|].
  intros x Hx. now apply (stackSegments dir more n x Hm).
Qed.

Lemma isAbsolute_join_more dir more n :
  dir ≠ "" -> forallb Fs.plainName (more ++ [n]) = true ->
  Path.isAbsolute (Path.join dir (Js.join "/" (more ++ [n]))) = Path.isAbsolute dir.
Proof.
  intros Hdir Hm. rewrite join_more by assumption. unfold rootPrefix.
  destruct (Path.isAbsolute dir); [apply startsWith_slash|]. cbn [String.append].
  apply isAbsolute_join; [apply app_snoc_ne|].
  intros x Hx. now apply (stackSegments dir more n x Hm).
Qed.

Lemma split_join_more dir more n :
  dir ≠ "" -> forallb Fs.plainName (more ++ [n]) = true ->
  Js.split "/" (Path.join dir (Js.join "/" (more ++ [n])))
  = (if Path.isAbsolute dir then [""] else []) ++ rev (normStack dir) ++ more ++ [n].
Proof.
  intros Hdir Hm. rewrite join_more by assumption. unfold rootPrefix.
  assert (Hs : Js.split "/" (Js.join "/" (rev (normStack dir) ++ more ++ [n]))
               = rev (normStack dir) ++ more ++ [n]).
  { apply split_join; [apply app_snoc_ne|].
    apply forallb_forall. intros x Hx. apply list_elem_of_In in Hx.
    now apply (stackSegments dir more n x Hm). }
  destruct (Path.isAbsolute dir); [|exact Hs].
  change ("/" +:+ ?x) with (String "/" x).
  unfold Js.split. rewrite splitFrom_cons, prefix_slash, bool_decide_eq_true_2 by done.
  change (String.length "/" - 1) with 0. cbn [String.rev String.rev_app app].
  f_equal. exact Hs.
Qed.

Lemma plain1 v : Fs.plainName v = true -> forallb Fs.plainName ([] ++ [v]) = true.
Proof. intros H. cbn. now rewrite H. Qed.

Lemma join1 dir v :
  dir ≠ "" -> Fs.plainName v = true ->
  Path.join dir v = rootPrefix dir +:+ Js.join "/" (rev (normStack dir) ++ [v]).
Proof. intros Hd Hv. exact (join_more dir [] v Hd (plain1 v Hv)). Qed.

Lemma join1_ne dir v : dir ≠ "" -> Fs.plainName v = true -> Path.join dir v ≠ "".
Proof. intros Hd Hv. exact (join_more_ne dir [] v Hd (plain1 v Hv)). Qed.

Lemma isAbsolute_join1 dir v :
  dir ≠ "" -> Fs.plainName v = true ->
  Path.isAbsolute (Path.join dir v) = Path.isAbsolute dir.
Proof. intros Hd Hv. exact (isAbsolute_join_more dir [] v Hd (plain1 v Hv)). Qed.

Lemma split_join1 dir v :
  dir ≠ "" -> Fs.plainName v = true ->
  Js.split "/" (Path.join dir v)
  = (if Path.isAbsolute dir then [""] else []) ++ rev (normStack dir) ++ [v].
Proof. intros Hd Hv. exact (split_join_more dir [] v Hd (plain1 v Hv)). Qed.

Lemma normStack_join dir v :
  dir ≠ "" -> Fs.plainName v = true ->
  normStack (Path.join dir v) = v :: normStack dir.
Proof.
  intros Hdir Hv. unfold normStack at 1.
  rewrite isAbsolute_join1, split_join1 by assumption.
  destruct (normStack_shape dir) as (names & k & Hsh).
  rewrite !fold_left_app.
  assert (H0 : fold_left (Path.normStep (negb (Path.isAbsolute dir)))
                 (if Path.isAbsolute dir then [""] else []) [] = [])
    by (now destruct (Path.isAbsolute dir)).
  rewrite H0, (fold_normStep_idem _ _ _ _ Hsh). cbn [app fold_left].
  now apply normStep_plain.
Qed.

(** Joining in two steps or in one gives the same path. *)
Lemma join_join dir v b :
  dir ≠ "" -> Fs.plainName v = true -> Fs.plainName b = true ->
  Path.join (Path.join dir v) b = Path.join dir (v +:+ "/" +:+ b).
Proof.
  intros Hdir Hv Hb.
  assert (Hm3 : forallb Fs.plainName ([v] ++ [b]) = true) by (cbn; now rewrite Hv, Hb).
  change (v +:+ "/" +:+ b) with (Js.join "/" ([v] ++ [b])).
  rewrite (join_more dir [v] b Hdir Hm3).
  rewrite (join1 (Path.join dir v) b) by (auto using join1_ne).
  rewrite normStack_join by assumption.
  unfold rootPrefix. rewrite isAbsolute_join1 by assumption.
  cbn [rev app]. now rewrite <- app_assoc.
Qed.

(** ** Release namer *)

(** C1. For a platform string that begins with an ASCII character,
    makeReleaseName returns
    version + "/buf-" + platform name + "-" + arch name + extension, where a
    platform starting with "win" becomes "Windows" with extension ".exe", any
    other platform is capitalized (its first character upper-cased, the rest
    as it is) and has no extension, arch "x64" becomes "x86_64" and every
    other arch is unchanged; the version is the leading segment, verbatim.
    The two examples of the specification evaluate as stated.  Upper-casing
    maps the letters a to z to A to Z and leaves every other ASCII character
    as it is.  Being a function of its three inputs, it is deterministic. *)
Theorem makeReleaseName_normalization (p a v : string) :
  Js.startsAscii p = true ->
  makeReleaseName {| platform := p; arch := a; version := v |}
    = Ok (v +:+ "/buf-" +:+ ReleaseSpec.platformName p +:+ "-" +:+
          ReleaseSpec.archName a +:+ ReleaseSpec.extension p)
  ∧ (Js.startsWith p "win" = true ->
       ReleaseSpec.platformName p = "Windows" ∧ ReleaseSpec.extension p = ".exe")
  ∧ (Js.startsWith p "win" = false ->
       ReleaseSpec.platformName p = ReleaseSpec.capitalize p ∧ ReleaseSpec.extension p = "")
  ∧ ReleaseSpec.archName "x64" = "x86_64"
  ∧ (a ≠ "x64" -> ReleaseSpec.archName a = a)
  ∧ makeReleaseName {| platform := "win32"; arch := "x64"; version := "1.6.0" |}
      = Ok "1.6.0/buf-Windows-x86_64.exe"
  ∧ makeReleaseName {| platform := "darwin"; arch := "arm64"; version := "1.6.0" |}
      = Ok "1.6.0/buf-Darwin-arm64"
  ∧ (∀ c rest, p = String c rest ->
       ReleaseSpec.capitalize p
       = String (if (97 <=? nat_of_ascii c) && (nat_of_ascii c <=? 122)
                 then ascii_of_nat (nat_of_ascii c - 32) else c) rest).
Proof.
  intros Hp. repeat split; [| | | | |intros Ha|intros c rest ->; reflexivity].
  - unfold makeReleaseName, ReleaseSpec.platformName, ReleaseSpec.extension,
      ReleaseSpec.archName, ReleaseSpec.isWindows; cbn [platform arch version].
    destruct (Js.startsWith p "win") eqn:Hw.
    + reflexivity.
    + destruct p as [|c rest]; [discriminate|]. reflexivity.
  - unfold ReleaseSpec.platformName, ReleaseSpec.isWindows. now rewrite H.
  - unfold ReleaseSpec.extension, ReleaseSpec.isWindows. now rewrite H.
  - unfold ReleaseSpec.platformName, ReleaseSpec.isWindows. now rewrite H.
  - unfold ReleaseSpec.extension, ReleaseSpec.isWindows. now rewrite H.
  - unfold ReleaseSpec.archName. now rewrite bool_decide_eq_false_2.
Qed.

Lemma makeReleaseName_normalization_witness :
  makeReleaseName {| platform := "linux"; arch := "x64"; version := "1.6.0" |}
    = Ok "1.6.0/buf-Linux-x86_64".
Proof.
  assert (Hp : Js.startsAscii "linux" = true) by reflexivity.
  exact (proj1 (makeReleaseName_normalization "linux" "x64" "1.6.0" Hp)).
Defined.

(** ** HTTP fetcher *)

Lemma logged_logged w evs1 evs2 : logged (logged w evs1) evs2 = logged w (evs1 ++ evs2).
Proof. unfold logged; cbn. now rewrite app_assoc. Qed.

Lemma requestCount_logged_get w url :
  requestCount (logged w [EvHttpGet url]) = S (requestCount w).
Proof.
  unfold requestCount, logged; cbn.
  rewrite List.filter_app, length_app; cbn. lia.
Qed.

Lemma validUrl_asserts url :
  validUrl url = true ->
  (0 <? String.length url) = true ∧
  (Js.startsWith url "https://" || Js.startsWith url "http://") = true.
Proof. unfold validUrl. intros H. now apply andb_true_iff in H. Qed.

Section HttpFacts.

Variable host : Host.
Variable net : nat -> string -> NetReply.

Lemma request_eq url w :
    request net url w = (Returned (net (requestCount w) url), logged w [EvHttpGet url]).
  Proof. reflexivity. Qed.

(** The recursive equation of the source: with a valid URL and at most
    three redirects so far, [httpGet] issues the request and, on a redirect,
    continues with [httpGet(location, redirects.concat(location))]. *)
Lemma httpGet_unfold url redirects :
  validUrl url = true -> length redirects <= 3 ->
  ∃ m, httpGet net url redirects = Ok m ∧
    ∀ w, m w =
      match net (requestCount w) url with
      | Failed e => (Raised e, logged w [EvHttpGet url])
      | Responded response =>
          if isRedirect (statusCode response) then
            callback (location ← requireLocation response;
                      httpGet net location (redirects ++ [location]))
              (logged w [EvHttpGet url])
          else if negb (bool_decide (statusCode response = 200%N)) then
            (Raised (Error ("HTTP " +:+ Js.ofNumber (statusCode response) +:+
                            " for " +:+ url)), logged w [EvHttpGet url])
          else (Returned response, logged w [EvHttpGet url])
      end.
Proof.
  intros Hu Hl. apply validUrl_asserts in Hu as [Hu1 Hu2].
  unfold httpGet. cbn [httpGetFuel]. rewrite Hu1, Hu2.
  assert (Hle : (length redirects <=? 3) = true) by now apply Nat.leb_le.
  rewrite Hle. cbn [assert mbind Result_bind]. eexists; split; [reflexivity|].
  intros w. unfold mbind at 1, M_bind. rewrite request_eq.
  destruct (net (requestCount w) url) as [response|e]; [|reflexivity].
  destruct (isRedirect (statusCode response)); [|now destruct (negb _)].
  destruct (requireLocation response) as [location|e]; [|reflexivity].
  cbn [mbind Result_bind].
  replace (4 - length redirects) with (S (4 - length (redirects ++ [location])))
    by (rewrite length_app; cbn; lia).
  reflexivity.
Qed.

(** With more than three redirects the call throws before any request. *)
Lemma httpGet_too_many url redirects :
  validUrl url = true -> 3 < length redirects ->
  httpGet net url redirects = Thrown (AssertionError "redirects.length <= 3").
Proof.
  intros Hu Hl. apply validUrl_asserts in Hu as [Hu1 Hu2].
  unfold httpGet. cbn [httpGetFuel]. rewrite Hu1, Hu2.
  assert (Hle : (length redirects <=? 3) = false) by (apply Nat.leb_gt; lia).
  now rewrite Hle.
Qed.

Lemma requireLocation_some response location :
    headers_location response = Some location -> location ≠ "" ->
    requireLocation response = Ok location.
  Proof.
    intros H Hne. unfold requireLocation. rewrite H.
    destruct location; [congruence|]. reflexivity.
  Qed.

(** One redirect hop: the request is logged and the fetch continues at the
    [Location] value with the chain extended by it. *)
Lemma httpGet_hop url redirects response location m follow w :
  validUrl url = true -> length redirects <= 3 ->
  httpGet net url redirects = Ok m ->
  net (requestCount w) url = Responded response ->
  isRedirect (statusCode response) = true ->
  headers_location response = Some location -> location ≠ "" ->
  httpGet net location (redirects ++ [location]) = Ok follow ->
  m w = follow (logged w [EvHttpGet url]).
Proof.
  intros Hu Hl Hm Hn Hr Hloc Hne Hf.
  destruct (httpGet_unfold url redirects Hu Hl) as (m' & Hm' & Hw).
  rewrite Hm in Hm'. injection Hm' as <-.
  rewrite Hw, Hn, Hr, (requireLocation_some _ _ Hloc Hne).
  cbn [mbind Result_bind]. now rewrite Hf.
Qed.

End HttpFacts.

Section HttpClaims.

Variable host : Host.
Variable net : nat -> string -> NetReply.

(** C4. httpGet follows a 3xx reply by a GET to its Location value, the
    chain growing by that value.  Started with an empty chain and answered by
    three redirects and then a 200, it returns that response after four
    requests.  Answered by a fourth redirect instead, it fails on the
    assertion that bounds the chain, and the target of the fourth redirect
    is never requested: the log holds the same four requests. *)
Theorem httpGet_redirect_limit
    (u0 u1 u2 u3 : string) (r0 r1 r2 r3 : Response) (w : World) :
  validUrl u0 = true -> validUrl u1 = true ->
  validUrl u2 = true -> validUrl u3 = true ->
  net (requestCount w) u0 = Responded r0 ->
  net (1 + requestCount w) u1 = Responded r1 ->
  net (2 + requestCount w) u2 = Responded r2 ->
  net (3 + requestCount w) u3 = Responded r3 ->
  isRedirect (statusCode r0) = true -> headers_location r0 = Some u1 ->
  isRedirect (statusCode r1) = true -> headers_location r1 = Some u2 ->
  isRedirect (statusCode r2) = true -> headers_location r2 = Some u3 ->
  ∃ m, httpGet net u0 [] = Ok m ∧
    (statusCode r3 = 200%N ->
       m w = (Returned r3,
              logged w [EvHttpGet u0; EvHttpGet u1; EvHttpGet u2; EvHttpGet u3]))
    ∧ (∀ u4, isRedirect (statusCode r3) = true ->
         headers_location r3 = Some u4 -> validUrl u4 = true ->
         m w = (Uncaught (AssertionError "redirects.length <= 3"),
                logged w [EvHttpGet u0; EvHttpGet u1; EvHttpGet u2; EvHttpGet u3])).
Proof.
  intros V0 V1 V2 V3 N0 N1 N2 N3 S0 L0 S1 L1 S2 L2.
  assert (ne : ∀ u, validUrl u = true -> u ≠ "").
  { intros u Hu ->. discriminate. }
  destruct (httpGet_unfold net u0 [] V0 ltac:(cbn; lia)) as (m0 & E0 & _).
  destruct (httpGet_unfold net u1 [u1] V1 ltac:(cbn; lia)) as (m1 & E1 & _).
  destruct (httpGet_unfold net u2 [u1; u2] V2 ltac:(cbn; lia)) as (m2 & E2 & _).
  destruct (httpGet_unfold net u3 [u1; u2; u3] V3 ltac:(cbn; lia)) as (m3 & E3 & H3).
  exists m0. split; [exact E0|].
  set (w1 := logged w [EvHttpGet u0]).
  set (w2 := logged w1 [EvHttpGet u1]).
  set (w3 := logged w2 [EvHttpGet u2]).
  assert (C1 : requestCount w1 = 1 + requestCount w)
    by apply requestCount_logged_get.
  assert (C2 : requestCount w2 = 2 + requestCount w)
    by (unfold w2; rewrite requestCount_logged_get, C1; lia).
  assert (C3 : requestCount w3 = 3 + requestCount w)
    by (unfold w3; rewrite requestCount_logged_get, C2; lia).
  assert (Hchain : m0 w = m3 w3).
  { rewrite <- C1 in N1. rewrite <- C2 in N2.
    rewrite (httpGet_hop net u0 [] r0 u1 m0 m1 w V0 ltac:(cbn; lia) E0 N0 S0 L0
               (ne _ V1) E1).
    fold w1.
    rewrite (httpGet_hop net u1 [u1] r1 u2 m1 m2 w1 V1 ltac:(cbn; lia) E1 N1 S1 L1
               (ne _ V2) E2).
    fold w2.
    rewrite (httpGet_hop net u2 [u1; u2] r2 u3 m2 m3 w2 V2 ltac:(cbn; lia) E2 N2 S2 L2
               (ne _ V3) E3).
    reflexivity. }
  assert (Hlog : logged w3 [EvHttpGet u3]
                 = logged w [EvHttpGet u0; EvHttpGet u1; EvHttpGet u2; EvHttpGet u3]).
  { unfold w3, w2, w1. now rewrite !logged_logged. }
  split.
  - intros S3. rewrite Hchain, H3, C3, N3.
    unfold isRedirect. rewrite S3. cbn. now rewrite Hlog.
  - intros u4 S3 L3 V4. rewrite Hchain, H3, C3, N3, S3.
    rewrite (requireLocation_some _ _ L3 (ne _ V4)). cbn [mbind Result_bind].
    rewrite (httpGet_too_many net u4 _ V4) by (cbn; lia).
    cbn. now rewrite Hlog.
Qed.

(** C6 as amended.  For a valid URL httpGetRedirect issues exactly one
    request.  A 3xx reply with a non-empty Location resolves with that value
    and nothing further is requested; a 200 reply is rejected with
    "Did not get expected redirect for <url>"; any other status outside 3xx
    is rejected with "HTTP <status> for <url>". *)
Theorem httpGetRedirect_contract (url : string) (response : Response) (w : World) :
  validUrl url = true ->
  net (requestCount w) url = Responded response ->
  ∃ m, httpGetRedirect net url = Ok m ∧
    (∀ location, isRedirect (statusCode response) = true ->
       headers_location response = Some location -> location ≠ "" ->
       m w = (Returned location, logged w [EvHttpGet url]))
    ∧ (statusCode response = 200%N ->
         m w = (Raised (Error ("Did not get expected redirect for " +:+ url)),
                logged w [EvHttpGet url]))
    ∧ (isRedirect (statusCode response) = false -> statusCode response ≠ 200%N ->
         m w = (Raised (Error ("HTTP " +:+ Js.ofNumber (statusCode response)
                               +:+ " for " +:+ url)),
                logged w [EvHttpGet url])).
Proof.
  intros Hu Hn. apply validUrl_asserts in Hu as [Hu1 Hu2].
  unfold httpGetRedirect. rewrite Hu1, Hu2. cbn [assert mbind Result_bind].
  eexists; split; [reflexivity|].
  unfold mbind at 1 3 5, M_bind. rewrite request_eq, Hn.
  repeat split.
  - intros location Hr Hl Hne. rewrite Hr, (requireLocation_some _ _ Hl Hne).
    reflexivity.
  - intros Hs. unfold isRedirect. rewrite Hs. reflexivity.
  - intros Hr Hs. rewrite Hr. now rewrite bool_decide_eq_false_2.
Qed.

End HttpClaims.

Lemma httpGet_redirect_limit_witness :
  ∃ m, httpGet (Sample.redirectsThen 3 Sample.okResponse) "https://example.com/start" [] = Ok m ∧
    m Sample.bareWorld =
      (Returned Sample.okResponse,
       logged Sample.bareWorld
         [EvHttpGet "https://example.com/start"; EvHttpGet "https://example.com/next";
          EvHttpGet "https://example.com/next"; EvHttpGet "https://example.com/next"]).
Proof.
  destruct (httpGet_redirect_limit (Sample.redirectsThen 3 Sample.okResponse)
              "https://example.com/start" "https://example.com/next"
              "https://example.com/next" "https://example.com/next"
              (Sample.redirectTo "https://example.com/next")
              (Sample.redirectTo "https://example.com/next")
              (Sample.redirectTo "https://example.com/next")
              Sample.okResponse Sample.bareWorld
              eq_refl eq_refl eq_refl eq_refl eq_refl eq_refl eq_refl eq_refl
              eq_refl eq_refl eq_refl eq_refl eq_refl eq_refl)
    as (m & E & H200 & _).
  exists m. split; [exact E | exact (H200 eq_refl)].
Defined.

(** C6 as stated fails: a 404 reply is rejected with "HTTP 404 for <url>",
    not with the message about an expected redirect. *)
Lemma httpGetRedirect_404_message :
  ∃ m, httpGetRedirect (Sample.always Sample.notFound) "https://example.com/latest" = Ok m ∧
    (m Sample.bareWorld).1 = Raised (Error "HTTP 404 for https://example.com/latest") ∧
    (m Sample.bareWorld).1 ≠
      Raised (Error "Did not get expected redirect for https://example.com/latest").
Proof.
  eexists. split; [reflexivity|]. split; [reflexivity|]. discriminate.
Qed.

Lemma httpGetRedirect_contract_witness :
  ∃ m, httpGetRedirect (Sample.always Sample.notFound) "https://example.com/latest" = Ok m ∧
    m Sample.bareWorld
      = (Raised (Error "HTTP 404 for https://example.com/latest"),
         logged Sample.bareWorld [EvHttpGet "https://example.com/latest"]).
Proof.
  destruct (httpGetRedirect_contract (Sample.always Sample.notFound)
              "https://example.com/latest" Sample.notFound Sample.bareWorld
              eq_refl eq_refl) as (m & E & _ & _ & H).
  exists m. split; [exact E|]. apply H; [reflexivity | discriminate].
Defined.

(** ** Install orchestrator *)

Lemma bind_eq {A B} (m : M A) (f : A -> M B) (w : World) :
  (m ≫= f) w =
    match m w with
    | (Returned a, w') => f a w'
    | (Raised e, w') => (Raised e, w')
    | (Uncaught e, w') => (Uncaught e, w')
    end.
Proof. reflexivity. Qed.

Lemma bind_returned {A B} (m : M A) (f : A -> M B) (w w' : World) (b : B) :
  (m ≫= f) w = (Returned b, w') ->
  ∃ a w1, m w = (Returned a, w1) ∧ f a w1 = (Returned b, w').
Proof.
  rewrite bind_eq. destruct (m w) as [[a|e|e] w1]; [eauto | discriminate..].
Qed.

Lemma sync_returned {A} (r : Result A) (w w' : World) (a : A) :
  sync r w = (Returned a, w') -> r = Ok a ∧ w' = w.
Proof. destruct r; cbn; intros H; now inversion H. Qed.

Lemma findByName_some r l e :
  findByName r l = Some e -> e ∈ l ∧ Dist.name e = r.
Proof.
  intros H. apply List.find_some in H as [Hin Hn].
  split; [now apply list_elem_of_In | now apply bool_decide_eq_true in Hn].
Qed.

Section OrchestratorClaims.

Variable host : Host.
Variable net : nat -> string -> NetReply.

Lemma latestUrl_ok : ∃ m, httpGetRedirect net latestUrl = Ok m.
Proof. eexists. reflexivity. Qed.

Lemma fetchLatestLocation_eq m w :
  httpGetRedirect net latestUrl = Ok m ->
  fetchLatestLocation net w =
    match m w with
    | (Raised e, w') =>
        (Raised (Error ("bufbuild failed to retrieve latest buf version number: "
                        +:+ errorToString e)), w')
    | r => r
    end.
Proof.
  intros E. unfold fetchLatestLocation, tryCatch. rewrite E. cbn [await].
  now destruct (m w) as [[a|e|e] w'].
Qed.

Lemma resolveVersion_latest input w :
  input = None ∨ input = Some "latest" ->
  resolveVersion net input w =
    (latestLocation ← fetchLatestLocation net;
     mret (Js.pop (Js.split "/v" latestLocation))) w.
Proof. intros [-> | ->]; reflexivity. Qed.

(** The fetch of the latest-release URL, by the reply to its request. *)
Lemma fetchLatestLocation_reply w :
  fetchLatestLocation net w =
    match net (requestCount w) latestUrl with
    | Failed e =>
        (Raised (Error ("bufbuild failed to retrieve latest buf version number: "
                        +:+ errorToString e)), logged w [EvHttpGet latestUrl])
    | Responded response =>
        if isRedirect (statusCode response) then
          match requireLocation response with
          | Ok location => (Returned location, logged w [EvHttpGet latestUrl])
          | Thrown e => (Uncaught e, logged w [EvHttpGet latestUrl])
          end
        else
          (Raised (Error ("bufbuild failed to retrieve latest buf version number: "
               +:+ "Error: " +:+
               (if bool_decide (statusCode response = 200%N)
                then "Did not get expected redirect for " +:+ latestUrl
                else "HTTP " +:+ Js.ofNumber (statusCode response) +:+ " for "
                     +:+ latestUrl))),
           logged w [EvHttpGet latestUrl])
    end.
Proof.
  destruct latestUrl_ok as [m E]. rewrite (fetchLatestLocation_eq m w E).
  unfold httpGetRedirect in E. cbn [assert mbind Result_bind] in E.
  change (0 <? String.length latestUrl) with true in E.
  change (Js.startsWith latestUrl "https://" || Js.startsWith latestUrl "http://")
    with true in E.
  cbn [assert mbind Result_bind] in E. injection E as <-.
  rewrite bind_eq, request_eq.
  destruct (net (requestCount w) latestUrl) as [response|e]; [|reflexivity].
  destruct (isRedirect (statusCode response)).
  - now destruct (requireLocation response).
  - now destruct (bool_decide (statusCode response = 200%N)).
Qed.

Lemma requireLocation_missing response :
  headers_location response = None ∨ headers_location response = Some "" ->
  requireLocation response = Thrown (AssertionError "location && location.length > 0").
Proof. unfold requireLocation. now intros [-> | ->]. Qed.

(** C5.  A version other than "latest" is used as it is and the world is
    untouched by the resolution.  For undefined or "latest" one request goes
    to the fixed latest-release URL, and the reply decides.  A 3xx reply with
    a non-empty Location gives as version the last piece of the Location split
    at "/v", which is what follows the last "/v".  A transport error and a
    reply outside 3xx are rejections of the fetch, and are re-thrown wrapped
    in "bufbuild failed to retrieve latest buf version number: ".  A 3xx reply
    whose Location is missing or empty fails the assertion in the response
    callback: that failure of the fetch reaches no catch and ends the call as
    the bare assertion error, not wrapped as the other failures are.  In no
    failing case does ensureInstalled return. *)
Theorem resolveVersion_contract (input : option string) (w : World) :
  (∀ v, input = Some v -> v ≠ "latest" ->
     resolveVersion net input w = (Returned v, w) ∧
     ensureInstalled host net input w = installVersion host net v w)
  ∧ (input = None ∨ input = Some "latest" ->
     (∀ response location,
        net (requestCount w) latestUrl = Responded response ->
        isRedirect (statusCode response) = true ->
        headers_location response = Some location -> location ≠ "" ->
        resolveVersion net input w
          = (Returned (Js.pop (Js.split "/v" location)), logged w [EvHttpGet latestUrl])
        ∧ ensureInstalled host net input w
          = installVersion host net (Js.pop (Js.split "/v" location))
              (logged w [EvHttpGet latestUrl])
        ∧ (∀ a b, location = a +:+ "/v" +:+ b -> occursIn "/v" b = false ->
             Js.pop (Js.split "/v" location) = b))
     ∧ (∀ e, net (requestCount w) latestUrl = Failed e ->
          ensureInstalled host net input w
          = (Raised (Error ("bufbuild failed to retrieve latest buf version number: "
                            +:+ errorToString e)),
             logged w [EvHttpGet latestUrl]))
     ∧ (∀ response,
          net (requestCount w) latestUrl = Responded response ->
          isRedirect (statusCode response) = false ->
          ensureInstalled host net input w
          = (Raised (Error ("bufbuild failed to retrieve latest buf version number: "
               +:+ "Error: " +:+
               (if bool_decide (statusCode response = 200%N)
                then "Did not get expected redirect for " +:+ latestUrl
                else "HTTP " +:+ Js.ofNumber (statusCode response) +:+ " for "
                     +:+ latestUrl))),
             logged w [EvHttpGet latestUrl]))
     ∧ (∀ response,
          net (requestCount w) latestUrl = Responded response ->
          isRedirect (statusCode response) = true ->
          headers_location response = None ∨ headers_location response = Some "" ->
          ensureInstalled host net input w
          = (Uncaught (AssertionError "location && location.length > 0"),
             logged w [EvHttpGet latestUrl]))).
Proof.
  split.
  - intros v -> Hv. unfold ensureInstalled, resolveVersion.
    rewrite bool_decide_eq_false_2 by done. split; reflexivity.
  - intros Hin.
    assert (Hres : resolveVersion net input w =
              match fetchLatestLocation net w with
              | (Returned location, w') => (Returned (Js.pop (Js.split "/v" location)), w')
              | (Raised e, w') => (Raised e, w')
              | (Uncaught e, w') => (Uncaught e, w')
              end).
    { rewrite (resolveVersion_latest _ _ Hin), bind_eq.
      now destruct (fetchLatestLocation net w) as [[a|e|e] w']. }
    rewrite fetchLatestLocation_reply in Hres.
    unfold ensureInstalled. rewrite bind_eq, Hres.
    split; [|split; [|split]].
    + intros response location Hn Hr Hl Hne.
      rewrite Hn, Hr, (requireLocation_some _ _ Hl Hne).
      split; [reflexivity|]. split; [reflexivity|].
      intros a b -> Hb. now apply split_slash_v_last.
    + intros e Hn. now rewrite Hn.
    + intros response Hn Hr. now rewrite Hn, Hr.
    + intros response Hn Hr Hl.
      now rewrite Hn, Hr, (requireLocation_missing _ Hl).
Qed.

(** What a returning installVersion returns is listed in the world it leaves. *)
Lemma installVersion_listed v w e w' :
  installVersion host net v w = (Returned e, w') ->
  ∃ r l, makeReleaseName {| platform := os_platform host; arch := os_arch host;
                            version := v |} = Ok r ∧
         listInstalled host (w_fs w') (standardInstallDirectory host) = Ok l ∧
         e ∈ l ∧ Dist.name e = r.
Proof.
  unfold installVersion. intros H.
  apply bind_returned in H as (r & w1 & Hr & H).
  apply sync_returned in Hr as [Hr ->].
  apply bind_returned in H as (fs & w1 & Hfs & H).
  inversion Hfs; subst fs w1; clear Hfs.
  apply bind_returned in H as (l & w1 & Hl & H).
  apply sync_returned in Hl as [Hl ->].
  exists r.
  destruct (findByName r l) as [hit|] eqn:Hfind.
  - inversion H; subst. exists l. apply findByName_some in Hfind as [? ?]. auto.
  - apply bind_returned in H as (content & w1 & _ & H).
    apply bind_returned in H as ([] & w2 & _ & H).
    apply bind_returned in H as (fs2 & w3 & Hfs & H).
    inversion Hfs; subst fs2 w3; clear Hfs.
    apply bind_returned in H as (l2 & w3 & Hl2 & H).
    apply sync_returned in Hl2 as [Hl2 ->].
    destruct (findByName r l2) as [installed|] eqn:Hfind2; [|discriminate].
    apply bind_returned in H as ([] & w3 & Hemit & H).
    inversion Hemit; subst w3; clear Hemit. inversion H; subst. cbn [w_fs].
    exists l2. apply findByName_some in Hfind2 as [? ?]. auto.
Qed.

(** C8. On the download-and-write path the install directory is listed
    again, and when no entry carries the release name ensureInstalled is
    rejected with "bufbuild failed to install buf v<version>."; whatever
    ensureInstalled returns is an entry of the listing of the file system it
    leaves behind, and carries the release name. *)
Theorem ensureInstalled_verified (input : option string) (w : World) :
  (∀ v w0 r l0 data w1 w2 l2,
     resolveVersion net input w = (Returned v, w0) ->
     makeReleaseName {| platform := os_platform host; arch := os_arch host;
                        version := v |} = Ok r ->
     listInstalled host (w_fs w0) (standardInstallDirectory host) = Ok l0 ->
     findByName r l0 = None ->
     downloadRelease net v r w0 = (Returned data, w1) ->
     saveRelease host r data w1 = (Returned tt, w2) ->
     listInstalled host (w_fs w2) (standardInstallDirectory host) = Ok l2 ->
     findByName r l2 = None ->
     ensureInstalled host net input w
       = (Raised (Error ("bufbuild failed to install buf v" +:+ v +:+ ".")), w2))
  ∧ (∀ e w', ensureInstalled host net input w = (Returned e, w') ->
       ∃ v r l,
         makeReleaseName {| platform := os_platform host; arch := os_arch host;
                            version := v |} = Ok r ∧
         listInstalled host (w_fs w') (standardInstallDirectory host) = Ok l ∧
         e ∈ l ∧ Dist.name e = r).
Proof.
  split.
  - intros v w0 r l0 data w1 w2 l2 Hv Hr Hl0 Hf0 Hd Hs Hl2 Hf2.
    unfold ensureInstalled. rewrite bind_eq, Hv.
    unfold installVersion. rewrite Hr. cbn [sync].
    rewrite bind_eq. cbn [mret M_ret].
    rewrite bind_eq. unfold getFs at 1.
    rewrite bind_eq, Hl0. cbn [sync mret M_ret]. rewrite Hf0.
    rewrite bind_eq, Hd, bind_eq, Hs, bind_eq. unfold getFs at 1.
    rewrite bind_eq, Hl2. cbn [sync mret M_ret]. rewrite Hf2. reflexivity.
  - intros e w' H. unfold ensureInstalled in H.
    apply bind_returned in H as (v & w0 & _ & H).
    apply installVersion_listed in H as (r & l & ? & ? & ? & ?).
    exists v, r, l. auto.
Qed.

End OrchestratorClaims.

(** ** PATH prober *)

Lemma find_all_false {A} (f : A -> bool) (l : list A) :
  (∀ x, x ∈ l -> f x = false) -> List.find f l = None.
Proof.
  induction l as [|x l IH]; intros H; [reflexivity|]. cbn.
  rewrite (H x) by constructor. apply IH. intros y Hy. apply H. now constructor.
Qed.

Lemma find_first {A} (f : A -> bool) (l1 : list A) (x : A) (l2 : list A) :
  (∀ y, y ∈ l1 -> f y = false) -> f x = true ->
  List.find f (l1 ++ x :: l2) = Some x.
Proof.
  induction l1 as [|y l1 IH]; intros H Hx; cbn.
  - now rewrite Hx.
  - rewrite (H y) by constructor. apply IH; [|exact Hx].
    intros z Hz. apply H. now constructor.
Qed.

Section PathProber.

Variable host : Host.
Variable fs : Fs.FileSystem.

(** The chain of [filter] and [map] calls, one directory at a time. *)
Lemma candidates_eq (dirs : list string) :
  map (expandTilde host)
    (map (fun p => Path.join p (exeName host))
       (List.filter (fun p => negb (Js.endsWith p (".npm-global" +:+ Path.sep +:+ "bin")))
          (List.filter (fun p => negb (Js.endsWith p ("node_modules" +:+ Path.sep +:+ ".bin")))
             dirs)))
  = map (candidatePath host) (List.filter (fun p => negb (isShimDir p)) dirs).
Proof.
  induction dirs as [|d dirs IH]; [reflexivity|].
  unfold isShimDir in *. cbn [List.filter].
  change ("node_modules" +:+ Path.sep +:+ ".bin") with "node_modules/.bin" in *.
  change (".npm-global" +:+ Path.sep +:+ "bin") with ".npm-global/bin" in *.
  destruct (Js.endsWith d "node_modules/.bin"); cbn [negb orb]; [exact IH|].
  cbn [List.filter].
  destruct (Js.endsWith d ".npm-global/bin"); cbn [negb]; [exact IH|].
  cbn [map]. now rewrite IH.
Qed.

(** C9. An unset PATH gives not-found.  Directories ending in
    node_modules/.bin or .npm-global/bin are left out before any probe, so a
    PATH whose only directories with an existing candidate are such
    directories gives not-found.  Otherwise the result is the candidate (the
    directory joined with the executable name of the platform, a leading ~
    expanded) of the first directory, in PATH order, that is not left out and
    whose candidate exists. *)
Theorem findBufInPath_first_candidate (envPath : string) :
  findBufInPath host fs None = None
  ∧ ((∀ dir, dir ∈ Js.split Path.delimiter envPath ->
        Fs.existsSync fs (cwd host) (candidatePath host dir) = true ->
        isShimDir dir = true) ->
     findBufInPath host fs (Some envPath) = None)
  ∧ (∀ before dir after,
       Js.split Path.delimiter envPath = before ++ dir :: after ->
       isShimDir dir = false ->
       Fs.existsSync fs (cwd host) (candidatePath host dir) = true ->
       (∀ d, d ∈ before ->
          isShimDir d = true ∨ Fs.existsSync fs (cwd host) (candidatePath host d) = false) ->
       findBufInPath host fs (Some envPath) = Some (candidatePath host dir))
  ∧ exeName host = (if Js.startsWith (os_platform host) "win" then "buf.exe" else "buf").
Proof.
  split; [reflexivity|]. unfold findBufInPath. rewrite candidates_eq.
  split; [|split; [|reflexivity]].
  - intros H. apply find_all_false. intros c Hc.
    apply list_elem_of_fmap in Hc as (d & -> & Hd).
    apply list_elem_of_In, List.filter_In in Hd as [Hd Hs].
    apply list_elem_of_In in Hd.
    destruct (Fs.existsSync fs (cwd host) (candidatePath host d)) eqn:He; [|reflexivity].
    rewrite (H d Hd He) in Hs. discriminate.
  - intros before dir after Hsplit Hshim Hex Hbefore. rewrite Hsplit.
    rewrite List.filter_app. cbn [List.filter]. rewrite Hshim. cbn [negb].
    rewrite map_app. cbn [map]. apply find_first; [|exact Hex].
    intros c Hc. apply list_elem_of_fmap in Hc as (d & -> & Hd).
    apply list_elem_of_In, List.filter_In in Hd as [Hd Hs].
    apply list_elem_of_In in Hd.
    destruct (Hbefore d Hd) as [Hd'|Hd']; [|exact Hd'].
    rewrite Hd' in Hs. discriminate.
Qed.

End PathProber.

(** ** File system *)

Lemma wf_spec (fs : Fs.FileSystem) :
  Fs.wf fs = true <->
  fs !! [] = Some IDir ∧
  ∀ k i, fs !! k = Some i ->
    forallb Fs.plainName k = true ∧ (k = [] ∨ fs !! removelast k = Some IDir).
Proof.
  unfold Fs.wf. rewrite andb_true_iff, bool_decide_eq_true, forallb_forall.
  split; intros [Hroot H]; (split; [exact Hroot|]).
  - intros k i Hk.
    assert (Hin : In (k, i) (map_to_list fs))
      by now apply list_elem_of_In, elem_of_map_to_list.
    specialize (H _ Hin). unfold Fs.wfEntry in H. cbn [fst] in H.
    apply andb_true_iff in H as [Hp Hd]. split; [exact Hp|].
    apply orb_true_iff in Hd as [Hd|Hd]; apply bool_decide_eq_true in Hd; auto.
  - intros [k i] Hin. apply list_elem_of_In, elem_of_map_to_list in Hin.
    destruct (H k i Hin) as [Hp Hd]. unfold Fs.wfEntry. cbn [fst].
    rewrite Hp. cbn [andb]. apply orb_true_iff.
    destruct Hd as [Hd|Hd]; [left | right]; now apply bool_decide_eq_true.
Qed.

Lemma wf_root fs : Fs.wf fs = true -> fs !! [] = Some IDir.
Proof. intros H. now apply wf_spec in H. Qed.

Lemma wf_plain fs k i :
  Fs.wf fs = true -> fs !! k = Some i -> forallb Fs.plainName k = true.
Proof. intros H Hk. apply wf_spec in H as [_ H]. now apply (H k i). Qed.

Lemma wf_parent fs c n i :
  Fs.wf fs = true -> fs !! (c ++ [n]) = Some i -> fs !! c = Some IDir.
Proof.
  intros H Hk. apply wf_spec in H as [_ H]. destruct (H _ _ Hk) as [_ [Hnil|Hp]].
  - now destruct c.
  - now rewrite removelast_last in Hp.
Qed.

(** Every proper ancestor of an entry is a directory. *)
Lemma wf_ancestor fs p q :
  Fs.wf fs = true -> q ≠ [] -> is_Some (fs !! (p ++ q)) -> fs !! p = Some IDir.
Proof.
  intros Hwf. induction q as [|n q IH] using rev_ind; [congruence|].
  intros _ [i Hi]. rewrite app_assoc in Hi.
  pose proof (wf_parent _ _ _ _ Hwf Hi) as Hp.
  destruct (decide (q = [])) as [->|Hq].
  - now rewrite app_nil_r in Hp.
  - apply IH; [exact Hq | eauto].
Qed.

Lemma walkStep_plain fs cur n :
  fs !! rev cur = Some IDir -> Fs.plainName n = true ->
  Fs.walkStep fs (Fs.At cur) n = Fs.At (n :: cur).
Proof.
  intros Hd Hn. apply plainName_ne in Hn as (H1 & H2 & H3).
  unfold Fs.walkStep. rewrite Hd. now rewrite !bool_decide_eq_false_2.
Qed.

Lemma walkStep_empty fs cur :
  fs !! rev cur = Some IDir -> Fs.walkStep fs (Fs.At cur) "" = Fs.At cur.
Proof. intros Hd. unfold Fs.walkStep. now rewrite Hd. Qed.

(** Walking down plain names through directories. *)
Lemma walk_plain fs l c0 :
  forallb Fs.plainName l = true ->
  (∀ l1 l2, l = l1 ++ l2 -> l2 ≠ [] -> fs !! (rev c0 ++ l1) = Some IDir) ->
  fold_left (Fs.walkStep fs) l (Fs.At c0) = Fs.At (rev l ++ c0).
Proof.
  revert c0. induction l as [|n l IH]; intros c0 Hp Hd; [reflexivity|].
  cbn [forallb] in Hp. apply andb_true_iff in Hp as [Hn Hl].
  cbn [fold_left]. rewrite walkStep_plain; [|
    rewrite <- (app_nil_r (rev c0)); now apply (Hd [] (n :: l)) | exact Hn].
  rewrite IH; [cbn [rev]; now rewrite <- app_assoc | exact Hl |].
  intros l1 l2 -> Hl2. cbn [rev]. rewrite <- app_assoc. cbn [app].
  now apply (Hd (n :: l1) l2).
Qed.

Lemma resolve_absPath fs cwd segs :
  Fs.wf fs = true -> forallb Fs.plainName segs = true ->
  (segs = [] ∨ fs !! removelast segs = Some IDir) ->
  Fs.resolve fs cwd (absPath segs) = Fs.At (rev segs).
Proof.
  intros Hwf Hp Hd. unfold Fs.resolve.
  rewrite bool_decide_eq_false_2 by apply absPath_ne.
  rewrite isAbsolute_absPath', split_absPath by exact Hp.
  cbn [fold_left]. rewrite walkStep_empty by (now apply wf_root).
  destruct segs as [|x l].
  - cbn [fold_left]. now rewrite walkStep_empty by (now apply wf_root).
  - destruct Hd as [Hd|Hd]; [discriminate|].
    rewrite walk_plain; [now rewrite app_nil_r | exact Hp |].
    intros l1 l2 E Hl2. cbn [rev app].
    destruct (exists_last Hl2) as (l2' & n & ->).
    rewrite E, app_assoc, removelast_last in Hd.
    destruct (decide (l2' = [])) as [->|Hne]; [now rewrite app_nil_r in Hd|].
    apply (wf_ancestor fs l1 l2' Hwf Hne). eauto.
Qed.

(** The inode an absolute path denotes: the entry, if its parent is a
    directory. *)
Lemma stat_absPath_child fs cwd syscall c n :
  Fs.wf fs = true -> fs !! c = Some IDir -> Fs.plainName n = true ->
  Fs.stat fs cwd syscall (absPath (c ++ [n]))
  = match fs !! (c ++ [n]) with
    | Some i => Ok (c ++ [n], i)
    | None => Thrown (SystemError "ENOENT" syscall (absPath (c ++ [n])))
    end.
Proof.
  intros Hwf Hc Hn. unfold Fs.stat.
  rewrite resolve_absPath; [now rewrite rev_involutive | exact Hwf | |].
  - apply forallb_plain_app. split; [now apply (wf_plain fs c IDir)|].
    cbn. now rewrite Hn.
  - right. now rewrite removelast_last.
Qed.

Lemma stat_absPath fs cwd syscall c i :
  Fs.wf fs = true -> fs !! c = Some i ->
  Fs.stat fs cwd syscall (absPath c) = Ok (c, i).
Proof.
  intros Hwf Hc. unfold Fs.stat.
  rewrite resolve_absPath; [now rewrite rev_involutive, Hc | exact Hwf | |].
  - now apply (wf_plain fs c i).
  - destruct c as [|x l] using rev_ind; [now left|]. right.
    rewrite removelast_last. now apply (wf_parent fs l x i).
Qed.

Lemma stripPrefix_spec c k r : Fs.stripPrefix c k = Some r <-> k = c ++ r.
Proof.
  revert k. induction c as [|x c IH]; intros k; cbn.
  - split; congruence.
  - destruct k as [|y k]; [split; discriminate|].
    destruct (bool_decide (x = y)) eqn:E.
    + apply bool_decide_eq_true in E as ->. rewrite IH. split; congruence.
    + apply bool_decide_eq_false in E. split; [discriminate | congruence].
Qed.

Lemma childName_spec c k n : Fs.childName c k = Some n <-> k = c ++ [n].
Proof.
  unfold Fs.childName. destruct (Fs.stripPrefix c k) as [r|] eqn:E.
  - apply stripPrefix_spec in E as ->.
    destruct r as [|x [|y r]]; split; intros H; try discriminate.
    + apply (f_equal (@length _)) in H. rewrite !length_app in H. cbn in H. lia.
    + congruence.
    + apply app_inv_head in H. congruence.
    + apply app_inv_head in H. discriminate.
  - split; [discriminate|]. intros ->.
    assert (H : Fs.stripPrefix c (c ++ [n]) = Some [n]) by now apply stripPrefix_spec.
    congruence.
Qed.

(** The names [readdirSync] returns are those of the entries one level
    below. *)
Lemma elem_of_children (fs : Fs.FileSystem) c n :
  n ∈ Fs.children fs c <-> is_Some (fs !! (c ++ [n])).
Proof.
  unfold Fs.children. rewrite list_elem_of_omap. split.
  - intros ([k i] & Hin & Hc). cbn [fst] in Hc.
    apply childName_spec in Hc as ->. apply elem_of_map_to_list in Hin. eauto.
  - intros [i Hi]. exists (c ++ [n], i). split.
    + now apply elem_of_map_to_list.
    + now apply childName_spec.
Qed.

(** Adding an entry to a directory, or replacing a file, keeps the file
    system well-formed. *)
Lemma wf_insert fs c n i :
  Fs.wf fs = true -> fs !! c = Some IDir -> Fs.plainName n = true ->
  fs !! (c ++ [n]) ≠ Some IDir ->
  Fs.wf (<[c ++ [n] := i]> fs) = true.
Proof.
  intros Hwf Hc Hn Hold. apply wf_spec. split.
  - rewrite lookup_insert_ne by (now destruct c). now apply wf_root.
  - intros k j Hk. destruct (decide (k = c ++ [n])) as [->|Hne].
    + split.
      * apply forallb_plain_app. split; [now apply (wf_plain fs c IDir)|].
        cbn. now rewrite Hn.
      * right. rewrite removelast_last, lookup_insert_ne; [exact Hc|].
        intros E. apply (f_equal (@length _)) in E. rewrite length_app in E.
        cbn in E. lia.
    + rewrite lookup_insert_ne in Hk by congruence.
      apply wf_spec in Hwf as [_ Hwf]. destruct (Hwf k j Hk) as [Hp Hd].
      split; [exact Hp|]. destruct Hd as [Hd|Hd]; [now left|right].
      rewrite lookup_insert_ne; [exact Hd|]. intros E. rewrite <- E in Hd. congruence.
Qed.

Lemma entry_plain fs c n :
  Fs.wf fs = true -> is_Some (fs !! (c ++ [n])) -> Fs.plainName n = true.
Proof.
  intros Hwf [i Hi]. pose proof (wf_plain fs _ _ Hwf Hi) as Hp.
  apply forallb_plain_app in Hp as [_ Hp]. cbn in Hp. now rewrite andb_true_r in Hp.
Qed.

(** *** Resolving a joined path *)

Lemma fold_walk_Lost fs segs code :
  fold_left (Fs.walkStep fs) segs (Fs.Lost code) = Fs.Lost code.
Proof. induction segs as [|s segs IH]; [reflexivity | exact IH]. Qed.

Lemma walkStep_At fs cur seg cur' :
  Fs.walkStep fs (Fs.At cur) seg = Fs.At cur' ->
  fs !! rev cur = Some IDir ∧
  cur' = if bool_decide (seg = "") || bool_decide (seg = ".") then cur
         else if bool_decide (seg = "..") then tail cur else seg :: cur.
Proof.
  unfold Fs.walkStep. destruct (fs !! rev cur) as [[m d|]|]; try discriminate.
  intros H. split; [reflexivity|].
  destruct (bool_decide (seg = "") || bool_decide (seg = ".")); [congruence|].
  destruct (bool_decide (seg = "..")); congruence.
Qed.

Lemma walk_first_dir fs segs c1 cur :
  segs ≠ [] -> fold_left (Fs.walkStep fs) segs (Fs.At c1) = Fs.At cur ->
  fs !! rev c1 = Some IDir.
Proof.
  destruct segs as [|seg segs]; [congruence|]. intros _ H. cbn [fold_left] in H.
  destruct (Fs.walkStep fs (Fs.At c1) seg) as [c2|code] eqn:E.
  - now apply walkStep_At in E.
  - now rewrite fold_walk_Lost in H.
Qed.

Lemma tail_drop {A} k (l : list A) : tail (drop k l) = drop (S k) l.
Proof.
  revert l. induction k as [|k IH]; intros l; [now destruct l|].
  destruct l as [|x l]; [reflexivity|]. cbn [drop]. apply IH.
Qed.

(** One segment, resolved in the file system and by [normalizeString]: the
    two stacks keep the same names, and where the normalized one holds [k]
    parent references the resolved one has left [k] segments of its start
    [c1]. *)
Lemma step_rel fs b c1 names k seg cur' :
  (b = false -> c1 = []) -> Fs.noSlash seg = true ->
  normShape b (names ++ repeat ".." k) names k ->
  Fs.walkStep fs (Fs.At (names ++ drop k c1)) seg = Fs.At cur' ->
  ∃ names' k',
    normShape b (Path.normStep b (names ++ repeat ".." k) seg) names' k' ∧
    Path.normStep b (names ++ repeat ".." k) seg = names' ++ repeat ".." k' ∧
    cur' = names' ++ drop k' c1.
Proof.
  intros Hb Hs (Hn & _ & Hk) H. apply walkStep_At in H as [_ ->].
  unfold Path.normStep.
  destruct (bool_decide (seg = "")) eqn:E1; [exists names, k; now repeat split|].
  destruct (bool_decide (seg = ".")) eqn:E2; [exists names, k; now repeat split|].
  cbn [orb]. apply bool_decide_eq_false in E1, E2.
  destruct (bool_decide (seg = "..")) eqn:E3.
  - destruct names as [|x names].
    + cbn [app]. rewrite tail_drop. destruct k as [|k]; cbn [repeat].
      * destruct b.
        -- exists [], 1. repeat split; auto. discriminate.
        -- exists [], 0. rewrite (Hb eq_refl). repeat split; auto.
      * rewrite bool_decide_eq_true_2 by reflexivity. destruct b.
        -- exists [], (S (S k)). repeat split; auto. discriminate.
        -- specialize (Hk eq_refl). discriminate.
    + cbn [app tail]. cbn [forallb] in Hn. apply andb_true_iff in Hn as [Hx Hn].
      pose proof (plainName_ne _ Hx) as (_ & _ & Hx3).
      rewrite bool_decide_eq_false_2 by exact Hx3.
      exists names, k. now repeat split.
  - apply bool_decide_eq_false in E3. exists (seg :: names), k.
    repeat split; auto. cbn [forallb]. now rewrite plainName_intro.
Qed.

Lemma walk_norm_rel fs b c1 segs names k cur :
  (b = false -> c1 = []) -> forallb Fs.noSlash segs = true ->
  normShape b (names ++ repeat ".." k) names k ->
  fold_left (Fs.walkStep fs) segs (Fs.At (names ++ drop k c1)) = Fs.At cur ->
  ∃ names' k',
    normShape b (names' ++ repeat ".." k') names' k' ∧
    fold_left (Path.normStep b) segs (names ++ repeat ".." k) = names' ++ repeat ".." k' ∧
    cur = names' ++ drop k' c1.
Proof.
  intros Hb. revert names k. induction segs as [|seg segs IH]; intros names k Hs Hsh H.
  - cbn in H. injection H as <-. exists names, k. auto.
  - cbn [forallb] in Hs. apply andb_true_iff in Hs as [Hseg Hs].
    cbn [fold_left] in H |- *.
    destruct (Fs.walkStep fs (Fs.At (names ++ drop k c1)) seg) as [c2|code] eqn:E;
      [|now rewrite fold_walk_Lost in H].
    destruct (step_rel fs b c1 names k seg c2 Hb Hseg Hsh E) as (n1 & k1 & Hsh1 & E1 & ->).
    rewrite E1 in Hsh1 |- *. now apply IH.
Qed.

Lemma walk_parents fs c1 k :
  Fs.wf fs = true -> fs !! rev c1 = Some IDir ->
  fold_left (Fs.walkStep fs) (repeat ".." k) (Fs.At c1) = Fs.At (drop k c1)
  ∧ fs !! rev (drop k c1) = Some IDir.
Proof.
  intros Hwf. revert c1. induction k as [|k IH]; intros c1 Hd; [now split|].
  cbn [repeat fold_left].
  assert (Hstep : Fs.walkStep fs (Fs.At c1) ".." = Fs.At (tail c1)).
  { unfold Fs.walkStep. now rewrite Hd. }
  assert (Ht : fs !! rev (tail c1) = Some IDir).
  { destruct c1 as [|x c']; [exact Hd|]. cbn [tail rev] in *.
    now apply (wf_parent fs (rev c') x IDir). }
  rewrite Hstep. destruct (IH (tail c1) Ht) as [H1 H2].
  rewrite H1.
  assert (E : drop k (tail c1) = drop (S k) c1).
  { destruct c1 as [|x c']; [|reflexivity]. cbn [tail]. now destruct k. }
  rewrite E in *. now split.
Qed.

(** Walking the normalized segments of a path, then one more plain name,
    ends where the path resolves, one level down. *)
Lemma walk_normalized fs c1 names k v :
  Fs.wf fs = true -> forallb Fs.plainName names = true -> Fs.plainName v = true ->
  fs !! rev c1 = Some IDir -> fs !! rev (names ++ drop k c1) = Some IDir ->
  fold_left (Fs.walkStep fs) (rev (names ++ repeat ".." k) ++ [v]) (Fs.At c1)
  = Fs.At (v :: names ++ drop k c1).
Proof.
  intros Hwf Hn Hv Hc1 Hcur.
  rewrite rev_app_distr, rev_repeat, !fold_left_app.
  destruct (walk_parents fs c1 k Hwf Hc1) as [-> Hd].
  rewrite walk_plain.
  - rewrite rev_involutive. cbn [fold_left]. now apply walkStep_plain.
  - rewrite forallb_forall in *. intros x Hx. apply Hn. now apply in_rev.
  - intros l1 l2 E Hl2. apply (wf_ancestor fs _ l2 Hwf Hl2).
    rewrite <- app_assoc, <- E, <- rev_app_distr. eauto.
Qed.

Lemma resolve_ne fs cwd p cur : Fs.resolve fs cwd p = Fs.At cur -> p ≠ "".
Proof. intros H ->. discriminate. Qed.

(** The entry [v] of a directory, reached through [path.join]. *)
Lemma resolve_join_child fs cwd dir cur v :
  Fs.wf fs = true -> Fs.resolve fs cwd dir = Fs.At cur ->
  fs !! rev cur = Some IDir -> Fs.plainName v = true ->
  Fs.resolve fs cwd (Path.join dir v) = Fs.At (v :: cur).
Proof.
  intros Hwf Hres Hcur Hv. pose proof (resolve_ne _ _ _ _ Hres) as Hdir.
  unfold Fs.resolve in *.
  rewrite bool_decide_eq_false_2 in Hres by exact Hdir.
  rewrite bool_decide_eq_false_2 by now apply join1_ne.
  rewrite isAbsolute_join1, split_join1 by assumption.
  assert (Hsh0 : ∀ b, normShape b ([] ++ repeat ".." 0) [] 0) by (intros b; now repeat split).
  unfold normStack.
  destruct (Path.isAbsolute dir) eqn:Habs; cbn [negb].
  - change cur with ([] ++ drop 0 cur) in Hres at 1.
    destruct (walk_norm_rel fs false [] (Js.split "/" dir) [] 0 cur
                ltac:(auto) (split_all_noSlash dir) (Hsh0 false) Hres)
      as (names & k & Hsh & HE & ->).
    cbn [app repeat] in HE. rewrite HE.
    cbn [app fold_left]. rewrite walkStep_empty by (now apply wf_root).
    destruct Hsh as (Hn & _ & Hk).
    apply walk_normalized; auto. now apply wf_root.
  - rewrite fold_left_app in Hres. cbn [app]. rewrite fold_left_app.
    destruct (fold_left (Fs.walkStep fs) (Js.split "/" cwd) (Fs.At [])) as [c1|code];
      [|now rewrite fold_walk_Lost in Hres].
    assert (Hc1 : fs !! rev c1 = Some IDir).
    { apply (walk_first_dir fs (Js.split "/" dir) c1 cur); [|exact Hres].
      apply splitFrom_ne. }
    change c1 with ([] ++ drop 0 c1) in Hres at 1.
    destruct (walk_norm_rel fs true c1 (Js.split "/" dir) [] 0 cur
                ltac:(discriminate) (split_all_noSlash dir) (Hsh0 true) Hres)
      as (names & k & Hsh & HE & ->).
    cbn [app repeat] in HE. rewrite HE.
    destruct Hsh as (Hn & _ & Hk).
    now apply walk_normalized.
Qed.

Lemma stat_At fs cwd syscall p c i :
  Fs.stat fs cwd syscall p = Ok (c, i) ->
  ∃ cur, Fs.resolve fs cwd p = Fs.At cur ∧ c = rev cur ∧ fs !! c = Some i.
Proof.
  unfold Fs.stat. destruct (Fs.resolve fs cwd p) as [cur|code]; [|discriminate].
  destruct (fs !! rev cur) as [j|] eqn:E; [|discriminate].
  intros [= <- <-]. eauto.
Qed.

(** The result of [stat] does not depend on the system call named in its
    errors. *)
Lemma stat_syscall fs cwd s1 s2 p c i :
  Fs.stat fs cwd s1 p = Ok (c, i) -> Fs.stat fs cwd s2 p = Ok (c, i).
Proof.
  intros H. apply stat_At in H as (cur & Hr & -> & Hi).
  unfold Fs.stat. now rewrite Hr, Hi.
Qed.

Lemma stat_join_child fs cwd s1 s2 dir c v i :
  Fs.wf fs = true -> Fs.stat fs cwd s1 dir = Ok (c, IDir) ->
  fs !! (c ++ [v]) = Some i ->
  Fs.stat fs cwd s2 (Path.join dir v) = Ok (c ++ [v], i).
Proof.
  intros Hwf Hs Hi. apply stat_At in Hs as (cur & Hr & -> & Hc).
  assert (Hv : Fs.plainName v = true) by (apply (entry_plain fs (rev cur) v Hwf); eauto).
  unfold Fs.stat. rewrite (resolve_join_child fs cwd dir cur v Hwf Hr Hc Hv).
  cbn [rev]. now rewrite Hi.
Qed.

(** ** Install cache: listInstalled *)

Lemma forEach_app {A} (f : list DistEntry -> A -> Result (list DistEntry))
    (g : A -> list DistEntry) (l : list A) (acc : list DistEntry) :
  (∀ x entries, x ∈ l -> f entries x = Ok (entries ++ g x)) ->
  forEach l f acc = Ok (acc ++ flat_map g l).
Proof.
  revert acc. induction l as [|x l IH]; intros acc H.
  - cbn. now rewrite app_nil_r.
  - cbn [forEach flat_map]. rewrite H by constructor. cbn [mbind Result_bind].
    rewrite IH; [now rewrite app_assoc|].
    intros y entries Hy. apply H. now constructor.
Qed.

Lemma push_binaries (abs version : string) (bins : list string) (entries : list DistEntry) :
  fold_left (fun entries binaryName =>
               if negb (Js.startsWith binaryName "buf-") then entries
               else entries ++ [ {| Dist.name := version +:+ "/" +:+ binaryName;
                                    Dist.version := version;
                                    Dist.bufPath := Path.join abs binaryName |} ])
    bins entries
  = entries ++
    map (fun binaryName => {| Dist.name := version +:+ "/" +:+ binaryName;
                              Dist.version := version;
                              Dist.bufPath := Path.join abs binaryName |})
      (List.filter (fun b => Js.startsWith b "buf-") bins).
Proof.
  revert entries. induction bins as [|b bins IH]; intros entries.
  - cbn. now rewrite app_nil_r.
  - cbn [fold_left List.filter]. rewrite IH.
    destruct (Js.startsWith b "buf-"); cbn [negb map]; [|reflexivity].
    now rewrite <- app_assoc.
Qed.

Section ListInstalled.

Variable host : Host.
Variable fs : Fs.FileSystem.
Variable installDir : string.
Variable root : list string.
Hypothesis Hwf : Fs.wf fs = true.
Hypothesis Hroot : Fs.stat fs (cwd host) "access" installDir = Ok (root, IDir).

Lemma listVersion_eq entries v :
  v ∈ Fs.children fs root ->
  listVersion host fs installDir entries v
  = Ok (entries ++ versionEntries fs installDir root v).
Proof.
  intros Hv. apply elem_of_children in Hv as [i Hi].
  unfold listVersion, versionEntries, mkEntry. rewrite Hi.
  unfold Fs.lstatSync, Fs.readdirSync.
  rewrite !(stat_join_child fs _ _ _ _ _ _ i Hwf Hroot Hi). cbn [mbind Result_bind snd].
  destruct i as [m d|]; cbn [isDirectory negb mret Result_ret mbind Result_bind].
  - now rewrite app_nil_r.
  - now rewrite push_binaries.
Qed.

(** The listing of a directory, in full. *)
Lemma listInstalled_eq :
  listInstalled host fs installDir
  = Ok (flat_map (versionEntries fs installDir root) (Fs.children fs root)).
Proof.
  unfold listInstalled, Fs.existsSync, Fs.readdirSync.
  rewrite Hroot, (stat_syscall _ _ _ "scandir" _ _ _ Hroot). cbn [negb mbind Result_bind].
  rewrite (forEach_app _ (versionEntries fs installDir root)); [reflexivity|].
  intros v entries Hv. now apply listVersion_eq.
Qed.

Lemma elem_of_listInstalled l e :
  listInstalled host fs installDir = Ok l ->
  e ∈ l <->
  ∃ v b, fs !! (root ++ [v]) = Some IDir ∧ is_Some (fs !! (root ++ [v; b])) ∧
         Js.startsWith b "buf-" = true ∧ e = mkEntry installDir v b.
Proof.
  rewrite listInstalled_eq. intros [= <-].
  rewrite list_elem_of_In, in_flat_map. split.
  - intros (v & Hv & He). unfold versionEntries in He.
    destruct (fs !! (root ++ [v])) as [[m d|]|] eqn:Ev; try now destruct He.
    apply in_map_iff in He as (b & <- & Hb).
    apply List.filter_In in Hb as [Hb Hpre].
    apply list_elem_of_In, elem_of_children in Hb.
    rewrite <- app_assoc in Hb. exists v, b. auto.
  - intros (v & b & Hv & Hb & Hpre & ->). exists v. split.
    + apply list_elem_of_In, elem_of_children. eauto.
    + unfold versionEntries. rewrite Hv. apply in_map, List.filter_In. split; [|exact Hpre].
      apply list_elem_of_In, elem_of_children. now rewrite <- app_assoc.
Qed.

End ListInstalled.

Lemma mkEntry_inj d v b v' b' : mkEntry d v b = mkEntry d v' b' -> v = v' ∧ b = b'.
Proof.
  unfold mkEntry. intros [= Hn Hv _]. subst v'. split; [reflexivity|].
  apply (inj (String.append v)) in Hn. now injection Hn.
Qed.

Section CacheClaims.

Variable host : Host.
Variable fs : Fs.FileSystem.

(** C7. When the install directory does not exist the listing is empty and
    nothing is thrown.  When it denotes a directory of a well-formed file
    system, the listing succeeds; an entry of it that is not a directory
    contributes nothing; and an entry [b] of a version directory [v] is listed
    if and only if its name begins with "buf-". *)
Theorem listInstalled_contents (installDir : string) :
  (Fs.existsSync fs (cwd host) installDir = false ->
     listInstalled host fs installDir = Ok [])
  ∧ (∀ root, Fs.wf fs = true ->
       Fs.stat fs (cwd host) "access" installDir = Ok (root, IDir) ->
       ∃ l, listInstalled host fs installDir = Ok l ∧
         (∀ v i e, fs !! (root ++ [v]) = Some i -> isDirectory i = false ->
            e ∈ l -> Dist.version e ≠ v)
         ∧ (∀ v b, fs !! (root ++ [v]) = Some IDir -> is_Some (fs !! (root ++ [v; b])) ->
              (mkEntry installDir v b ∈ l <-> Js.startsWith b "buf-" = true))).
Proof.
  split.
  - intros H. unfold listInstalled. now rewrite H.
  - intros root Hwf Hroot.
    pose proof (listInstalled_eq host fs installDir root Hwf Hroot) as Hl.
    eexists. split; [exact Hl|].
    pose proof (fun e => elem_of_listInstalled host fs installDir root Hwf Hroot _ e Hl)
      as Hin.
    split.
    + intros v i e Hv Hi He. apply Hin in He as (v' & b' & Hv' & _ & _ & ->).
      cbn. intros ->. rewrite Hv in Hv'. injection Hv' as ->. discriminate.
    + intros v b Hv Hb. rewrite Hin. split.
      * intros (v' & b' & _ & _ & Hpre & E). apply mkEntry_inj in E as [-> ->].
        exact Hpre.
      * intros Hpre. exists v, b. auto.
Qed.

(** C10. Every entry listed for an install directory that denotes a
    directory [root] of a well-formed file system has as version the name of
    a directory directly below [root], as name that version, a separator and
    the name [b] of an entry of that directory beginning with "buf-", and as
    bufPath the join of the install directory with the name, which denotes
    that entry; the version is the first of the two segments of the name. *)
Theorem listInstalled_entry_shape (installDir : string) (root : list string)
    (l : list DistEntry) (e : DistEntry) :
  Fs.wf fs = true ->
  Fs.stat fs (cwd host) "access" installDir = Ok (root, IDir) ->
  listInstalled host fs installDir = Ok l -> e ∈ l ->
  fs !! (root ++ [Dist.version e]) = Some IDir
  ∧ ∃ b, Js.startsWith b "buf-" = true
       ∧ Dist.name e = Dist.version e +:+ "/" +:+ b
       ∧ Js.split "/" (Dist.name e) = [Dist.version e; b]
       ∧ Dist.bufPath e = Path.join installDir (Dist.name e)
       ∧ ∃ i, fs !! (root ++ [Dist.version e; b]) = Some i
            ∧ Fs.stat fs (cwd host) "access" (Dist.bufPath e)
              = Ok (root ++ [Dist.version e; b], i).
Proof.
  intros Hwf Hroot Hl He.
  apply (elem_of_listInstalled host fs installDir root Hwf Hroot _ e Hl) in He
    as (v & b & Hv & Hb & Hpre & ->).
  cbn [mkEntry Dist.version Dist.name Dist.bufPath].
  assert (Hvp : Fs.plainName v = true) by (apply (entry_plain fs root v Hwf); eauto).
  assert (Hbp : Fs.plainName b = true).
  { apply (entry_plain fs (root ++ [v]) b Hwf). now rewrite <- app_assoc. }
  assert (Hdir : installDir ≠ "").
  { apply stat_At in Hroot as (cur & Hr & _). now apply resolve_ne in Hr. }
  split; [exact Hv|]. exists b. split; [exact Hpre|]. split; [reflexivity|].
  split.
  { rewrite split_slash_app, !split_noSlash by now apply plainName_noSlash.
    reflexivity. }
  split; [now apply join_join|].
  destruct Hb as [i Hi]. exists i. split; [exact Hi|].
  pose proof (stat_join_child fs (cwd host) "access" "access" installDir root v IDir
                Hwf Hroot Hv) as Hsv.
  change (root ++ [v; b]) with (root ++ [v] ++ [b]) in Hi |- *.
  rewrite app_assoc in Hi |- *.
  exact (stat_join_child fs (cwd host) "access" "access" _ _ b i Hwf Hsv Hi).
Qed.

End CacheClaims.

Lemma append_slash_inj v1 b1 v2 b2 :
  Fs.noSlash v1 = true -> Fs.noSlash v2 = true ->
  v1 +:+ "/" +:+ b1 = v2 +:+ "/" +:+ b2 -> v1 = v2 ∧ b1 = b2.
Proof.
  intros H1 H2 E. pose proof (f_equal (Js.split "/") E) as Es.
  rewrite !split_slash_app, (split_noSlash v1), (split_noSlash v2) in Es by assumption.
  cbn [app] in Es. injection Es as -> _. split; [reflexivity|].
  apply (inj (String.append v2)) in E. now injection E.
Qed.

(** A listing with an entry is the listing of a directory. *)
Lemma listInstalled_nonempty host fs installDir l e :
  listInstalled host fs installDir = Ok l -> e ∈ l ->
  ∃ root, Fs.stat fs (cwd host) "access" installDir = Ok (root, IDir).
Proof.
  intros Hl He. unfold listInstalled, Fs.existsSync, Fs.readdirSync in Hl.
  destruct (Fs.stat fs (cwd host) "access" installDir) as [[root i]|err] eqn:E.
  - rewrite (stat_syscall _ _ _ "scandir" _ _ _ E) in Hl.
    destruct i as [m d|]; [discriminate | eauto].
  - cbn in Hl. injection Hl as <-. inversion He.
Qed.

(** In the listing of a well-formed file system the name determines the
    entry. *)
Lemma listInstalled_name_inj host fs installDir l e1 e2 :
  Fs.wf fs = true -> listInstalled host fs installDir = Ok l ->
  e1 ∈ l -> e2 ∈ l -> Dist.name e1 = Dist.name e2 -> e1 = e2.
Proof.
  intros Hwf Hl H1 H2 Hn.
  destruct (listInstalled_nonempty host fs installDir l e1 Hl H1) as [root Hroot].
  apply (elem_of_listInstalled host fs installDir root Hwf Hroot _ _ Hl) in H1
    as (v1 & b1 & Hv1 & Hb1 & _ & ->).
  apply (elem_of_listInstalled host fs installDir root Hwf Hroot _ _ Hl) in H2
    as (v2 & b2 & Hv2 & Hb2 & _ & ->).
  cbn in Hn. apply append_slash_inj in Hn as [-> ->]; [reflexivity|..].
  - apply plainName_noSlash, (entry_plain fs root v1 Hwf). eauto.
  - apply plainName_noSlash, (entry_plain fs root v2 Hwf). eauto.
Qed.

Lemma standardInstallDirectory_abs host dir :
  module_dirname host = absPath dir -> forallb Fs.plainName dir = true ->
  standardInstallDirectory host = absPath (dir ++ ["installed"]).
Proof.
  intros E Hp. unfold standardInstallDirectory. rewrite E.
  now apply join_absPath.
Qed.

Section CacheHit.

Variable host : Host.
Variable net : nat -> string -> NetReply.

(** C2. For a version other than "latest": when the listing of the install
    directory holds an entry named by the release name of the host and that
    version, ensureInstalled returns an entry of the listing with that name
    and leaves the world as it was, so no request is issued, nothing is
    written and nothing is logged.  In a well-formed file system the name
    determines the entry, and the entry returned is that very entry. *)
Theorem ensureInstalled_cache_hit (v r : string) (w : World)
    (l : list DistEntry) (e : DistEntry) :
  v ≠ "latest" ->
  makeReleaseName {| platform := os_platform host; arch := os_arch host; version := v |}
    = Ok r ->
  listInstalled host (w_fs w) (standardInstallDirectory host) = Ok l ->
  e ∈ l -> Dist.name e = r ->
  ∃ e', ensureInstalled host net (Some v) w = (Returned e', w)
        ∧ e' ∈ l ∧ Dist.name e' = r
        ∧ (Fs.wf (w_fs w) = true -> e' = e).
Proof.
  intros Hv Hr Hl He Hn.
  destruct (findByName r l) as [e'|] eqn:Hfind.
  - exists e'. pose proof (findByName_some _ _ _ Hfind) as [He' Hn'].
    split; [|split; [exact He'|split; [exact Hn'|]]].
    + unfold ensureInstalled, resolveVersion.
      rewrite bool_decide_eq_false_2 by exact Hv.
      rewrite bind_eq. cbn [mret M_ret]. unfold installVersion.
      rewrite Hr. cbn [sync]. rewrite bind_eq. cbn [mret M_ret].
      rewrite bind_eq. unfold getFs at 1. rewrite bind_eq, Hl. cbn [sync mret M_ret].
      now rewrite Hfind.
    + intros Hwf.
      apply (listInstalled_name_inj host (w_fs w) (standardInstallDirectory host) l);
        auto. congruence.
  - exfalso. apply list_elem_of_In in He.
    pose proof (List.find_none _ _ Hfind e He) as Hf. cbn in Hf.
    apply bool_decide_eq_false in Hf. contradiction.
Qed.

End CacheHit.

(** ** Install cache: the write path *)

Section WritePath.

Variable host : Host.

Lemma existsSync_eq p w :
  existsSync host p w = (Returned (Fs.existsSync (w_fs w) (cwd host) p), w).
Proof. reflexivity. Qed.

Lemma lstatSync_eq p w :
  lstatSync host p w =
    match Fs.lstatSync (w_fs w) (cwd host) p with
    | Ok i => (Returned i, w)
    | Thrown e => (Raised e, w)
    end.
Proof.
  unfold lstatSync. rewrite bind_eq. cbn.
  now destruct (Fs.lstatSync (w_fs w) (cwd host) p).
Qed.

Lemma mkdirSync_eq p w :
  mkdirSync host p w =
    match Fs.mkdirSync (w_fs w) (cwd host) p with
    | Ok fs' => (Returned tt, {| w_fs := fs'; w_log := w_log w ++ [EvMkdir p] |})
    | Thrown e => (Raised e, w)
    end.
Proof.
  unfold mkdirSync. rewrite bind_eq. cbn.
  now destruct (Fs.mkdirSync (w_fs w) (cwd host) p).
Qed.

Lemma writeFileSync_eq p data mode w :
  writeFileSync host p data mode w =
    match Fs.writeFileSync (w_fs w) (cwd host) p data mode with
    | Ok fs' => (Returned tt, {| w_fs := fs'; w_log := w_log w ++ [EvWriteFile p data] |})
    | Thrown e => (Raised e, w)
    end.
Proof.
  unfold writeFileSync. rewrite bind_eq. cbn.
  now destruct (Fs.writeFileSync (w_fs w) (cwd host) p data mode).
Qed.

(** One turn of the loop of mkDirRecursive, at the path of the entry [x] of
    the directory at [c]: if it returns, that entry is a directory. *)
Lemma mkDirStep_child dirname parts i c x w w' :
  Fs.wf (w_fs w) = true -> w_fs w !! c = Some IDir -> Fs.plainName x = true ->
  Js.join Path.sep (take i parts) = absPath (c ++ [x]) ->
  mkDirStep host dirname parts i w = (Returned tt, w') ->
  Fs.wf (w_fs w') = true ∧ w_fs w' !! (c ++ [x]) = Some IDir.
Proof.
  intros Hwf Hc Hx Hp. unfold mkDirStep. rewrite Hp, bind_eq, existsSync_eq.
  unfold Fs.existsSync.
  rewrite (stat_absPath_child _ _ _ c x Hwf Hc Hx).
  destruct (w_fs w !! (c ++ [x])) as [i0|] eqn:Hi.
  - rewrite bind_eq, lstatSync_eq. unfold Fs.lstatSync.
    rewrite (stat_absPath_child _ _ _ c x Hwf Hc Hx), Hi. cbn [snd].
    destruct i0 as [m d|]; cbn [isDirectory negb]; [discriminate|].
    intros [= <-]. auto.
  - rewrite mkdirSync_eq. unfold Fs.mkdirSync.
    rewrite resolve_absPath.
    + rewrite rev_involutive, Hi. intros [= <-]. cbn [w_fs]. split.
      * apply (wf_insert (w_fs w) c x IDir Hwf Hc Hx). rewrite Hi. discriminate.
      * apply (lookup_insert_eq (w_fs w)).
    + exact Hwf.
    + apply forallb_plain_app. split; [exact (wf_plain (w_fs w) c IDir Hwf Hc)|].
      cbn. now rewrite Hx.
    + right. now rewrite removelast_last.
Qed.

Lemma take_parts j x (D : list string) :
  D !! j = Some x ->
  Js.join Path.sep (take (2 + j) ("" :: D)) = absPath (take j D ++ [x]).
Proof.
  intros Hj. cbn [Nat.add take]. change (take (S j) D) with (take (S j) D).
  rewrite (take_S_r D j x Hj).
  rewrite join_cons_ne by (now destruct (take j D)). reflexivity.
Qed.

Lemma mkDir_loop dirname (D : list string) n j w w' :
  j + n = length D -> forallb Fs.plainName D = true ->
  Fs.wf (w_fs w) = true -> w_fs w !! take j D = Some IDir ->
  forM_ (seq (2 + j) n) (mkDirStep host dirname ("" :: D)) w = (Returned tt, w') ->
  Fs.wf (w_fs w') = true ∧ w_fs w' !! D = Some IDir.
Proof.
  revert j w. induction n as [|n IH]; intros j w Hlen Hp Hwf Hj H.
  - cbn in H. injection H as <-. rewrite take_ge in Hj by lia. auto.
  - cbn [seq forM_] in H. apply bind_returned in H as ([] & w1 & Hstep & H).
    destruct (D !! j) as [x|] eqn:Hx; [|apply lookup_ge_None in Hx; lia].
    assert (Hxp : Fs.plainName x = true).
    { rewrite forallb_forall in Hp. apply Hp, list_elem_of_In.
      now apply list_elem_of_lookup_2 in Hx. }
    apply (mkDirStep_child dirname _ _ (take j D) x w w1 Hwf Hj Hxp
             (take_parts j x D Hx)) in Hstep as [Hwf1 Hd1].
    rewrite <- (take_S_r D j x Hx) in Hd1.
    apply (IH (S j) w1); auto. lia.
Qed.

Lemma mkDirRecursive_absPath (D : list string) w w' :
  D ≠ [] -> forallb Fs.plainName D = true -> Fs.wf (w_fs w) = true ->
  mkDirRecursive host (absPath D) w = (Returned tt, w') ->
  Fs.wf (w_fs w') = true ∧ w_fs w' !! D = Some IDir.
Proof.
  intros Hne Hp Hwf. unfold mkDirRecursive.
  rewrite isAbsolute_absPath'. cbn [negb].
  rewrite normalize_absPath by exact Hp.
  change Path.sep with "/". rewrite split_absPath by exact Hp.
  destruct D as [|x l] eqn:ED; [congruence|]. rewrite <- ED in *.
  replace (length ("" :: D) - 1) with (length D) by (cbn; lia).
  intros H. apply (mkDir_loop (absPath D) D (length D) 0 w w'); auto.
  cbn. now apply wf_root.
Qed.

(** The write path followed by a listing, for a single-segment version. *)
Lemma saveRelease_listed_in dir v b data w w' :
  Fs.wf (w_fs w) = true ->
  module_dirname host = absPath dir -> forallb Fs.plainName dir = true ->
  Fs.plainName v = true -> Fs.plainName b = true ->
  Js.startsWith b "buf-" = true ->
  saveRelease host (v +:+ "/" +:+ b) data w = (Returned tt, w') ->
  ∃ l, listInstalled host (w_fs w') (standardInstallDirectory host) = Ok l ∧
       mkEntry (standardInstallDirectory host) v b ∈ l.
Proof.
  intros Hwf Hdir Hdp Hv Hb Hpre H.
  set (root := dir ++ ["installed"]).
  assert (Hrp : forallb Fs.plainName root = true)
    by (apply forallb_plain_app; split; [exact Hdp | reflexivity]).
  assert (Hrvp : forallb Fs.plainName (root ++ [v]) = true)
    by (apply forallb_plain_app; split; [exact Hrp | cbn; now rewrite Hv]).
  unfold saveRelease in H.
  rewrite (standardInstallDirectory_abs host dir Hdir Hdp) in *. fold root in H |- *.
  rewrite join_absPath2 in H by assumption.
  change (root ++ [v; b]) with (root ++ [v] ++ [b]) in H.
  rewrite app_assoc, dirname_absPath in H by assumption.
  apply bind_returned in H as ([] & w1 & Hmk & Hwr).
  apply mkDirRecursive_absPath in Hmk as [Hwf1 Hd1];
    [|now destruct root|exact Hrvp|exact Hwf].
  rewrite writeFileSync_eq in Hwr. unfold Fs.writeFileSync in Hwr.
  rewrite resolve_absPath in Hwr;
    [|exact Hwf1
     |apply forallb_plain_app; split; [exact Hrvp | cbn; now rewrite Hb]
     |right; now rewrite removelast_last].
  rewrite rev_involutive in Hwr.
  assert (Hfs : ∃ i, w_fs w' = <[(root ++ [v]) ++ [b] := i]> (w_fs w1) ∧
                     w_fs w1 !! ((root ++ [v]) ++ [b]) ≠ Some IDir).
  { destruct (w_fs w1 !! ((root ++ [v]) ++ [b])) as [[m d|]|] eqn:E;
      [|discriminate|]; injection Hwr as <-; cbn [w_fs]; eauto. }
  destruct Hfs as (i & Hfs & Hold).
  assert (Hwf' : Fs.wf (w_fs w') = true) by (rewrite Hfs; now apply wf_insert).
  assert (Hvd : w_fs w' !! (root ++ [v]) = Some IDir).
  { rewrite Hfs, lookup_insert_ne; [exact Hd1|].
    intros E. apply (f_equal (@length _)) in E. rewrite length_app in E. cbn in E. lia. }
  assert (Hbf : w_fs w' !! ((root ++ [v]) ++ [b]) = Some i)
    by (rewrite Hfs; apply lookup_insert_eq).
  assert (Hroot : w_fs w' !! root = Some IDir) by (now apply (wf_parent _ root v IDir)).
  pose proof (stat_absPath _ (cwd host) "access" root IDir Hwf' Hroot) as Hstat.
  eexists. split; [apply (listInstalled_eq host _ _ root Hwf' Hstat)|].
  apply (elem_of_listInstalled host _ _ root Hwf' Hstat _ _
           (listInstalled_eq host _ _ root Hwf' Hstat)).
  exists v, b. rewrite <- app_assoc in Hbf. cbn [app] in Hbf. eauto.
Qed.

End WritePath.

Section RoundTrip.

Variable host : Host.

(** C3 as amended.  For a release name made of a version that is a single
    plain path segment and a binary name that is a plain segment beginning
    with "buf-": in a well-formed file system, with the module directory an
    absolute normalized path, when the write path returns, the next listing
    of the install directory holds an entry with that release name. *)
Theorem saveRelease_roundtrip (dir : list string) (v b : string)
    (data : list Byte.byte) (w w' : World) :
  Fs.wf (w_fs w) = true ->
  module_dirname host = absPath dir -> forallb Fs.plainName dir = true ->
  Fs.plainName v = true -> Fs.plainName b = true ->
  Js.startsWith b "buf-" = true ->
  saveRelease host (v +:+ "/" +:+ b) data w = (Returned tt, w') ->
  ∃ l e, listInstalled host (w_fs w') (standardInstallDirectory host) = Ok l ∧
         e ∈ l ∧ Dist.name e = v +:+ "/" +:+ b.
Proof.
  intros Hwf Hdir Hdp Hv Hb Hpre H.
  destruct (saveRelease_listed_in host dir v b data w w' Hwf Hdir Hdp Hv Hb Hpre H)
    as (l & Hl & Hin).
  exists l, (mkEntry (standardInstallDirectory host) v b). auto.
Qed.

End RoundTrip.

(** C3 as stated fails: the release name of the version "1.6.0/rc" is written
    two directories below the install directory, where the listing does not
    look. *)
Lemma saveRelease_slash_version_unlisted :
  makeReleaseName {| platform := "linux"; arch := "x64"; version := "1.6.0/rc" |}
    = Ok "1.6.0/rc/buf-Linux-x86_64"
  ∧ ∃ w', saveRelease Sample.linuxX64 "1.6.0/rc/buf-Linux-x86_64" [Byte.x62]
            Sample.bareWorld = (Returned tt, w')
        ∧ listInstalled Sample.linuxX64 (w_fs w')
            (standardInstallDirectory Sample.linuxX64) = Ok [].
Proof.
  split; [reflexivity|]. eexists. split; [vm_compute; reflexivity|].
  vm_compute. reflexivity.
Qed.

Lemma saveRelease_roundtrip_witness :
  ∃ l e, listInstalled Sample.linuxX64
           (w_fs (saveRelease Sample.linuxX64 ("1.6.0" +:+ "/" +:+ "buf-Linux-x86_64")
                    [Byte.x62] Sample.bareWorld).2)
           (standardInstallDirectory Sample.linuxX64) = Ok l ∧
         e ∈ l ∧ Dist.name e = "1.6.0" +:+ "/" +:+ "buf-Linux-x86_64".
Proof.
  apply (saveRelease_roundtrip Sample.linuxX64 ["opt"; "bufbuild"] "1.6.0"
           "buf-Linux-x86_64" [Byte.x62] Sample.bareWorld);
    vm_compute; reflexivity.
Defined.

(** ** The properties at sample inputs *)

Lemma ensureInstalled_cache_hit_witness :
  ∃ e', ensureInstalled Sample.darwinArm (Sample.always Sample.notFound) (Some "1.6.0")
          Sample.cachedWorld = (Returned e', Sample.cachedWorld)
        ∧ e' ∈ [Sample.cachedEntry] ∧ Dist.name e' = "1.6.0/buf-Darwin-arm64"
        ∧ (Fs.wf (w_fs Sample.cachedWorld) = true -> e' = Sample.cachedEntry).
Proof.
  apply (ensureInstalled_cache_hit Sample.darwinArm (Sample.always Sample.notFound)
           "1.6.0" "1.6.0/buf-Darwin-arm64" Sample.cachedWorld
           [Sample.cachedEntry] Sample.cachedEntry).
  - discriminate.
  - reflexivity.
  - vm_compute. reflexivity.
  - constructor.
  - reflexivity.
Defined.

Lemma resolveVersion_contract_witness :
  ensureInstalled Sample.darwinArm Sample.latestIs150 (Some "1.6.0") Sample.cachedWorld
    = installVersion Sample.darwinArm Sample.latestIs150 "1.6.0" Sample.cachedWorld
  ∧ ensureInstalled Sample.darwinArm Sample.latestIs150 None Sample.cachedWorld
    = installVersion Sample.darwinArm Sample.latestIs150 "1.50.0"
        (logged Sample.cachedWorld [EvHttpGet latestUrl])
  ∧ ensureInstalled Sample.darwinArm (Sample.always Sample.notFound) None Sample.bareWorld
    = (Raised (Error ("bufbuild failed to retrieve latest buf version number: "
                      +:+ "Error: " +:+ "HTTP 404 for " +:+ latestUrl)),
       logged Sample.bareWorld [EvHttpGet latestUrl])
  ∧ ensureInstalled Sample.darwinArm (Sample.always Sample.notModified) None
      Sample.bareWorld
    = (Uncaught (AssertionError "location && location.length > 0"),
       logged Sample.bareWorld [EvHttpGet latestUrl]).
Proof.
  split; [|split; [|split]].
  - destruct (resolveVersion_contract Sample.darwinArm Sample.latestIs150
                (Some "1.6.0") Sample.cachedWorld) as [H _].
    apply (H "1.6.0"); [reflexivity | discriminate].
  - destruct (resolveVersion_contract Sample.darwinArm Sample.latestIs150
                None Sample.cachedWorld) as [_ H].
    destruct (H (or_introl eq_refl)) as (Hret & _).
    destruct (Hret (Sample.redirectTo "https://github.com/bufbuild/buf/releases/tag/v1.50.0")
                "https://github.com/bufbuild/buf/releases/tag/v1.50.0"
                eq_refl eq_refl eq_refl ltac:(discriminate)) as (_ & E & _).
    exact E.
  - destruct (resolveVersion_contract Sample.darwinArm (Sample.always Sample.notFound)
                None Sample.bareWorld) as [_ H].
    destruct (H (or_introl eq_refl)) as (_ & _ & Hrej & _).
    exact (Hrej Sample.notFound eq_refl eq_refl).
  - destruct (resolveVersion_contract Sample.darwinArm (Sample.always Sample.notModified)
                None Sample.bareWorld) as [_ H].
    destruct (H (or_introl eq_refl)) as (_ & _ & _ & Hesc).
    exact (Hesc Sample.notModified eq_refl eq_refl (or_introl eq_refl)).
Defined.

Lemma listInstalled_contents_witness :
  ∃ l, listInstalled Sample.darwinArm Sample.cachedFs "/opt/bufbuild/installed" = Ok l ∧
    (∀ v i e, Sample.cachedFs !! (Sample.installRoot ++ [v]) = Some i ->
       isDirectory i = false -> e ∈ l -> Dist.version e ≠ v)
    ∧ (∀ v b, Sample.cachedFs !! (Sample.installRoot ++ [v]) = Some IDir ->
         is_Some (Sample.cachedFs !! (Sample.installRoot ++ [v; b])) ->
         (mkEntry "/opt/bufbuild/installed" v b ∈ l <-> Js.startsWith b "buf-" = true)).
Proof.
  apply (proj2 (listInstalled_contents Sample.darwinArm Sample.cachedFs
                  "/opt/bufbuild/installed") Sample.installRoot);
    vm_compute; reflexivity.
Defined.

Lemma ensureInstalled_verified_witness :
  ensureInstalled Sample.linuxX64 (Sample.always Sample.okResponse) (Some "1.6.0/rc")
    Sample.bareWorld
  = (Raised (Error ("bufbuild failed to install buf v" +:+ "1.6.0/rc" +:+ ".")),
     (saveRelease Sample.linuxX64 "1.6.0/rc/buf-Linux-x86_64" (body Sample.okResponse)
        (logged Sample.bareWorld
           [EvHttpGet "https://github.com/bufbuild/buf/releases/download/v1.6.0/rc/buf-Linux-x86_64"])).2).
Proof.
  apply (proj1 (ensureInstalled_verified Sample.linuxX64 (Sample.always Sample.okResponse)
                  (Some "1.6.0/rc") Sample.bareWorld)
           "1.6.0/rc" Sample.bareWorld "1.6.0/rc/buf-Linux-x86_64" []
           (body Sample.okResponse)
           (logged Sample.bareWorld
              [EvHttpGet "https://github.com/bufbuild/buf/releases/download/v1.6.0/rc/buf-Linux-x86_64"])
           _ []);
    vm_compute; reflexivity.
Defined.

Lemma findBufInPath_first_candidate_witness :
  findBufInPath Sample.darwinArm Sample.cachedFs (Some "/proj/node_modules/.bin:/usr/bin")
    = Some "/usr/bin/buf".
Proof.
  apply (proj1 (proj2 (proj2 (findBufInPath_first_candidate Sample.darwinArm Sample.cachedFs
                                "/proj/node_modules/.bin:/usr/bin")))
           ["/proj/node_modules/.bin"] "/usr/bin" []).
  - reflexivity.
  - reflexivity.
  - vm_compute. reflexivity.
  - intros d Hd. left. apply list_elem_of_singleton in Hd as ->. reflexivity.
Defined.

Lemma listInstalled_entry_shape_witness :
  Sample.cachedFs !! (Sample.installRoot ++ [Dist.version Sample.cachedEntry]) = Some IDir
  ∧ ∃ b, Js.startsWith b "buf-" = true
       ∧ Dist.name Sample.cachedEntry = Dist.version Sample.cachedEntry +:+ "/" +:+ b
       ∧ Js.split "/" (Dist.name Sample.cachedEntry) = [Dist.version Sample.cachedEntry; b]
       ∧ Dist.bufPath Sample.cachedEntry
         = Path.join "/opt/bufbuild/installed" (Dist.name Sample.cachedEntry)
       ∧ ∃ i, Sample.cachedFs !! (Sample.installRoot ++ [Dist.version Sample.cachedEntry; b])
              = Some i
            ∧ Fs.stat Sample.cachedFs (cwd Sample.darwinArm) "access"
                (Dist.bufPath Sample.cachedEntry)
              = Ok (Sample.installRoot ++ [Dist.version Sample.cachedEntry; b], i).
Proof.
  apply (listInstalled_entry_shape Sample.darwinArm Sample.cachedFs
           "/opt/bufbuild/installed" Sample.installRoot [Sample.cachedEntry]).
  - vm_compute. reflexivity.
  - vm_compute. reflexivity.
  - vm_compute. reflexivity.
  - constructor.
Defined.

(** * Further properties of the launcher *)
(** ** File system: what the writing calls keep *)

(** Where path resolution ends: at an entry, or at a plain name that is
    free in a directory. *)
Lemma walk_end fs segs cur cur' :
  Fs.wf fs = true -> forallb Fs.noSlash segs = true -> segs ≠ [] ->
  fold_left (Fs.walkStep fs) segs (Fs.At cur) = Fs.At cur' ->
  fs !! rev cur' = None ->
  ∃ n c, cur' = n :: c ∧ Fs.plainName n = true ∧ fs !! rev c = Some IDir.
Proof.
  intros Hwf. revert cur. induction segs as [|seg segs IH]; [congruence|].
  intros cur Hs _ H Hnone. cbn [forallb] in Hs. apply andb_true_iff in Hs as [Hseg Hs].
  cbn [fold_left] in H.
  destruct (Fs.walkStep fs (Fs.At cur) seg) as [c1|code] eqn:E;
    [|now rewrite fold_walk_Lost in H].
  destruct (decide (segs = [])) as [->|Hne]; [|now apply (IH c1)].
  cbn in H. injection H as <-.
  apply walkStep_At in E as [Hd ->].
  destruct (bool_decide (seg = "")) eqn:E1; [cbn in Hnone; congruence|].
  destruct (bool_decide (seg = ".")) eqn:E2; [cbn in Hnone; congruence|].
  cbn [orb] in *. apply bool_decide_eq_false in E1, E2.
  destruct (bool_decide (seg = "..")) eqn:E3.
  - exfalso. destruct cur as [|x c]; cbn [tail] in Hnone; [congruence|].
    cbn [rev] in Hd. rewrite (wf_parent fs (rev c) x IDir Hwf Hd) in Hnone. discriminate.
  - apply bool_decide_eq_false in E3. exists seg, cur.
    split; [reflexivity|]. split; [now apply plainName_intro | exact Hd].
Qed.

Lemma resolve_end fs cwd p cur :
  Fs.wf fs = true -> Fs.resolve fs cwd p = Fs.At cur -> fs !! rev cur = None ->
  ∃ n c, cur = n :: c ∧ Fs.plainName n = true ∧ fs !! rev c = Some IDir.
Proof.
  intros Hwf H Hnone. unfold Fs.resolve in H.
  destruct (bool_decide (p = "")); [discriminate|].
  apply (walk_end fs _ [] cur Hwf) in H; auto.
  - destruct (Path.isAbsolute p); [apply split_all_noSlash|].
    rewrite forallb_app, !split_all_noSlash. reflexivity.
  - destruct (Path.isAbsolute p); [apply splitFrom_ne|].
    intros E. apply app_eq_nil in E as [_ E]. now apply splitFrom_ne in E.
Qed.

(** [mkdirSync] adds one directory, at a path that was free. *)
Lemma mkdirSync_ok fs cwd p fs' :
  Fs.mkdirSync fs cwd p = Ok fs' ->
  ∃ k, fs !! k = None ∧ fs' = <[k := IDir]> fs ∧ (Fs.wf fs = true -> Fs.wf fs' = true).
Proof.
  unfold Fs.mkdirSync. destruct (Fs.resolve fs cwd p) as [cur|code] eqn:Hr; [|discriminate].
  destruct (fs !! rev cur) as [i|] eqn:Hk; [discriminate|]. intros [= <-].
  exists (rev cur). split; [exact Hk|]. split; [reflexivity|]. intros Hwf.
  destruct (resolve_end fs cwd p cur Hwf Hr Hk) as (n & c & -> & Hn & Hc).
  cbn [rev] in *. apply wf_insert; auto. rewrite Hk. discriminate.
Qed.

(** [writeFileSync] puts a file with the given data at a path that held no
    directory. *)
Lemma writeFileSync_ok fs cwd p data mode fs' :
  Fs.writeFileSync fs cwd p data mode = Ok fs' ->
  ∃ cur m, Fs.resolve fs cwd p = Fs.At cur ∧ fs !! rev cur ≠ Some IDir ∧
           fs' = <[rev cur := IFile m data]> fs ∧
           (Fs.wf fs = true -> Fs.wf fs' = true).
Proof.
  unfold Fs.writeFileSync.
  destruct (Fs.resolve fs cwd p) as [cur|code] eqn:Hr; [|discriminate].
  intros H.
  assert (Hcase : ∃ m, fs !! rev cur ≠ Some IDir ∧ fs' = <[rev cur := IFile m data]> fs).
  { destruct (fs !! rev cur) as [[m d|]|] eqn:Hk; [|discriminate|];
      injection H as <-; eexists; split; (reflexivity || discriminate). }
  destruct Hcase as (m & Hold & ->). exists cur, m.
  split; [reflexivity|]. split; [exact Hold|]. split; [reflexivity|]. intros Hwf.
  destruct (fs !! rev cur) as [i|] eqn:Hk.
  - destruct (decide (cur = [])) as [->|Hne].
    { cbn in Hk. rewrite (wf_root fs Hwf) in Hk. congruence. }
    assert (Hrev : rev cur ≠ []).
    { intros E. apply (f_equal (@rev _)) in E. rewrite rev_involutive in E. now cbn in E. }
    destruct (exists_last Hrev) as (c & n & E).
    rewrite E in *. apply wf_insert.
    + exact Hwf.
    + now apply (wf_parent fs c n i).
    + apply (entry_plain fs c n Hwf). eauto.
    + now rewrite Hk.
  - destruct (resolve_end fs cwd p cur Hwf Hr Hk) as (n & c & -> & Hn & Hc).
    cbn [rev] in *. apply wf_insert; [exact Hwf | exact Hc | exact Hn |].
    rewrite Hk. discriminate.
Qed.

(** ** mkDirRecursive *)

Lemma addsDirectories_refl w : addsDirectories w w.
Proof.
  split; [auto|]. split; [auto|]. exists []. cbn. now rewrite app_nil_r.
Qed.

Lemma addsDirectories_trans w1 w2 w3 :
  addsDirectories w1 w2 -> addsDirectories w2 w3 -> addsDirectories w1 w3.
Proof.
  intros (A1 & B1 & p1 & L1) (A2 & B2 & p2 & L2). split; [auto|]. split.
  - intros k Hk. destruct (B1 k Hk) as [H|H]; [auto | right; auto].
  - exists (p1 ++ p2). rewrite L2, L1, map_app. now rewrite app_assoc.
Qed.

Section MkDir.

Variable host : Host.

(** One turn of the loop changes nothing or adds one directory, whatever
    it ends with. *)
Lemma mkDirStep_adds dirname parts i w :
  addsDirectories w (mkDirStep host dirname parts i w).2
  ∧ (Fs.wf (w_fs w) = true -> Fs.wf (w_fs (mkDirStep host dirname parts i w).2) = true).
Proof.
  unfold mkDirStep. rewrite bind_eq, existsSync_eq.
  destruct (Fs.existsSync (w_fs w) (cwd host) _).
  - rewrite bind_eq, lstatSync_eq.
    destruct (Fs.lstatSync (w_fs w) (cwd host) _) as [i0|e];
      [destruct (negb (isDirectory i0))|]; cbn; split; auto using addsDirectories_refl.
  - rewrite mkdirSync_eq.
    destruct (Fs.mkdirSync (w_fs w) (cwd host) _) as [fs'|e] eqn:E;
      [|cbn; split; auto using addsDirectories_refl].
    apply mkdirSync_ok in E as (k & Hk & -> & Hwf). cbn [snd w_fs]. split; [|exact Hwf].
    split; [|split].
    + intros k' i' H'. cbn [w_fs]. rewrite lookup_insert_ne; [exact H'|congruence].
    + intros k' H'. cbn [w_fs]. destruct (decide (k = k')) as [->|Hne].
      * right. apply lookup_insert_eq.
      * left. now rewrite lookup_insert_ne.
    + eexists [_]. reflexivity.
Qed.

Lemma forM_adds (f : nat -> M unit) (l : list nat) w :
  (∀ i w, addsDirectories w (f i w).2
          ∧ (Fs.wf (w_fs w) = true -> Fs.wf (w_fs (f i w).2) = true)) ->
  addsDirectories w (forM_ l f w).2
  ∧ (Fs.wf (w_fs w) = true -> Fs.wf (w_fs (forM_ l f w).2) = true).
Proof.
  intros Hf. revert w. induction l as [|i l IH]; intros w.
  - cbn. split; auto using addsDirectories_refl.
  - cbn [forM_]. rewrite bind_eq. destruct (Hf i w) as [Ha Hw].
    destruct (f i w) as [[[]|e|e] w1]; cbn [snd] in *; [|split; auto..].
    destruct (IH w1) as [Ha' Hw']. split; [|auto].
    now apply (addsDirectories_trans w w1).
Qed.

Lemma mkDirRecursive_adds dirname w :
  addsDirectories w (mkDirRecursive host dirname w).2.
Proof. unfold mkDirRecursive. apply forM_adds. apply mkDirStep_adds. Qed.

(** X1. Whatever path it is given and however it ends, mkDirRecursive keeps
    every entry of the file system as it was; what it adds are directories,
    and the only events it logs are the creations of directories. *)
Theorem mkDirRecursive_only_adds (dirname : string) (w : World) :
  addsDirectories w (mkDirRecursive host dirname w).2.
Proof. apply mkDirRecursive_adds. Qed.

Lemma mkDirRecursive_wf dirname w :
  Fs.wf (w_fs w) = true -> Fs.wf (w_fs (mkDirRecursive host dirname w).2) = true.
Proof. unfold mkDirRecursive. apply forM_adds. apply mkDirStep_adds. Qed.

(** One turn of the loop at the entry [x] of the directory at [c]. *)
Lemma mkDirStep_eq dirname parts i c x w :
  Fs.wf (w_fs w) = true -> w_fs w !! c = Some IDir -> Fs.plainName x = true ->
  Js.join Path.sep (take i parts) = absPath (c ++ [x]) ->
  mkDirStep host dirname parts i w =
    match w_fs w !! (c ++ [x]) with
    | Some IDir => (Returned tt, w)
    | Some (IFile _ _) =>
        (Raised (Error ("cannot mkdir '" +:+ dirname +:+ "'. '" +:+
                        absPath (c ++ [x]) +:+ "' is not a directory.")), w)
    | None =>
        (Returned tt,
         {| w_fs := <[c ++ [x] := IDir]> (w_fs w);
            w_log := w_log w ++ [EvMkdir (absPath (c ++ [x]))] |})
    end.
Proof.
  intros Hwf Hc Hx Hp. unfold mkDirStep. rewrite Hp, bind_eq, existsSync_eq.
  unfold Fs.existsSync.
  rewrite (stat_absPath_child _ _ _ c x Hwf Hc Hx).
  destruct (w_fs w !! (c ++ [x])) as [i0|] eqn:Hi.
  - rewrite bind_eq, lstatSync_eq. unfold Fs.lstatSync.
    rewrite (stat_absPath_child _ _ _ c x Hwf Hc Hx), Hi. cbn [snd].
    now destruct i0.
  - rewrite mkdirSync_eq. unfold Fs.mkdirSync.
    rewrite resolve_absPath.
    + now rewrite rev_involutive, Hi.
    + exact Hwf.
    + apply forallb_plain_app. split; [exact (wf_plain (w_fs w) c IDir Hwf Hc)|].
      cbn. now rewrite Hx.
    + right. now rewrite removelast_last.
Qed.

Lemma plain_lookup (D : list string) j x :
  forallb Fs.plainName D = true -> D !! j = Some x -> Fs.plainName x = true.
Proof.
  intros Hp Hx. rewrite forallb_forall in Hp. apply Hp, list_elem_of_In.
  now apply list_elem_of_lookup_2 in Hx.
Qed.

Lemma take_ne_longer {A} (D : list A) i j : i < j -> j <= length D -> take i D ≠ take j D.
Proof.
  intros Hij Hj E. apply (f_equal (@length _)) in E. rewrite !length_take in E. lia.
Qed.

(** The loop from the prefix of length [j], when no longer prefix is a
    file: it returns, and the whole path is a directory. *)
Lemma mkDir_loop_total dirname (D : list string) n j w :
  j + n = length D -> forallb Fs.plainName D = true ->
  Fs.wf (w_fs w) = true -> w_fs w !! take j D = Some IDir ->
  (∀ i, j < i <= length D -> isFile (w_fs w !! take i D) = false) ->
  ∃ w', forM_ (seq (2 + j) n) (mkDirStep host dirname ("" :: D)) w = (Returned tt, w')
        ∧ Fs.wf (w_fs w') = true ∧ w_fs w' !! D = Some IDir.
Proof.
  revert j w. induction n as [|n IH]; intros j w Hlen Hp Hwf Hj Hfiles.
  - exists w. rewrite take_ge in Hj by lia. auto.
  - destruct (D !! j) as [x|] eqn:Hx; [|apply lookup_ge_None in Hx; lia].
    pose proof (plain_lookup D j x Hp Hx) as Hxp.
    cbn [seq forM_]. rewrite bind_eq.
    rewrite (mkDirStep_eq dirname _ _ (take j D) x w Hwf Hj Hxp (take_parts j x D Hx)).
    rewrite <- (take_S_r D j x Hx).
    pose proof (Hfiles (S j) ltac:(lia)) as Hf.
    destruct (w_fs w !! take (S j) D) as [[m d|]|] eqn:E; [discriminate| |].
    + apply (IH (S j) w); auto; [lia|]. intros i Hi. apply Hfiles. lia.
    + apply (IH (S j)); cbn [w_fs]; auto; [lia | | |].
      * rewrite (take_S_r D j x Hx). apply wf_insert; auto.
        rewrite <- (take_S_r D j x Hx), E. discriminate.
      * apply lookup_insert_eq.
      * intros i Hi. rewrite lookup_insert_ne; [apply Hfiles; lia|].
        apply take_ne_longer; lia.
Qed.

Lemma mkDirRecursive_loop (D : list string) w :
  D ≠ [] -> forallb Fs.plainName D = true ->
  mkDirRecursive host (absPath D) w
  = forM_ (seq 2 (length D)) (mkDirStep host (absPath D) ("" :: D)) w.
Proof.
  intros Hne Hp. unfold mkDirRecursive.
  rewrite isAbsolute_absPath'. cbn [negb].
  rewrite normalize_absPath by exact Hp.
  change Path.sep with "/". rewrite split_absPath by exact Hp.
  destruct D as [|x l] eqn:ED; [congruence|]. rewrite <- ED in *.
  now replace (length ("" :: D) - 1) with (length D) by (cbn; lia).
Qed.

(** X2. Given an absolute normalized path none of whose prefixes is a
    file, mkDirRecursive returns, and the path is then a directory of a
    file system that is still well-formed. *)
Theorem mkDirRecursive_creates (D : list string) (w : World) :
  D ≠ [] -> forallb Fs.plainName D = true -> Fs.wf (w_fs w) = true ->
  (∀ i, i <= length D -> isFile (w_fs w !! take i D) = false) ->
  ∃ w', mkDirRecursive host (absPath D) w = (Returned tt, w')
        ∧ w_fs w' !! D = Some IDir ∧ Fs.wf (w_fs w') = true.
Proof.
  intros Hne Hp Hwf Hfiles. rewrite mkDirRecursive_loop by assumption.
  destruct (mkDir_loop_total (absPath D) D (length D) 0 w) as (w' & E & Hwf' & HD); auto.
  - cbn. now apply wf_root.
  - intros i Hi. apply Hfiles. lia.
  - exists w'. auto.
Qed.

(** X3. In a well-formed file system, given an absolute normalized path
    one of whose prefixes is a file, mkDirRecursive throws the error that
    names the path and that prefix, and creates nothing. *)
Theorem mkDirRecursive_collision (D : list string) (j : nat) (w : World) :
  forallb Fs.plainName D = true -> Fs.wf (w_fs w) = true ->
  j < length D -> isFile (w_fs w !! take (S j) D) = true ->
  mkDirRecursive host (absPath D) w
  = (Raised (Error ("cannot mkdir '" +:+ absPath D +:+ "'. '" +:+
                    absPath (take (S j) D) +:+ "' is not a directory.")), w).
Proof.
  intros Hp Hwf Hj Hfile.
  assert (Hne : D ≠ []) by (destruct D; [cbn in Hj; lia | discriminate]).
  rewrite mkDirRecursive_loop by assumption.
  assert (Hpre : ∀ i, i <= j -> w_fs w !! take i D = Some IDir).
  { intros i Hi. destruct (w_fs w !! take (S j) D) as [f|] eqn:E; [|discriminate].
    replace (take i D) with (take i (take (S j) D))
      by (rewrite take_take; f_equal; lia).
    apply (wf_ancestor _ _ (drop i (take (S j) D)) Hwf).
    - intros E'. apply (f_equal (@length _)) in E'.
      rewrite length_drop, length_take in E'. change (@length string []) with 0 in E'. lia.
    - rewrite take_drop. eauto. }
  assert (Hloop : ∀ n j', j' + n = length D -> j' <= j ->
            forM_ (seq (2 + j') n) (mkDirStep host (absPath D) ("" :: D)) w
            = (Raised (Error ("cannot mkdir '" +:+ absPath D +:+ "'. '" +:+
                              absPath (take (S j) D) +:+ "' is not a directory.")), w)).
  { induction n as [|n IH]; intros j' Hlen Hj'; [lia|].
    destruct (D !! j') as [x|] eqn:Hx; [|apply lookup_ge_None in Hx; lia].
    cbn [seq forM_]. rewrite bind_eq.
    rewrite (mkDirStep_eq (absPath D) _ _ (take j' D) x w Hwf (Hpre j' Hj')
               (plain_lookup D j' x Hp Hx) (take_parts j' x D Hx)).
    rewrite <- (take_S_r D j' x Hx).
    destruct (decide (j' = j)) as [->|Hlt].
    - now destruct (w_fs w !! take (S j) D) as [[m d|]|].
    - rewrite (Hpre (S j')) by lia. apply (IH (S j')); lia. }
  apply (Hloop (length D) 0); lia.
Qed.

(** X4. Where the path is already a directory, mkDirRecursive returns and
    leaves the world as it is: nothing is created and nothing is logged. *)
Theorem mkDirRecursive_existing (D : list string) (w : World) :
  D ≠ [] -> Fs.wf (w_fs w) = true -> w_fs w !! D = Some IDir ->
  mkDirRecursive host (absPath D) w = (Returned tt, w).
Proof.
  intros Hne Hwf HD. pose proof (wf_plain _ D IDir Hwf HD) as Hp.
  rewrite mkDirRecursive_loop by assumption.
  assert (Hpre : ∀ i, w_fs w !! take i D = Some IDir).
  { intros i. destruct (decide (length D <= i)) as [Hi|Hi].
    - now rewrite take_ge by lia.
    - apply (wf_ancestor _ (take i D) (drop i D) Hwf).
      + intros E. apply (f_equal (@length _)) in E. rewrite length_drop in E. cbn in E. lia.
      + rewrite take_drop. eauto. }
  assert (Hloop : ∀ n j, j + n = length D ->
            forM_ (seq (2 + j) n) (mkDirStep host (absPath D) ("" :: D)) w = (Returned tt, w)).
  { induction n as [|n IH]; intros j Hlen; [reflexivity|].
    destruct (D !! j) as [x|] eqn:Hx; [|apply lookup_ge_None in Hx; lia].
    cbn [seq forM_]. rewrite bind_eq.
    rewrite (mkDirStep_eq (absPath D) _ _ (take j D) x w Hwf (Hpre j)
               (plain_lookup D j x Hp Hx) (take_parts j x D Hx)).
    rewrite <- (take_S_r D j x Hx), (Hpre (S j)). apply (IH (S j)). lia. }
  apply (Hloop (length D) 0). lia.
Qed.

End MkDir.

(** ** listInstalled: when it throws *)

(** X5. In a well-formed file system listInstalled throws in one case only:
    the install directory is a regular file, and the error is the ENOTDIR of
    the scan.  A missing install directory and a directory both give a
    listing. *)
Theorem listInstalled_throws (host : Host) (fs : Fs.FileSystem) (installDir : string)
    (e : JsError) :
  Fs.wf fs = true ->
  (listInstalled host fs installDir = Thrown e
   <-> e = SystemError "ENOTDIR" "scandir" installDir
       ∧ ∃ c m d, Fs.stat fs (cwd host) "access" installDir = Ok (c, IFile m d)).
Proof.
  intros Hwf.
  destruct (Fs.stat fs (cwd host) "access" installDir) as [[c [m d|]]|err] eqn:E.
  - unfold listInstalled, Fs.existsSync, Fs.readdirSync.
    rewrite E, (stat_syscall _ _ _ "scandir" _ _ _ E). cbn. split.
    + intros [= <-]. eauto 6.
    + now intros [-> _].
  - rewrite (listInstalled_eq host fs installDir c Hwf E). split; [discriminate|].
    intros (_ & c' & m & d & [=]).
  - unfold listInstalled, Fs.existsSync. rewrite E. cbn. split; [discriminate|].
    intros (_ & c' & m & d & [=]).
Qed.

(** ** HTTP fetcher: what every call does *)

Lemma requestCount_logged_gets w urls :
  requestCount (logged w (map EvHttpGet urls)) = requestCount w + length urls.
Proof.
  unfold requestCount, logged; cbn [w_log].
  rewrite List.filter_app, length_app. f_equal.
  induction urls as [|u urls IH]; cbn; [reflexivity | now rewrite IH].
Qed.

Lemma last_cons_default {A} (a d : A) l : List.last (a :: l) d = List.last l a.
Proof.
  revert a d. induction l as [|b l IH]; intros a d; [reflexivity|].
  change (List.last (a :: b :: l) d) with (List.last (b :: l) d).
  rewrite IH. symmetry. apply IH.
Qed.

Lemma assert_ok b s : assert b s = Ok tt -> b = true.
Proof. destruct b; [reflexivity | discriminate]. Qed.

Section HttpBounds.

Variable net : nat -> string -> NetReply.

Lemma httpGetFuel_requests fuel url redirects m w :
  httpGetFuel net fuel url redirects = Ok m ->
  ∃ urls, (m w).2 = logged w (map EvHttpGet (url :: urls))
    ∧ length (url :: urls) + length redirects <= 4
    ∧ ∀ r, (m w).1 = Returned r ->
        statusCode r = 200%N
        ∧ net (requestCount w + length urls) (List.last urls url) = Responded r.
Proof.
  revert url redirects m w. induction fuel as [|fuel IH]; intros url redirects m w H;
    [discriminate|].
  cbn [httpGetFuel] in H.
  destruct (assert (0 <? String.length url) _) as [[]|]; [|discriminate].
  destruct (assert (Js.startsWith url "https://" || _) _) as [[]|]; [|discriminate].
  destruct (assert (length redirects <=? 3) _) as [[]|] eqn:Hlen; [|discriminate].
  apply assert_ok, Nat.leb_le in Hlen.
  cbn [mbind Result_bind] in H. injection H as <-.
  rewrite bind_eq, request_eq.
  assert (Hone : ∀ o : Outcome Response, (∀ r, o ≠ Returned r) ->
            ∃ urls, (o, logged w [EvHttpGet url]).2 = logged w (map EvHttpGet (url :: urls))
              ∧ length (url :: urls) + length redirects <= 4
              ∧ ∀ r, (o, logged w [EvHttpGet url]).1 = Returned r ->
                  statusCode r = 200%N
                  ∧ net (requestCount w + length urls) (List.last urls url) = Responded r).
  { intros o Ho. exists []. cbn. split; [reflexivity|]. split; [lia|].
    intros r Hr. now destruct (Ho r). }
  destruct (net (requestCount w) url) as [response|e] eqn:Hnet;
    [|now apply Hone].
  destruct (isRedirect (statusCode response)) eqn:Hred.
  - destruct (requireLocation response) as [location|e]; [|now apply Hone].
    cbn [mbind Result_bind].
    destruct (httpGetFuel net fuel location (redirects ++ [location])) as [follow|e] eqn:Hf;
      [|now apply Hone].
    cbn [callback].
    destruct (IH _ _ _ (logged w [EvHttpGet url]) Hf) as (urls & Hw & Hn & Hr).
    exists (location :: urls). split; [|split].
    + rewrite Hw, logged_logged. reflexivity.
    + rewrite length_app in Hn. cbn in Hn |- *. lia.
    + intros r E. destruct (Hr r E) as [Hs Hl]. split; [exact Hs|].
      rewrite requestCount_logged_get in Hl. cbn [length].
      replace (requestCount w + S (length urls)) with (S (requestCount w) + length urls)
        by lia.
      now rewrite last_cons_default.
  - destruct (bool_decide (statusCode response = 200%N)) eqn:Hs; cbn [negb];
      [|now apply Hone].
    exists []. cbn. split; [reflexivity|]. split; [lia|].
    intros r [= <-]. apply bool_decide_eq_true in Hs.
    now rewrite Nat.add_0_r.
Qed.

(** X6. However the server answers, a fetch started by httpGet issues at
    least one and at most [4 - redirects.length] requests, the first of
    them to the URL it was called with; it logs nothing else and leaves the
    file system alone.  When it resolves, the response has status 200 and is
    the answer to the last request issued. *)
Theorem httpGet_requests (url : string) (redirects : list string)
    (m : M Response) (w : World) :
  httpGet net url redirects = Ok m ->
  ∃ urls, (m w).2 = logged w (map EvHttpGet (url :: urls))
    ∧ length (url :: urls) + length redirects <= 4
    ∧ ∀ r, (m w).1 = Returned r ->
        statusCode r = 200%N
        ∧ net (requestCount w + length urls) (List.last urls url) = Responded r.
Proof. apply httpGetFuel_requests. Qed.

Lemma httpDownload_log (url : string) (m : M (list Byte.byte)) (w : World) :
  httpDownload net url = Ok m ->
  validUrl url = true
  ∧ ∃ urls, (m w).2 = logged w (map EvHttpGet (url :: urls))
      ∧ length (url :: urls) <= 4
      ∧ ∀ data, (m w).1 = Returned data ->
          ∃ r, net (requestCount w + length urls) (List.last urls url) = Responded r
               ∧ statusCode r = 200%N ∧ body r = data.
Proof.
  unfold httpDownload, validUrl. intros H.
  destruct (assert (0 <? String.length url) _) as [[]|] eqn:H1; [|discriminate].
  destruct (assert (Js.startsWith url "https://" || _) _) as [[]|] eqn:H2; [|discriminate].
  apply assert_ok in H1, H2. rewrite H1, H2. split; [reflexivity|].
  cbn [mbind Result_bind] in H. injection H as <-.
  destruct (httpGet_unfold net url [] ltac:(unfold validUrl; now rewrite H1, H2)
              ltac:(cbn; lia)) as (g & Hg & _).
  destruct (httpGetFuel_requests _ _ _ g w Hg) as (urls & Hw & Hn & Hr).
  exists urls. rewrite bind_eq, Hg. cbn [await].
  destruct (g w) as [[r|e|e] w1] eqn:E; cbn [fst snd] in *.
  - split; [exact Hw|]. split; [cbn in Hn |- *; lia|].
    intros data [= <-]. destruct (Hr r eq_refl) as [Hs Hl]. eauto.
  - split; [exact Hw|]. split; [cbn in Hn |- *; lia|]. discriminate.
  - split; [exact Hw|]. split; [cbn in Hn |- *; lia|]. discriminate.
Qed.

(** X7. httpDownload either throws on its assertions before anything is
    requested, or issues between one and four requests, the first to its
    URL, and touches nothing else; when it resolves, the bytes are the body
    of a 200 response, the answer to the last request. *)
Theorem httpDownload_requests (url : string) (m : M (list Byte.byte)) (w : World) :
  httpDownload net url = Ok m ->
  validUrl url = true
  ∧ ∃ urls, (m w).2 = logged w (map EvHttpGet (url :: urls))
      ∧ length (url :: urls) <= 4
      ∧ ∀ data, (m w).1 = Returned data ->
          ∃ r, net (requestCount w + length urls) (List.last urls url) = Responded r
               ∧ statusCode r = 200%N ∧ body r = data.
Proof. apply httpDownload_log. Qed.

End HttpBounds.

(** ** ensureInstalled: what it keeps *)

Lemma keepsEntries_refl w : keepsEntries w w.
Proof. split; eauto. Qed.

Lemma keepsEntries_same_fs w w' : w_fs w' = w_fs w -> keepsEntries w w'.
Proof. intros E. unfold keepsEntries. rewrite E. split; eauto. Qed.

Lemma keepsEntries_trans w1 w2 w3 :
  keepsEntries w1 w2 -> keepsEntries w2 w3 -> keepsEntries w1 w3.
Proof.
  intros [A1 B1] [A2 B2]. split; [|auto].
  intros k i Hk. destruct (A1 k i Hk) as (i1 & H1 & E1).
  destruct (A2 k i1 H1) as (i2 & H2 & E2). exists i2. split; [exact H2 | congruence].
Qed.

Lemma bind_keeps {A B} (m : M A) (f : A -> M B) w :
  keepsEntries w (m w).2 ->
  (∀ a w1, m w = (Returned a, w1) -> keepsEntries w1 (f a w1).2) ->
  keepsEntries w ((m ≫= f) w).2.
Proof.
  intros Hm Hf. rewrite bind_eq. destruct (m w) as [[a|e|e] w1] eqn:E; cbn [snd] in *; auto.
  apply (keepsEntries_trans w w1); auto.
Qed.

Lemma bind_same_fs {A B} (m : M A) (f : A -> M B) w :
  w_fs (m w).2 = w_fs w ->
  (∀ a w1, w_fs (f a w1).2 = w_fs w1) ->
  w_fs ((m ≫= f) w).2 = w_fs w.
Proof.
  intros Hm Hf. rewrite bind_eq. destruct (m w) as [[a|e|e] w1] eqn:E; cbn [snd] in *; auto.
  now rewrite Hf.
Qed.

Lemma tryCatch_raise_fs {A} (m : M A) (wrap : JsError -> JsError) w :
  w_fs (tryCatch m (fun e => raise (wrap e)) w).2 = w_fs (m w).2.
Proof. unfold tryCatch. now destruct (m w) as [[a|e|e] w1]. Qed.

Lemma sync_same {A} (r : Result A) w : (sync r w).2 = w.
Proof. now destruct r. Qed.

Section Keeps.

Variable host : Host.
Variable net : nat -> string -> NetReply.

Lemma httpGetRedirect_fs url m w :
  httpGetRedirect net url = Ok m -> w_fs (m w).2 = w_fs w.
Proof.
  unfold httpGetRedirect. intros H.
  destruct (assert (0 <? String.length url) _) as [[]|]; [|discriminate].
  destruct (assert (Js.startsWith url "https://" || _) _) as [[]|]; [|discriminate].
  cbn [mbind Result_bind] in H. injection H as <-.
  rewrite bind_eq, request_eq.
  destruct (net (requestCount w) url) as [response|e]; [|reflexivity].
  destruct (isRedirect (statusCode response)).
  - now destruct (requireLocation response).
  - now destruct (negb _).
Qed.

Lemma fetchLatestLocation_fs w : w_fs (fetchLatestLocation net w).2 = w_fs w.
Proof.
  unfold fetchLatestLocation. rewrite tryCatch_raise_fs.
  destruct (latestUrl_ok net) as [m E]. rewrite E. cbn [await].
  exact (httpGetRedirect_fs latestUrl m w E).
Qed.

Lemma resolveVersion_fs input w : w_fs (resolveVersion net input w).2 = w_fs w.
Proof.
  assert (H : w_fs ((latestLocation ← fetchLatestLocation net;
                     mret (Js.pop (Js.split "/v" latestLocation))) w).2 = w_fs w).
  { apply bind_same_fs; [apply fetchLatestLocation_fs | reflexivity]. }
  unfold resolveVersion. destruct input as [v|]; [|exact H].
  destruct (bool_decide (v = "latest")); [exact H | reflexivity].
Qed.

Lemma downloadRelease_fs v r w : w_fs (downloadRelease net v r w).2 = w_fs w.
Proof.
  unfold downloadRelease. rewrite tryCatch_raise_fs.
  match goal with |- context [await ?c] => destruct c as [m|e] eqn:E end;
    [|reflexivity].
  cbn [await].
  destruct (httpDownload_log net _ m w E) as (_ & urls & -> & _). reflexivity.
Qed.

Lemma addsDirectories_keeps w w' :
  addsDirectories w w' -> (Fs.wf (w_fs w) = true -> Fs.wf (w_fs w') = true) ->
  keepsEntries w w'.
Proof. intros (A & _) Hwf. split; [|exact Hwf]. intros k i Hk. eauto. Qed.

Lemma writeFileSync_keeps p data mode w :
  keepsEntries w (writeFileSync host p data mode w).2.
Proof.
  rewrite writeFileSync_eq.
  destruct (Fs.writeFileSync (w_fs w) (cwd host) p data mode) as [fs'|e] eqn:E;
    [|apply keepsEntries_refl].
  apply writeFileSync_ok in E as (cur & m & _ & Hold & -> & Hwf).
  split; [|exact Hwf]. cbn [snd w_fs]. intros k i Hk.
  destruct (decide (rev cur = k)) as [<-|Hne].
  - rewrite lookup_insert_eq. eexists; split; [reflexivity|].
    destruct i; [reflexivity|congruence].
  - rewrite lookup_insert_ne by exact Hne. eauto.
Qed.

Lemma saveRelease_keeps r data w : keepsEntries w (saveRelease host r data w).2.
Proof.
  unfold saveRelease. apply bind_keeps.
  - apply addsDirectories_keeps;
      [apply mkDirRecursive_adds | apply mkDirRecursive_wf].
  - intros [] w1 _. apply writeFileSync_keeps.
Qed.

Lemma installVersion_keeps v w : keepsEntries w (installVersion host net v w).2.
Proof.
  unfold installVersion.
  apply bind_keeps; [rewrite sync_same; apply keepsEntries_refl|].
  intros r w1 _. apply bind_keeps; [apply keepsEntries_refl|].
  intros fs w2 _. apply bind_keeps; [rewrite sync_same; apply keepsEntries_refl|].
  intros l w3 _. destruct (findByName r l); [apply keepsEntries_refl|].
  apply bind_keeps; [apply keepsEntries_same_fs, downloadRelease_fs|].
  intros data w4 _. apply bind_keeps; [apply saveRelease_keeps|].
  intros [] w5 _. apply bind_keeps; [apply keepsEntries_refl|].
  intros fs' w6 _. apply bind_keeps; [rewrite sync_same; apply keepsEntries_refl|].
  intros l' w7 _. destruct (findByName r l'); [|apply keepsEntries_refl].
  apply bind_keeps; [now apply keepsEntries_same_fs|].
  intros [] w8 _. apply keepsEntries_refl.
Qed.

(** X8. However it ends, ensureInstalled removes nothing: every entry of
    the file system is still there, a directory still a directory and a file
    still a file, and a well-formed file system stays well-formed. *)
Theorem ensureInstalled_keeps (input : option string) (w : World) :
  keepsEntries w (ensureInstalled host net input w).2.
Proof.
  unfold ensureInstalled. apply bind_keeps.
  - apply keepsEntries_same_fs, resolveVersion_fs.
  - intros v w1 _. apply installVersion_keeps.
Qed.

End Keeps.

(** ** ensureInstalled: what it returns and what it leaves *)

Lemma slash_split_unique v bin v1 b1 :
  Fs.noSlash v1 = true -> Fs.noSlash b1 = true ->
  v +:+ "/" +:+ bin = v1 +:+ "/" +:+ b1 -> v = v1 ∧ bin = b1.
Proof.
  intros Hv1 Hb1. revert v. induction v1 as [|c v1 IH]; intros v E.
  - change ("" +:+ "/" +:+ b1) with (String "/" b1) in E. destruct v as [|c' v'].
    + change ("" +:+ "/" +:+ bin) with (String "/" bin) in E. injection E as <-. auto.
    + rewrite append_cons in E. injection E as -> E. exfalso.
      rewrite <- E in Hb1. rewrite noSlash_append in Hb1.
      apply andb_true_iff in Hb1 as [_ Hb1]. rewrite noSlash_append in Hb1.
      apply andb_true_iff in Hb1 as [Hb1 _]. discriminate.
  - rewrite noSlash_cons in Hv1. apply andb_true_iff in Hv1 as [Hc Hv1].
    rewrite (append_cons c) in E. destruct v as [|c' v'].
    + change ("" +:+ "/" +:+ bin) with (String "/" bin) in E.
      injection E as <- _. discriminate.
    + rewrite append_cons in E. injection E as -> E.
      destruct (IH Hv1 v' E) as [-> ->]. auto.
Qed.

Lemma makeReleaseName_shape p a v r :
  makeReleaseName {| platform := p; arch := a; version := v |} = Ok r ->
  ∃ bin, r = v +:+ "/" +:+ bin ∧ Js.startsWith bin "buf-" = true
         ∧ ∀ v', makeReleaseName {| platform := p; arch := a; version := v' |}
                 = Ok (v' +:+ "/" +:+ bin).
Proof.
  unfold makeReleaseName; cbn [platform arch version].
  destruct (Js.startsWith p "win").
  - intros [= <-]. eexists. split; [reflexivity|]. split; reflexivity.
  - destruct p as [|c rest]; [discriminate|]. intros [= <-].
    eexists. split; [reflexivity|]. split; reflexivity.
Qed.

Section Installed.

Variable host : Host.
Variable net : nat -> string -> NetReply.

(** The two ways installVersion returns. *)
Lemma installVersion_inv v w e w' :
  installVersion host net v w = (Returned e, w') ->
  ∃ r l, releaseOf host v = Ok r
    ∧ listInstalled host (w_fs w) (standardInstallDirectory host) = Ok l
    ∧ ((findByName r l = Some e ∧ w' = w)
       ∨ (findByName r l = None
          ∧ ∃ data w1 w2 l2,
              downloadRelease net v r w = (Returned data, w1)
              ∧ saveRelease host r data w1 = (Returned tt, w2)
              ∧ listInstalled host (w_fs w2) (standardInstallDirectory host) = Ok l2
              ∧ findByName r l2 = Some e
              ∧ w' = logged w2 [EvConsoleInfo ("bufbuild installed buf v" +:+
                                               Dist.version e +:+ ".")])).
Proof.
  unfold installVersion. intros H.
  apply bind_returned in H as (r & w1 & Hr & H).
  apply sync_returned in Hr as [Hr ->].
  apply bind_returned in H as (fs & w1 & Hfs & H).
  inversion Hfs; subst fs w1; clear Hfs.
  apply bind_returned in H as (l & w1 & Hl & H).
  apply sync_returned in Hl as [Hl ->].
  exists r, l. split; [exact Hr|]. split; [exact Hl|].
  destruct (findByName r l) as [hit|] eqn:Hfind.
  - left. now inversion H.
  - right. split; [reflexivity|].
    apply bind_returned in H as (data & w1 & Hd & H).
    apply bind_returned in H as ([] & w2 & Hs & H).
    apply bind_returned in H as (fs2 & w3 & Hfs & H).
    inversion Hfs; subst fs2 w3; clear Hfs.
    apply bind_returned in H as (l2 & w3 & Hl2 & H).
    apply sync_returned in Hl2 as [Hl2 ->].
    destruct (findByName r l2) as [installed|] eqn:Hfind2; [|discriminate].
    apply bind_returned in H as ([] & w3 & Hemit & H).
    inversion Hemit; subst w3; clear Hemit. inversion H; subst.
    exists data, w1, w2, l2. auto.
Qed.

Lemma installVersion_hit (net' : nat -> string -> NetReply) v r l e w :
  releaseOf host v = Ok r ->
  listInstalled host (w_fs w) (standardInstallDirectory host) = Ok l ->
  findByName r l = Some e ->
  installVersion host net' v w = (Returned e, w).
Proof.
  intros Hr Hl Hf. unfold installVersion. rewrite Hr. cbn [sync].
  rewrite bind_eq. cbn [mret M_ret]. rewrite bind_eq. unfold getFs at 1.
  rewrite bind_eq, Hl. cbn [sync mret M_ret]. now rewrite Hf.
Qed.

Lemma ensureInstalled_fixed (net' : nat -> string -> NetReply) v w :
  v ≠ "latest" ->
  ensureInstalled host net' (Some v) w = installVersion host net' v w.
Proof.
  intros Hv. unfold ensureInstalled, resolveVersion.
  now rewrite bool_decide_eq_false_2 by exact Hv.
Qed.

(** X9. Once ensureInstalled has returned for a fixed version, calling it
    again in the world it left returns the same entry and changes nothing,
    whatever the network would answer: nothing is requested. *)
Theorem ensureInstalled_again (net' : nat -> string -> NetReply) (v : string)
    (w w' : World) (e : DistEntry) :
  v ≠ "latest" ->
  ensureInstalled host net (Some v) w = (Returned e, w') ->
  ensureInstalled host net' (Some v) w' = (Returned e, w').
Proof.
  intros Hv H. rewrite ensureInstalled_fixed in * by exact Hv.
  apply installVersion_inv in H as (r & l & Hr & Hl & [[Hf ->]|(_ & data & w1 & w2 & l2 & _ & _ & Hl2 & Hf2 & ->)]).
  - now apply (installVersion_hit net' v r l).
  - now apply (installVersion_hit net' v r l2).
Qed.

(** What is listed under a release name, in a well-formed file system. *)
Lemma listed_release v r l e fs :
  Fs.wf fs = true -> releaseOf host v = Ok r ->
  listInstalled host fs (standardInstallDirectory host) = Ok l ->
  e ∈ l -> Dist.name e = r ->
  ∃ root bin, r = v +:+ "/" +:+ bin
    ∧ Fs.stat fs (cwd host) "access" (standardInstallDirectory host) = Ok (root, IDir)
    ∧ Fs.plainName v = true ∧ Fs.plainName bin = true
    ∧ e = mkEntry (standardInstallDirectory host) v bin
    ∧ is_Some (fs !! (root ++ [v; bin])).
Proof.
  intros Hwf Hr Hl He Hn.
  destruct (listInstalled_nonempty host fs _ l e Hl He) as [root Hroot].
  apply (elem_of_listInstalled host fs _ root Hwf Hroot _ _ Hl) in He
    as (v1 & b1 & Hv1 & Hb1 & _ & ->).
  apply makeReleaseName_shape in Hr as (bin & -> & _).
  cbn [mkEntry Dist.name] in Hn.
  assert (Hp1 : Fs.plainName v1 = true) by (apply (entry_plain fs root v1 Hwf); eauto).
  assert (Hp2 : Fs.plainName b1 = true).
  { apply (entry_plain fs (root ++ [v1]) b1 Hwf). now rewrite <- app_assoc. }
  symmetry in Hn.
  apply slash_split_unique in Hn as [-> ->]; [|now apply plainName_noSlash..].
  exists root, b1. auto 10.
Qed.

Lemma ensureInstalled_returns (input : option string) (w w' : World) (e : DistEntry) :
  Fs.wf (w_fs w) = true ->
  ensureInstalled host net input w = (Returned e, w') ->
  ∃ v w0, resolveVersion net input w = (Returned v, w0)
    ∧ Fs.plainName v = true ∧ Dist.version e = v
    ∧ releaseOf host v = Ok (Dist.name e).
Proof.
  intros Hwf H. unfold ensureInstalled in H.
  apply bind_returned in H as (v & w0 & Hv & H).
  exists v, w0. split; [exact Hv|].
  assert (Hwf' : Fs.wf (w_fs w') = true).
  { pose proof (installVersion_keeps host net v w0) as [_ K]. rewrite H in K. apply K.
    pose proof (resolveVersion_fs net input w) as E. rewrite Hv in E. cbn in E.
    now rewrite E. }
  apply installVersion_listed in H as (r & l & Hr & Hl & He & Hn).
  destruct (listed_release v r l e _ Hwf' Hr Hl He Hn)
    as (root & bin & -> & _ & Hpv & _ & -> & _).
  cbn [mkEntry Dist.version Dist.name]. auto.
Qed.

(** X10. In a well-formed file system ensureInstalled returns only for a
    version that is one plain path segment: not empty, not "." or "..",
    without a separator.  The entry returned carries that version, and its
    name is the release name of the host for it. *)
Theorem ensureInstalled_version (input : option string) (w w' : World) (e : DistEntry) :
  Fs.wf (w_fs w) = true ->
  ensureInstalled host net input w = (Returned e, w') ->
  ∃ v w0, resolveVersion net input w = (Returned v, w0)
    ∧ Fs.plainName v = true ∧ Dist.version e = v
    ∧ releaseOf host v = Ok (Dist.name e).
Proof. apply ensureInstalled_returns. Qed.

(** X11. When the release is not installed and the download URL is answered
    by a status that is neither 3xx nor 200, ensureInstalled is rejected with
    the message about a misspelled version, which ends with the HTTP error;
    one request has been issued and the file system is as it was. *)
Theorem ensureInstalled_download_rejected (v r : string) (l : list DistEntry)
    (response : Response) (w : World) :
  v ≠ "latest" -> releaseOf host v = Ok r ->
  listInstalled host (w_fs w) (standardInstallDirectory host) = Ok l ->
  findByName r l = None ->
  net (requestCount w) (downloadUrl r) = Responded response ->
  isRedirect (statusCode response) = false -> statusCode response ≠ 200%N ->
  ensureInstalled host net (Some v) w
  = (Raised (Error ("bufbuild failed to download buf v" +:+ v +:+ ". " +:+ Js.newline +:+
       "Did you misspell the version number? The version number must look like "
       +:+ Js.dquote +:+ "1.6.0" +:+ Js.dquote +:+ ", without a leading "
       +:+ Js.dquote +:+ "v" +:+ Js.dquote +:+ "." +:+ Js.newline
       +:+ "Error: HTTP " +:+ Js.ofNumber (statusCode response) +:+ " for "
       +:+ downloadUrl r)),
     logged w [EvHttpGet (downloadUrl r)]).
Proof.
  intros Hv Hr Hl Hf Hnet Hred Hs.
  rewrite ensureInstalled_fixed by exact Hv.
  unfold installVersion. rewrite Hr. cbn [sync].
  rewrite bind_eq. cbn [mret M_ret]. rewrite bind_eq. unfold getFs at 1.
  rewrite bind_eq, Hl. cbn [sync mret M_ret]. rewrite Hf.
  rewrite bind_eq. unfold downloadRelease, tryCatch. fold (downloadUrl r).
  assert (Hu : validUrl (downloadUrl r) = true) by reflexivity.
  unfold httpDownload.
  destruct (validUrl_asserts _ Hu) as [H1 H2]. rewrite H1, H2.
  cbn [assert mbind Result_bind await].
  destruct (httpGet_unfold net (downloadUrl r) [] Hu ltac:(cbn; lia)) as (g & Hg & Hgw).
  rewrite bind_eq, Hg. cbn [await]. rewrite Hgw, Hnet, Hred.
  rewrite bool_decide_eq_false_2 by exact Hs. reflexivity.
Qed.

End Installed.

(** ** ensureInstalled: the file it installs *)

Lemma walk_plain_At fs l c0 cur :
  forallb Fs.plainName l = true ->
  fold_left (Fs.walkStep fs) l (Fs.At c0) = Fs.At cur -> cur = rev l ++ c0.
Proof.
  revert c0. induction l as [|n l IH]; intros c0 Hp H.
  - cbn in H. now injection H as <-.
  - cbn [forallb] in Hp. apply andb_true_iff in Hp as [Hn Hl]. cbn [fold_left] in H.
    destruct (Fs.walkStep fs (Fs.At c0) n) as [c1|code] eqn:E;
      [|now rewrite fold_walk_Lost in H].
    apply walkStep_At in E as [Hd ->].
    apply plainName_ne in Hn as (H1 & H2 & H3).
    rewrite !bool_decide_eq_false_2 in H by assumption. cbn [orb] in H.
    rewrite (IH _ Hl H). cbn [rev]. now rewrite <- app_assoc.
Qed.

Lemma stat_absPath_inv fs cwd syscall segs c i :
  forallb Fs.plainName segs = true ->
  Fs.stat fs cwd syscall (absPath segs) = Ok (c, i) -> c = segs ∧ fs !! segs = Some i.
Proof.
  intros Hp H. apply stat_At in H as (cur & Hr & -> & Hi).
  unfold Fs.resolve in Hr.
  rewrite bool_decide_eq_false_2 in Hr by apply absPath_ne.
  rewrite isAbsolute_absPath', split_absPath in Hr by exact Hp.
  cbn [fold_left] in Hr.
  destruct (Fs.walkStep fs (Fs.At []) "") as [c1|code] eqn:E;
    [|now rewrite fold_walk_Lost in Hr].
  apply walkStep_At in E as [Hroot E]. change (c1 = []) in E. subst c1.
  assert (Hcur : cur = rev segs).
  { destruct segs as [|x l].
    - cbn [fold_left] in Hr. apply walkStep_At in Hr as [_ E]. exact E.
    - apply walk_plain_At in Hr; [|exact Hp]. now rewrite app_nil_r in Hr. }
  subst cur. rewrite rev_involutive in *. auto.
Qed.

Section Installs.

Variable host : Host.
Variable net : nat -> string -> NetReply.

(** X12. With the module directory an absolute normalized path and a
    well-formed file system, when ensureInstalled returns, the bufPath of
    the entry is the file of the release under the install directory.
    Either that file was there before and nothing has been written, or it
    was not there, the download resolved, and the file now holds the
    downloaded bytes with mode 0o755. *)
Theorem ensureInstalled_installs (dir : list string) (input : option string)
    (w w' : World) (e : DistEntry) :
  Fs.wf (w_fs w) = true ->
  module_dirname host = absPath dir -> forallb Fs.plainName dir = true ->
  ensureInstalled host net input w = (Returned e, w') ->
  ∃ v bin w0, resolveVersion net input w = (Returned v, w0)
    ∧ releaseOf host v = Ok (v +:+ "/" +:+ bin)
    ∧ Dist.bufPath e = absPath (dir ++ ["installed"; v; bin])
    ∧ ((w' = w0 ∧ is_Some (w_fs w !! (dir ++ ["installed"; v; bin])))
       ∨ (∃ data w1,
            downloadRelease net v (v +:+ "/" +:+ bin) w0 = (Returned data, w1)
            ∧ w_fs w !! (dir ++ ["installed"; v; bin]) = None
            ∧ w_fs w' !! (dir ++ ["installed"; v; bin]) = Some (IFile 493 data))).
Proof.
  intros Hwf Hdir Hdp H. unfold ensureInstalled in H.
  apply bind_returned in H as (v & w0 & Hv & H).
  assert (Hfs0 : w_fs w0 = w_fs w).
  { pose proof (resolveVersion_fs net input w) as E. now rewrite Hv in E. }
  assert (Hwf0 : Fs.wf (w_fs w0) = true) by now rewrite Hfs0.
  set (root := dir ++ ["installed"]).
  assert (Hrp : forallb Fs.plainName root = true)
    by (apply forallb_plain_app; split; [exact Hdp | reflexivity]).
  pose proof (standardInstallDirectory_abs host dir Hdir Hdp) as Hstd. fold root in Hstd.
  assert (Hshape : ∀ fs r l, Fs.wf fs = true -> releaseOf host v = Ok r ->
            listInstalled host fs (standardInstallDirectory host) = Ok l ->
            e ∈ l -> Dist.name e = r ->
            ∃ bin, r = v +:+ "/" +:+ bin ∧ Fs.plainName v = true ∧ Fs.plainName bin = true
              ∧ Dist.bufPath e = absPath (root ++ [v; bin])
              ∧ is_Some (fs !! (root ++ [v; bin]))).
  { intros fs r l Hw Hr Hl He Hn.
    destruct (listed_release host v r l e fs Hw Hr Hl He Hn)
      as (root' & bin & -> & Hst & Hpv & Hpb & -> & Hsome).
    rewrite Hstd in Hst. apply stat_absPath_inv in Hst as [-> _]; [|exact Hrp].
    exists bin. split; [reflexivity|]. split; [exact Hpv|]. split; [exact Hpb|].
    split; [|exact Hsome]. cbn [mkEntry Dist.bufPath]. rewrite Hstd.
    rewrite join_absPath by assumption.
    rewrite join_absPath; [now rewrite <- app_assoc | | exact Hpb].
    apply forallb_plain_app. split; [exact Hrp | cbn; now rewrite Hpv]. }
  apply installVersion_inv in H
    as (r & l & Hr & Hl & [[Hf ->]|(Hf & data & w1 & w2 & l2 & Hd & Hs & Hl2 & Hf2 & ->)]).
  - apply findByName_some in Hf as [He Hn].
    destruct (Hshape _ r l Hwf0 Hr Hl He Hn) as (bin & -> & _ & _ & Hb & Hsome).
    exists v, bin, w0. split; [exact Hv|]. split; [exact Hr|].
    unfold root in Hb, Hsome. rewrite <- app_assoc in Hb, Hsome. cbn [app] in Hb, Hsome.
    split; [exact Hb|]. left. split; [reflexivity|]. now rewrite <- Hfs0.
  - assert (Hfs1 : w_fs w1 = w_fs w0).
    { pose proof (downloadRelease_fs net v r w0) as E. now rewrite Hd in E. }
    assert (Hwf1 : Fs.wf (w_fs w1) = true) by now rewrite Hfs1.
    assert (Hwf2 : Fs.wf (w_fs w2) = true).
    { pose proof (saveRelease_keeps host r data w1) as [_ K]. rewrite Hs in K. auto. }
    apply findByName_some in Hf2 as [He Hn].
    destruct (Hshape _ r l2 Hwf2 Hr Hl2 He Hn) as (bin & -> & Hpv & Hpb & Hb & _).
    exists v, bin, w0. split; [exact Hv|]. split; [exact Hr|].
    assert (Hnone : w_fs w0 !! (root ++ [v; bin]) = None).
    { destruct (w_fs w0 !! (root ++ [v; bin])) as [i|] eqn:Hi; [exfalso|reflexivity].
      change (root ++ [v; bin]) with (root ++ [v] ++ [bin]) in Hi. rewrite app_assoc in Hi.
      pose proof (wf_parent _ _ _ _ Hwf0 Hi) as Hvd.
      pose proof (wf_parent _ _ _ _ Hwf0 Hvd) as Hrd.
      pose proof (stat_absPath _ (cwd host) "access" root IDir Hwf0 Hrd) as Hst.
      rewrite <- Hstd in Hst.
      assert (Hin : mkEntry (standardInstallDirectory host) v bin ∈ l).
      { apply (elem_of_listInstalled host _ _ root Hwf0 Hst _ _ Hl).
        exists v, bin. split; [exact Hvd|]. split.
        - rewrite <- app_assoc in Hi. cbn [app] in Hi. eauto.
        - split; [|reflexivity].
          apply makeReleaseName_shape in Hr as (bin' & E & Hpre & _).
          symmetry in E. apply slash_split_unique in E as [_ ->];
            [exact Hpre | now apply plainName_noSlash..]. }
      apply list_elem_of_In in Hin.
      pose proof (List.find_none _ _ Hf _ Hin) as Hno. cbn in Hno.
      now rewrite bool_decide_eq_true_2 in Hno. }
    unfold root in Hb. rewrite <- app_assoc in Hb. cbn [app] in Hb.
    split; [exact Hb|]. right. exists data, w1. split; [exact Hd|].
    assert (Hroot3 : dir ++ ["installed"; v; bin] = root ++ [v; bin])
      by (unfold root; now rewrite <- app_assoc).
    rewrite Hroot3. split; [now rewrite <- Hfs0|].
    cbn [logged w_fs].
    assert (Hrvp : forallb Fs.plainName (root ++ [v]) = true)
      by (apply forallb_plain_app; split; [exact Hrp | cbn; now rewrite Hpv]).
    unfold saveRelease in Hs. rewrite Hstd in Hs.
    rewrite join_absPath2 in Hs by assumption.
    change (root ++ [v; bin]) with (root ++ [v] ++ [bin]) in Hs |- *.
    rewrite app_assoc in Hs |- *.
    rewrite dirname_absPath in Hs by assumption.
    apply bind_returned in Hs as ([] & w1' & Hmk & Hwr).
    pose proof (mkDirRecursive_adds host (absPath (root ++ [v])) w1) as Hadd.
    rewrite Hmk in Hadd. cbn [snd] in Hadd. destruct Hadd as (_ & Hnew & _).
    apply mkDirRecursive_absPath in Hmk as [Hwf1' Hd1];
      [|now destruct root|exact Hrvp|exact Hwf1].
    rewrite writeFileSync_eq in Hwr. unfold Fs.writeFileSync in Hwr.
    rewrite resolve_absPath in Hwr;
      [|exact Hwf1'
       |apply forallb_plain_app; split; [exact Hrvp | cbn; now rewrite Hpb]
       |right; now rewrite removelast_last].
    rewrite rev_involutive in Hwr.
    change (root ++ [v; bin]) with (root ++ [v] ++ [bin]) in Hnone.
    rewrite app_assoc, <- Hfs1 in Hnone.
    destruct (Hnew _ Hnone) as [Hk|Hk]; rewrite Hk in Hwr; [|discriminate].
    injection Hwr as <-. cbn [w_fs]. apply lookup_insert_eq.
Qed.

End Installs.

(** ** PATH prober: what a hit is *)

Lemma append_ne_r a b : b ≠ "" -> a +:+ b ≠ "".
Proof. intros Hb. destruct a; [exact Hb | discriminate]. Qed.

Lemma append_ne_l a b : a ≠ "" -> a +:+ b ≠ "".
Proof. intros Ha. destruct a; [congruence | discriminate]. Qed.

Lemma normalize_ne p : Path.normalize p ≠ "".
Proof.
  unfold Path.normalize. destruct (bool_decide (p = "")); [discriminate|].
  destruct (bool_decide (Path.normalizeString p (negb (Path.isAbsolute p)) = "")) eqn:E.
  - destruct (Path.isAbsolute p); [discriminate|]. now destruct (Js.endsWith p "/").
  - apply bool_decide_eq_false in E.
    destruct (Path.isAbsolute p); [discriminate|].
    destruct (Js.endsWith p "/"); [now apply append_ne_l | exact E].
Qed.

Lemma join_ne_empty a b : Path.join a b ≠ "".
Proof.
  unfold Path.join.
  destruct (bool_decide (a = "")), (bool_decide (b = "")); try apply normalize_ne.
  discriminate.
Qed.

Lemma candidatePath_ne host dir : candidatePath host dir ≠ "".
Proof.
  unfold candidatePath, expandTilde.
  destruct (Path.join dir (exeName host)) as [|c s] eqn:E; [now apply join_ne_empty in E|].
  destruct (Ascii.ascii_dec c "~") as [->|Hc].
  - apply join_ne_empty.
  - destruct c as [[] [] [] [] [] [] [] []]; try discriminate; try apply join_ne_empty.
Qed.

Lemma findBufInPath_inv (host : Host) (fs : Fs.FileSystem)
    (envPath : option string) (c : string) :
  findBufInPath host fs envPath = Some c ->
  c ≠ "" ∧ Fs.existsSync fs (cwd host) c = true
  ∧ ∃ p before dir after,
      envPath = Some p ∧ Js.split Path.delimiter p = before ++ dir :: after
      ∧ isShimDir dir = false ∧ c = candidatePath host dir
      ∧ ∀ d, d ∈ before ->
          isShimDir d = true ∨ Fs.existsSync fs (cwd host) (candidatePath host d) = false.
Proof.
  unfold findBufInPath. destruct envPath as [p|]; [|discriminate].
  rewrite candidates_eq. remember (Js.split Path.delimiter p) as dirs eqn:Hdirs.
  intros H.
  assert (G : ∃ before dir after, dirs = before ++ dir :: after
            ∧ isShimDir dir = false ∧ c = candidatePath host dir
            ∧ Fs.existsSync fs (cwd host) c = true
            ∧ ∀ d, d ∈ before ->
                isShimDir d = true
                ∨ Fs.existsSync fs (cwd host) (candidatePath host d) = false).
  { clear Hdirs. induction dirs as [|d dirs IH]; [discriminate|].
    cbn [List.filter] in H. destruct (isShimDir d) eqn:Hs; cbn [negb] in H.
    - destruct (IH H) as (before & dir & after & -> & H1 & H2 & H3 & H4).
      exists (d :: before), dir, after. repeat (split; [done|]).
      intros d' Hd'. apply elem_of_cons in Hd' as [->|Hd']; auto.
    - cbn [map List.find] in H.
      destruct (Fs.existsSync fs (cwd host) (candidatePath host d)) eqn:He.
      + injection H as <-. exists [], d, dirs. repeat (split; [done|]).
        intros d' Hd'. inversion Hd'.
      + destruct (IH H) as (before & dir & after & -> & H1 & H2 & H3 & H4).
        exists (d :: before), dir, after. repeat (split; [done|]).
        intros d' Hd'. apply elem_of_cons in Hd' as [->|Hd']; auto. }
  destruct G as (before & dir & after & E & H1 & -> & H3 & H4).
  split; [apply candidatePath_ne|]. split; [exact H3|].
  exists p, before, dir, after. rewrite <- E. auto.
Qed.

(** X13. What findBufInPath finds is never the empty string; it exists in
    the file system, and it is the candidate of a directory of the PATH that
    ends neither in node_modules/.bin nor in .npm-global/bin, before which
    every directory is left out or has no candidate that exists. *)
Theorem findBufInPath_sound (host : Host) (fs : Fs.FileSystem)
    (envPath : option string) (c : string) :
  findBufInPath host fs envPath = Some c ->
  c ≠ "" ∧ Fs.existsSync fs (cwd host) c = true
  ∧ ∃ p before dir after,
      envPath = Some p ∧ Js.split Path.delimiter p = before ++ dir :: after
      ∧ isShimDir dir = false ∧ c = candidatePath host dir
      ∧ ∀ d, d ∈ before ->
          isShimDir d = true ∨ Fs.existsSync fs (cwd host) (candidatePath host d) = false.
Proof. apply findBufInPath_inv. Qed.

(** ** findBufVersionConfig *)

Lemma dirnameEnd_bound rest i m e :
  length rest = i -> Path.dirnameEnd rest i m = Some e ->
  1 <= e <= i ∧ (m = true -> e < i).
Proof.
  revert i m. induction rest as [|c rest IH]; intros i m Hlen H; [discriminate|].
  cbn [length] in Hlen. cbn [Path.dirnameEnd] in H.
  assert (Hlen' : length rest = i - 1) by lia.
  destruct (bool_decide (c = "/"%char)).
  - destruct m.
    + destruct (IH _ _ Hlen' H) as [H1 _]. split; [lia|]. intros _. lia.
    + injection H as <-. split; [lia | discriminate].
  - destruct (IH _ _ Hlen' H) as [H1 _]. split; [lia|]. intros _. lia.
Qed.

Lemma length_substring0 e s :
  e <= String.length s -> String.length (String.substring 0 e s) = e.
Proof.
  revert s. induction e as [|e IH]; intros s H; [now destruct s|].
  destruct s as [|c s]; cbn in H; [lia|]. cbn. rewrite IH; lia.
Qed.

Lemma dirMeasure_le d : dirMeasure d <= S (String.length d).
Proof. unfold dirMeasure. destruct (_ || _); lia. Qed.

Lemma dirMeasure_long d : 2 <= String.length d -> dirMeasure d = S (String.length d).
Proof.
  intros H. unfold dirMeasure.
  rewrite !bool_decide_eq_false_2; [reflexivity|intros ->; cbn in H; lia..].
Qed.

(** [path.dirname] either returns its argument or makes progress. *)
Lemma dirname_progress d :
  Path.dirname d ≠ d -> dirMeasure (Path.dirname d) < dirMeasure d.
Proof.
  destruct d as [|c0 tl]; [intros _; change (0 < 1); lia|].
  unfold Path.dirname.
  destruct (Path.dirnameEnd _ _ true) as [e|] eqn:E.
  - apply dirnameEnd_bound in E as [H1 H2];
      [|now rewrite length_rev, length_chars].
    specialize (H2 eq_refl). intros _.
    rewrite (dirMeasure_long (String c0 tl)) by (cbn [String.length]; lia).
    destruct (bool_decide (c0 = "/"%char) && bool_decide (e = 1)) eqn:Hr.
    + apply andb_true_iff in Hr as [_ He]. apply bool_decide_eq_true in He. subst e.
      cbn [String.length]. change (dirMeasure "//") with 3. lia.
    + pose proof (dirMeasure_le (String.substring 0 e (String c0 tl))) as Hle.
      rewrite length_substring0 in Hle by (cbn [String.length]; lia).
      cbn [String.length]. lia.
  - destruct (bool_decide (c0 = "/"%char)) eqn:Hc; intros Hne.
    + apply bool_decide_eq_true in Hc. subst c0. change (dirMeasure "/") with 0.
      unfold dirMeasure. rewrite (bool_decide_eq_false_2 (String "/" tl = "/")) by congruence.
      rewrite bool_decide_eq_false_2 by discriminate. cbn. lia.
    + apply bool_decide_eq_false in Hc. change (dirMeasure ".") with 0.
      unfold dirMeasure. rewrite (bool_decide_eq_false_2 (String c0 tl = ".")) by congruence.
      rewrite bool_decide_eq_false_2 by congruence. cbn. lia.
Qed.

Section VersionConfig.

Variable host : Host.
Variable JSON_parse : string -> option Json.
Variable fs : Fs.FileSystem.

Lemma findBufVersionConfigFuel_S n d :
  findBufVersionConfigFuel host JSON_parse (S n) fs d
  = (version ← tryReadBufVersion host JSON_parse fs (Path.join d "package.json");
     match version with
     | Some v => Ok (Some v)
     | None =>
         if bool_decide (Path.dirname d = d) then Ok None
         else findBufVersionConfigFuel host JSON_parse n fs (Path.dirname d)
     end).
Proof. reflexivity. Qed.

Lemma findBufVersionConfigFuel_enough n m d :
  dirMeasure d < n -> dirMeasure d < m ->
  findBufVersionConfigFuel host JSON_parse n fs d
  = findBufVersionConfigFuel host JSON_parse m fs d.
Proof.
  revert m d. induction n as [|n IH]; intros m d Hn Hm; [lia|].
  destruct m as [|m]; [lia|]. rewrite !findBufVersionConfigFuel_S.
  destruct (tryReadBufVersion host JSON_parse fs (Path.join d "package.json"))
    as [[v|]|e]; try reflexivity.
  cbn [mbind Result_bind].
  destruct (bool_decide (Path.dirname d = d)) eqn:E; [reflexivity|].
  apply bool_decide_eq_false, dirname_progress in E. apply IH; lia.
Qed.

(** The loop of the source, one turn at a time. *)
Lemma findBufVersionConfig_unfold d :
  findBufVersionConfig host JSON_parse fs d
  = (version ← tryReadBufVersion host JSON_parse fs (Path.join d "package.json");
     match version with
     | Some v => Ok (Some v)
     | None =>
         if bool_decide (Path.dirname d = d) then Ok None
         else findBufVersionConfig host JSON_parse fs (Path.dirname d)
     end).
Proof.
  unfold findBufVersionConfig. rewrite (Nat.add_comm (String.length d)).
  change (2 + String.length d) with (S (S (String.length d))).
  rewrite findBufVersionConfigFuel_S.
  destruct (tryReadBufVersion host JSON_parse fs (Path.join d "package.json"))
    as [[v|]|e]; try reflexivity.
  cbn [mbind Result_bind].
  destruct (bool_decide (Path.dirname d = d)) eqn:E; [reflexivity|].
  apply bool_decide_eq_false, dirname_progress in E.
  pose proof (dirMeasure_le d). pose proof (dirMeasure_le (Path.dirname d)).
  apply findBufVersionConfigFuel_enough; lia.
Qed.

Lemma dirname_root : Path.dirname (absPath []) = absPath [].
Proof. reflexivity. Qed.

Lemma absPath_snoc_ne D x : Fs.plainName x = true -> absPath (D ++ [x]) ≠ absPath D.
Proof.
  intros Hx E. apply (f_equal String.length) in E.
  rewrite absPath_snoc in E. apply plainName_ne in Hx as (Hx & _).
  destruct D as [|y l].
  - rewrite !length_append in E. change (String.length (absPath [])) with 1 in E.
    destruct x; [congruence | cbn [String.length] in E; lia].
  - rewrite !length_append in E. change (String.length "/") with 1 in E. lia.
Qed.

(** The walk from the directory at [D], in terms of the prefixes of [D]. *)
Lemma findBufVersionConfig_step (D : list string) :
  forallb Fs.plainName D = true ->
  findBufVersionConfig host JSON_parse fs (absPath D)
  = (version ← tryReadBufVersion host JSON_parse fs (absPath (D ++ ["package.json"]));
     match version with
     | Some v => Ok (Some v)
     | None =>
         if bool_decide (D = []) then Ok None
         else findBufVersionConfig host JSON_parse fs (absPath (removelast D))
     end).
Proof.
  intros Hp. rewrite findBufVersionConfig_unfold.
  rewrite join_absPath by (exact Hp || reflexivity).
  destruct (tryReadBufVersion host JSON_parse fs (absPath (D ++ ["package.json"])))
    as [[v|]|e]; try reflexivity.
  cbn [mbind Result_bind].
  destruct D as [|x l] using rev_ind; [reflexivity|].
  apply forallb_plain_app in Hp as [Hl Hx]. cbn in Hx. rewrite andb_true_r in Hx.
  rewrite dirname_absPath by assumption.
  rewrite bool_decide_eq_false_2 by (intros E; symmetry in E; now apply absPath_snoc_ne in E).
  rewrite bool_decide_eq_false_2 by (now destruct l).
  now rewrite removelast_last.
Qed.

(** X14. The nearest package.json decides.  Started in an absolute
    normalized directory, findBufVersionConfig reads the package.json of the
    directory and of each of its ancestors in turn, nearest first, and ends
    with the first reading that is not undefined, be it a version or an
    exception; the ancestors above it are not consulted. *)
Theorem findBufVersionConfig_nearest (D : list string) (k : nat)
    (r : Result (option string)) :
  forallb Fs.plainName D = true -> k <= length D ->
  (∀ i, k < i <= length D ->
     tryReadBufVersion host JSON_parse fs (packageJsonOf (take i D)) = Ok None) ->
  tryReadBufVersion host JSON_parse fs (packageJsonOf (take k D)) = r ->
  r ≠ Ok None ->
  findBufVersionConfig host JSON_parse fs (absPath D) = r.
Proof.
  intros Hp Hk Hskip Hr Hne.
  induction D as [|x l IH] using rev_ind.
  - cbn in Hk. replace k with 0 in Hr by lia. cbn [take] in Hr.
    rewrite findBufVersionConfig_step by exact Hp. rewrite Hr.
    destruct r as [[v|]|e]; [reflexivity | congruence | reflexivity].
  - rewrite findBufVersionConfig_step by exact Hp.
    rewrite length_app in Hk, Hskip. cbn [length] in Hk, Hskip.
    destruct (decide (k = length l + 1)) as [->|Hlt].
    + rewrite take_ge in Hr by (rewrite length_app; cbn; lia). rewrite Hr.
      destruct r as [[v|]|e]; [reflexivity | congruence | reflexivity].
    + pose proof (Hskip (length l + 1) ltac:(lia)) as Hlast.
      rewrite take_ge in Hlast by (rewrite length_app; cbn; lia). rewrite Hlast.
      cbn [mbind Result_bind].
      rewrite bool_decide_eq_false_2 by (now destruct l).
      rewrite removelast_last. apply forallb_plain_app in Hp as [Hl _].
      apply IH; [exact Hl | lia | | ].
      * intros i Hi. rewrite <- (Hskip i ltac:(lia)).
        now rewrite take_app_le by lia.
      * rewrite <- Hr. now rewrite take_app_le by lia.
Qed.

(** X15. When the package.json of the directory and of every ancestor up
    to the root reads as undefined, findBufVersionConfig returns undefined:
    the walk ends at the root. *)
Theorem findBufVersionConfig_none (D : list string) :
  forallb Fs.plainName D = true ->
  (∀ i, i <= length D ->
     tryReadBufVersion host JSON_parse fs (packageJsonOf (take i D)) = Ok None) ->
  findBufVersionConfig host JSON_parse fs (absPath D) = Ok None.
Proof.
  intros Hp Hskip. induction D as [|x l IH] using rev_ind.
  - rewrite findBufVersionConfig_step by exact Hp.
    pose proof (Hskip 0 ltac:(cbn; lia)) as H0. cbn [take] in H0. now rewrite H0.
  - rewrite findBufVersionConfig_step by exact Hp.
    rewrite length_app in Hskip. cbn [length] in Hskip.
    pose proof (Hskip (length l + 1) ltac:(lia)) as Hlast.
    rewrite take_ge in Hlast by (rewrite length_app; cbn; lia). rewrite Hlast.
    cbn [mbind Result_bind].
    rewrite bool_decide_eq_false_2 by (now destruct l).
    rewrite removelast_last. apply forallb_plain_app in Hp as [Hl _].
    apply IH; [exact Hl|].
    intros i Hi. rewrite <- (Hskip i ltac:(lia)). now rewrite take_app_le by lia.
Qed.

End VersionConfig.

(** ** tryReadBufVersion *)

Section ReadVersion.

Variable host : Host.
Variable JSON_parse : string -> option Json.
Variable fs : Fs.FileSystem.
Hypothesis Hwf : Fs.wf fs = true.

Lemma stat_absPath_none syscall K :
  forallb Fs.plainName K = true -> fs !! K = None ->
  ∃ e, Fs.stat fs (cwd host) syscall (absPath K) = Thrown e.
Proof.
  intros Hp Hk. destruct (Fs.stat fs (cwd host) syscall (absPath K)) as [[c i]|e] eqn:E;
    [|eauto].
  apply stat_absPath_inv in E as [_ E]; [congruence | exact Hp].
Qed.

(** What the reading of a package.json comes to, by what is at its path. *)
Lemma tryReadBufVersion_eq K :
  forallb Fs.plainName K = true ->
  tryReadBufVersion host JSON_parse fs (absPath K)
  = match fs !! K with
    | None => Ok None
    | Some IDir => Thrown (DescriptorError "EISDIR" "read")
    | Some (IFile _ data) =>
        match JSON_parse (String.string_of_list_byte data) with
        | None => Ok None
        | Some JNull =>
            Thrown (TypeError "Cannot read properties of null (reading 'config')")
        | Some (JObject fields) =>
            match JsonValue.property (JObject fields) "config" with
            | Some (JObject config) =>
                match JsonValue.property (JObject config) "bufVersion" with
                | Some (JString version) => Ok (Some version)
                | _ => Ok None
                end
            | _ => Ok None
            end
        | Some _ => Ok None
        end
    end.
Proof.
  intros Hp. unfold tryReadBufVersion, Fs.existsSync, Fs.readFileSync.
  destruct (fs !! K) as [i|] eqn:Hk.
  - rewrite !(stat_absPath fs (cwd host) _ K i Hwf Hk). cbn [negb].
    destruct i as [m data|]; [|reflexivity]. cbn [mbind Result_bind].
    destruct (JSON_parse _) as [[| | | | |fields]|]; reflexivity.
  - destruct (stat_absPath_none "access" K Hp Hk) as [e ->]. reflexivity.
Qed.

(** X16. In a well-formed file system the reading of a package.json throws
    in two cases only: the path is a directory, which fails the read with
    the EISDIR of the system call [read], an error that names no path; and
    the file holds the JSON value null, on which the access to [config] is a
    TypeError.  A file that does not parse never throws. *)
Theorem tryReadBufVersion_throws (K : list string) (e : JsError) :
  forallb Fs.plainName K = true ->
  (tryReadBufVersion host JSON_parse fs (absPath K) = Thrown e
   <-> (fs !! K = Some IDir ∧ e = DescriptorError "EISDIR" "read")
       ∨ (∃ m data, fs !! K = Some (IFile m data)
            ∧ JSON_parse (String.string_of_list_byte data) = Some JNull
            ∧ e = TypeError "Cannot read properties of null (reading 'config')")).
Proof.
  intros Hp. rewrite (tryReadBufVersion_eq K Hp). split.
  - destruct (fs !! K) as [[m data|]|]; [| intros [= <-]; auto | discriminate].
    destruct (JSON_parse _) as [[| | | | |fields]|] eqn:Hj; try discriminate.
    + intros [= <-]. right. eauto.
    + destruct (JsonValue.property (JObject fields) "config") as [[| | | | |config]|];
        try discriminate.
      destruct (JsonValue.property (JObject config) "bufVersion") as [[| | |s| |]|];
        discriminate.
  - intros [[-> ->]|(m & data & -> & -> & ->)]; reflexivity.
Qed.

(** X17. In a well-formed file system the reading of a package.json gives a
    version exactly when the path is a file whose text parses to an object
    with a property [config] that is an object with a property [bufVersion]
    that is a string, which is the version; an empty string is given as it
    is. *)
Theorem tryReadBufVersion_version (K : list string) (v : string) :
  forallb Fs.plainName K = true ->
  (tryReadBufVersion host JSON_parse fs (absPath K) = Ok (Some v)
   <-> ∃ m data fields config,
         fs !! K = Some (IFile m data)
         ∧ JSON_parse (String.string_of_list_byte data) = Some (JObject fields)
         ∧ JsonValue.property (JObject fields) "config" = Some (JObject config)
         ∧ JsonValue.property (JObject config) "bufVersion" = Some (JString v)).
Proof.
  intros Hp. rewrite (tryReadBufVersion_eq K Hp). split.
  - destruct (fs !! K) as [[m data|]|]; try discriminate.
    destruct (JSON_parse _) as [[| | | | |fields]|] eqn:Hj; try discriminate.
    destruct (JsonValue.property (JObject fields) "config") as [[| | | | |config]|] eqn:Hc;
      try discriminate.
    destruct (JsonValue.property (JObject config) "bufVersion") as [[| | |s| |]|] eqn:Hb;
      try discriminate.
    intros [= <-]. eauto 10.
  - intros (m & data & fields & config & -> & -> & Hc & Hb).
    cbv beta iota. rewrite Hc, Hb. reflexivity.
Qed.

End ReadVersion.

(** ** main: the command to launch *)

Lemma endsWith_append a b : Js.endsWith (a +:+ b) b = true.
Proof.
  unfold Js.endsWith. rewrite length_append. apply andb_true_iff. split.
  - apply Nat.leb_le. lia.
  - apply bool_decide_eq_true.
    replace (String.length a + String.length b - String.length b)
      with (String.length a + 0) by lia.
    rewrite slice_append. now destruct b.
Qed.

Section Main.

Variable host : Host.
Variable net : nat -> string -> NetReply.
Variable JSON_parse : string -> option Json.

(** X18. Without a configured version, or with the empty string as
    configured version, a buf found on the PATH is the command: nothing is
    requested, nothing is written, the world stays as it is. *)
Theorem resolveCommand_from_path (proc : Process) (w : World)
    (configured : option string) (c : string) :
  findBufVersionConfig host JSON_parse (w_fs w) (cwd host) = Ok configured ->
  configured = None ∨ configured = Some "" ->
  findBufInPath host (w_fs w) (env_PATH proc) = Some c ->
  resolveCommand host net JSON_parse proc w = (Returned c, w).
Proof.
  intros Hcfg Hc Hfind. unfold resolveCommand.
  rewrite bind_eq. unfold getFs at 1. rewrite bind_eq, Hcfg. cbn [sync mret M_ret].
  pose proof (findBufInPath_inv host (w_fs w) _ c Hfind) as [Hne _].
  destruct c as [|a c']; [congruence|].
  destruct Hc as [-> | ->]; now rewrite Hfind.
Qed.

(** X19. A configured version that is installed is the command whatever
    the PATH holds: the PATH is not consulted, nothing is requested and the
    world stays as it is. *)
Theorem resolveCommand_configured_installed (proc : Process) (w : World)
    (v r : string) (l : list DistEntry) (e : DistEntry) :
  findBufVersionConfig host JSON_parse (w_fs w) (cwd host) = Ok (Some v) ->
  v ≠ "" -> v ≠ "latest" ->
  releaseOf host v = Ok r ->
  listInstalled host (w_fs w) (standardInstallDirectory host) = Ok l ->
  findByName r l = Some e ->
  resolveCommand host net JSON_parse proc w = (Returned (Dist.bufPath e), w).
Proof.
  intros Hcfg Hne Hv Hr Hl Hf. unfold resolveCommand.
  rewrite bind_eq. unfold getFs at 1. rewrite bind_eq, Hcfg. cbn [sync mret M_ret].
  destruct v as [|a v']; [congruence|].
  rewrite bind_eq, (ensureInstalled_fixed host net _ w Hv).
  now rewrite (installVersion_hit host net _ r l e w Hr Hl Hf).
Qed.

(** X20. With the empty string as configured version and no buf on the
    PATH, main never gets a command: in a well-formed file system the
    installation of the version "" does not return. *)
Theorem resolveCommand_empty_version (proc : Process) (w : World) :
  Fs.wf (w_fs w) = true ->
  findBufVersionConfig host JSON_parse (w_fs w) (cwd host) = Ok (Some "") ->
  findBufInPath host (w_fs w) (env_PATH proc) = None ->
  isReturned (resolveCommand host net JSON_parse proc w).1 = false.
Proof.
  intros Hwf Hcfg Hfind.
  destruct (resolveCommand host net JSON_parse proc w) as [[c| |] w'] eqn:H;
    [exfalso | reflexivity..].
  unfold resolveCommand in H.
  rewrite bind_eq in H. unfold getFs at 1 in H. rewrite bind_eq, Hcfg in H.
  cbn [sync mret M_ret] in H. rewrite Hfind in H.
  apply bind_returned in H as (e & w1 & He & _).
  apply (ensureInstalled_returns host net _ w w1 e Hwf) in He
    as (v & w0 & Hv & Hp & _).
  cbn in Hv. injection Hv as <- _. discriminate.
Qed.

(** X21. Started from a script in a node_modules/.bin directory, main
    launches the command it has resolved with the arguments after the
    script, and with that directory put in front of the PATH; an unset PATH
    is spelled "undefined". *)
Theorem prepareLaunch_shim (proc : Process) (w w' : World) (c : string)
    (Q : list string) (script : string) :
  argv proc !! 1 = Some (absPath (Q ++ ["node_modules"; ".bin"; script])) ->
  forallb Fs.plainName Q = true -> Fs.plainName script = true ->
  resolveCommand host net JSON_parse proc w = (Returned c, w') ->
  prepareLaunch host net JSON_parse proc w
  = (Returned {| command := c; args := drop 2 (argv proc);
                 launch_PATH :=
                   Some (absPath (Q ++ ["node_modules"; ".bin"]) +:+ ":" +:+
                         default "undefined" (env_PATH proc)) |}, w').
Proof.
  intros Hargv HQ Hs Hc. unfold prepareLaunch. rewrite bind_eq, Hc.
  unfold getNodeModulesBinPath. rewrite Hargv.
  change (Q ++ ["node_modules"; ".bin"; script])
    with (Q ++ ["node_modules"; ".bin"] ++ [script]).
  rewrite app_assoc, dirname_absPath;
    [|apply forallb_plain_app; split; [exact HQ | reflexivity] | exact Hs].
  assert (He : Js.endsWith (absPath (Q ++ ["node_modules"; ".bin"])) "node_modules/.bin"
               = true).
  { change (Q ++ ["node_modules"; ".bin"]) with (Q ++ ["node_modules"] ++ [".bin"]).
    rewrite app_assoc, absPath_snoc.
    destruct (Q ++ ["node_modules"]) as [|x l] eqn:E; [now destruct Q|]. rewrite <- E.
    rewrite absPath_snoc.
    set (X := if Q is [] then "" else absPath Q).
    replace ((X +:+ "/" +:+ "node_modules") +:+ "/" +:+ ".bin")
      with ((X +:+ "/") +:+ "node_modules/.bin")
      by (now rewrite !append_assoc).
    apply endsWith_append. }
  rewrite He. cbn [sync]. rewrite bind_eq. cbn [mret M_ret].
  now destruct (env_PATH proc).
Qed.

End Main.

(** ** mkDirRecursive: relative paths *)

Lemma join_segments_ne (R : list string) :
  R ≠ [] -> forallb Fs.plainName R = true -> Js.join "/" R ≠ "".
Proof.
  intros Hne Hp. destruct R as [|x l]; [congruence|].
  cbn [forallb] in Hp. apply andb_true_iff in Hp as [Hx _].
  apply plainName_ne in Hx as (Hx & _).
  destruct l as [|y l]; [exact Hx|].
  rewrite join_cons_ne by discriminate. now apply append_ne_l.
Qed.

Lemma join_absPath_segments (C R : list string) :
  forallb Fs.plainName C = true -> forallb Fs.plainName R = true -> R ≠ [] ->
  Path.join (absPath C) (Js.join "/" R) = absPath (C ++ R).
Proof.
  intros HC HR Hne. unfold Path.join.
  rewrite (bool_decide_eq_false_2 (absPath C = "")) by apply absPath_ne.
  rewrite bool_decide_eq_false_2 by now apply join_segments_ne.
  destruct (exists_last Hne) as (more & n & ->).
  now apply normalize_absPath_more.
Qed.

(** X22. A relative path is resolved against the working directory: where
    that is an absolute normalized path, mkDirRecursive of the relative path
    with the plain segments [R] does, and says, what mkDirRecursive of the
    absolute path does. *)
Theorem mkDirRecursive_relative (host : Host) (C R : list string) (w : World) :
  process_cwd host = absPath C ->
  forallb Fs.plainName C = true -> forallb Fs.plainName R = true -> R ≠ [] ->
  mkDirRecursive host (Js.join "/" R) w = mkDirRecursive host (absPath (C ++ R)) w.
Proof.
  intros Hcwd HC HR Hne. unfold mkDirRecursive, cwd. rewrite Hcwd.
  rewrite isAbsolute_join; [|exact Hne|].
  - cbn [negb]. rewrite isAbsolute_absPath'. cbn [negb].
    now rewrite join_absPath_segments.
  - intros x Hx. rewrite forallb_forall in HR. apply list_elem_of_In, HR in Hx.
    split; [now apply plainName_ne in Hx | now apply plainName_noSlash].
Qed.

Lemma mkDirRecursive_relative_witness :
  mkDirRecursive Sample.darwinArm "a/b" Sample.bareWorld
  = mkDirRecursive Sample.darwinArm "/work/a/b" Sample.bareWorld.
Proof.
  apply (mkDirRecursive_relative Sample.darwinArm ["work"] ["a"; "b"] Sample.bareWorld);
    [reflexivity | reflexivity | reflexivity | discriminate].
Defined.

(** ** ensureInstalled: how much it requests *)

Lemma requestCount_app w evs :
  requestCount (logged w evs) = requestCount w + length (List.filter isHttpGet evs).
Proof. unfold requestCount, logged; cbn [w_log]. now rewrite List.filter_app, length_app. Qed.

Lemma requestCount_mkdirs w paths :
  requestCount (logged w (map EvMkdir paths)) = requestCount w.
Proof.
  rewrite requestCount_app.
  replace (List.filter isHttpGet (map EvMkdir paths)) with (@nil Event);
    [cbn; lia|].
  induction paths as [|p paths IH]; [reflexivity | exact IH].
Qed.

Lemma bind_requests {A B} (m : M A) (f : A -> M B) w a b :
  requestCount (m w).2 <= requestCount w + a ->
  (∀ x w1, requestCount (f x w1).2 <= requestCount w1 + b) ->
  requestCount ((m ≫= f) w).2 <= requestCount w + (a + b).
Proof.
  intros Hm Hf. rewrite bind_eq. destruct (m w) as [[x|e|e] w1]; cbn [snd] in *; try lia.
  specialize (Hf x w1). lia.
Qed.

Lemma tryCatch_raise_world {A} (m : M A) (wrap : JsError -> JsError) w :
  (tryCatch m (fun e => raise (wrap e)) w).2 = (m w).2.
Proof. unfold tryCatch. now destruct (m w) as [[a|e|e] w1]. Qed.

Section Requests.

Variable host : Host.
Variable net : nat -> string -> NetReply.

Lemma mkDirRecursive_requests dirname w :
  requestCount (mkDirRecursive host dirname w).2 = requestCount w.
Proof.
  destruct (mkDirRecursive_adds host dirname w) as (_ & _ & paths & Hlog).
  unfold requestCount at 1. rewrite Hlog. apply (requestCount_mkdirs w paths).
Qed.

Lemma writeFileSync_requests p data mode w :
  requestCount (writeFileSync host p data mode w).2 = requestCount w.
Proof.
  rewrite writeFileSync_eq.
  destruct (Fs.writeFileSync (w_fs w) (cwd host) p data mode); [|reflexivity].
  cbn [snd]. unfold requestCount; cbn [w_log].
  rewrite List.filter_app, length_app. cbn. lia.
Qed.

Lemma saveRelease_requests r data w :
  requestCount (saveRelease host r data w).2 = requestCount w.
Proof.
  unfold saveRelease. rewrite bind_eq.
  pose proof (mkDirRecursive_requests
                (Path.dirname (Path.join (standardInstallDirectory host) r)) w) as H.
  destruct (mkDirRecursive host _ w) as [[[]|e|e] w1]; cbn [snd] in *; try exact H.
  now rewrite writeFileSync_requests.
Qed.

Lemma httpGetRedirect_requests url m w :
  httpGetRedirect net url = Ok m -> requestCount (m w).2 = S (requestCount w).
Proof.
  unfold httpGetRedirect. intros H.
  destruct (assert (0 <? String.length url) _) as [[]|]; [|discriminate].
  destruct (assert (Js.startsWith url "https://" || _) _) as [[]|]; [|discriminate].
  cbn [mbind Result_bind] in H. injection H as <-.
  rewrite bind_eq, request_eq, <- (requestCount_logged_get w url).
  destruct (net (requestCount w) url) as [response|e]; [|reflexivity].
  destruct (isRedirect (statusCode response)).
  - now destruct (requireLocation response).
  - now destruct (negb _).
Qed.

Lemma resolveVersion_requests input w :
  requestCount (resolveVersion net input w).2 <= requestCount w + 1
  ∧ (∀ v, input = Some v -> v ≠ "latest" -> (resolveVersion net input w).2 = w).
Proof.
  assert (H : requestCount ((latestLocation ← fetchLatestLocation net;
                             mret (Js.pop (Js.split "/v" latestLocation))) w).2
              <= requestCount w + 1).
  { replace 1 with (1 + 0) by lia. apply bind_requests; [|intros; cbn; lia].
    unfold fetchLatestLocation. rewrite tryCatch_raise_world.
    destruct (latestUrl_ok net) as [m E]. rewrite E. cbn [await].
    rewrite (httpGetRedirect_requests latestUrl m w E). lia. }
  unfold resolveVersion. destruct input as [v|].
  - destruct (bool_decide (v = "latest")) eqn:E.
    + split; [exact H|]. apply bool_decide_eq_true in E. intros v' [= <-]. congruence.
    + split; [cbn; lia | reflexivity].
  - split; [exact H | discriminate].
Qed.

Lemma downloadRelease_requests v r w :
  requestCount (downloadRelease net v r w).2 <= requestCount w + 4.
Proof.
  unfold downloadRelease. rewrite tryCatch_raise_world.
  match goal with |- context [await ?c] => destruct c as [m|e] eqn:E end;
    [|cbn; lia].
  cbn [await].
  destruct (httpDownload_log net _ m w E) as (_ & urls & -> & Hn & _).
  change (map EvHttpGet (?u :: urls)) with (map EvHttpGet (u :: urls)).
  rewrite requestCount_logged_gets. lia.
Qed.

Lemma installVersion_requests v w :
  requestCount (installVersion host net v w).2 <= requestCount w + 4.
Proof.
  unfold installVersion.
  change 4 with (0 + (0 + (0 + 4))).
  apply bind_requests; [rewrite sync_same; lia|].
  intros r w1. apply bind_requests; [cbn; lia|].
  intros fs w2. apply bind_requests; [rewrite sync_same; lia|].
  intros l w3. destruct (findByName r l); [cbn; lia|].
  change 4 with (4 + (0 + (0 + (0 + 0)))).
  apply bind_requests; [apply downloadRelease_requests|].
  intros data w4. apply bind_requests; [rewrite saveRelease_requests; lia|].
  intros [] w5. apply bind_requests; [cbn; lia|].
  intros fs' w6. apply bind_requests; [rewrite sync_same; lia|].
  intros l' w7. destruct (findByName r l'); [|cbn; lia].
  replace 0 with (0 + 0) by lia. apply bind_requests.
  - unfold emit. cbn [snd]. unfold requestCount; cbn [w_log].
    rewrite List.filter_app, length_app. cbn. lia.
  - intros [] w8. cbn. lia.
Qed.

(** X23. However it ends, ensureInstalled issues at most five requests: one
    for the latest version and four for the download.  For a fixed version
    it issues at most four. *)
Theorem ensureInstalled_requests (input : option string) (w : World) :
  requestCount (ensureInstalled host net input w).2 <= requestCount w + 5
  ∧ (∀ v, input = Some v -> v ≠ "latest" ->
       requestCount (ensureInstalled host net input w).2 <= requestCount w + 4).
Proof.
  split.
  - unfold ensureInstalled. change 5 with (1 + 4). apply bind_requests.
    + apply resolveVersion_requests.
    + intros v w1. apply installVersion_requests.
  - intros v -> Hv. rewrite ensureInstalled_fixed by exact Hv.
    apply installVersion_requests.
Qed.

End Requests.

(** ** Release namer: when it throws *)

(** X24. makeReleaseName throws exactly when the platform is the empty
    string, on the first character that is not there; the architecture and
    the version are never examined for it. *)
Theorem makeReleaseName_throws (params : ReleaseParameters) (e : JsError) :
  makeReleaseName params = Thrown e
  <-> platform params = ""
      ∧ e = TypeError "Cannot read properties of undefined (reading 'toUpperCase')".
Proof.
  unfold makeReleaseName. destruct params as [p a v]; cbn [platform arch version]. split.
  - destruct (Js.startsWith p "win") eqn:Hw; [discriminate|].
    destruct p as [|c rest]; [|discriminate]. now intros [= <-].
  - now intros [-> ->].
Qed.

(** ** The further properties at sample inputs *)

Lemma mkDirRecursive_creates_witness :
  ∃ w', mkDirRecursive Sample.darwinArm (absPath ["a"; "b"]) Sample.bareWorld
        = (Returned tt, w')
        ∧ w_fs w' !! ["a"; "b"] = Some IDir ∧ Fs.wf (w_fs w') = true.
Proof.
  apply (mkDirRecursive_creates Sample.darwinArm ["a"; "b"] Sample.bareWorld).
  - discriminate.
  - reflexivity.
  - vm_compute. reflexivity.
  - intros i Hi. destruct i as [|[|[|i]]]; [vm_compute; reflexivity..|cbn in Hi; lia].
Defined.

Lemma mkDirRecursive_collision_witness :
  mkDirRecursive Sample.darwinArm "/opt/bufbuild/installed/README/x" Sample.cachedWorld
  = (Raised (Error ("cannot mkdir '/opt/bufbuild/installed/README/x'. " +:+
                    "'/opt/bufbuild/installed/README' is not a directory.")),
     Sample.cachedWorld).
Proof.
  apply (mkDirRecursive_collision Sample.darwinArm
           (Sample.installRoot ++ ["README"; "x"]) 3 Sample.cachedWorld).
  - reflexivity.
  - vm_compute. reflexivity.
  - cbn. lia.
  - vm_compute. reflexivity.
Defined.

Lemma mkDirRecursive_existing_witness :
  mkDirRecursive Sample.darwinArm "/opt/bufbuild/installed/1.6.0" Sample.cachedWorld
  = (Returned tt, Sample.cachedWorld).
Proof.
  apply (mkDirRecursive_existing Sample.darwinArm (Sample.installRoot ++ ["1.6.0"])
           Sample.cachedWorld).
  - discriminate.
  - vm_compute. reflexivity.
  - vm_compute. reflexivity.
Defined.

Lemma listInstalled_throws_witness :
  listInstalled Sample.darwinArm Sample.cachedFs "/opt/bufbuild/installed/README"
  = Thrown (SystemError "ENOTDIR" "scandir" "/opt/bufbuild/installed/README").
Proof.
  apply (proj2 (listInstalled_throws Sample.darwinArm Sample.cachedFs
                  "/opt/bufbuild/installed/README"
                  (SystemError "ENOTDIR" "scandir" "/opt/bufbuild/installed/README")
                  ltac:(vm_compute; reflexivity))).
  split; [reflexivity|].
  exists (Sample.installRoot ++ ["README"]), 420%N, []. vm_compute. reflexivity.
Defined.

Lemma httpGet_requests_witness :
  ∃ m, httpGet (Sample.redirectsThen 3 Sample.okResponse) "https://example.com/start" []
       = Ok m
    ∧ ∃ urls, (m Sample.bareWorld).2
              = logged Sample.bareWorld (map EvHttpGet ("https://example.com/start" :: urls))
        ∧ length ("https://example.com/start" :: urls) + 0 <= 4
        ∧ ∀ r, (m Sample.bareWorld).1 = Returned r ->
            statusCode r = 200%N
            ∧ Sample.redirectsThen 3 Sample.okResponse
                (requestCount Sample.bareWorld + length urls)
                (List.last urls "https://example.com/start") = Responded r.
Proof.
  eexists. split; [reflexivity|].
  apply (httpGet_requests (Sample.redirectsThen 3 Sample.okResponse)
           "https://example.com/start" [] _ Sample.bareWorld).
  reflexivity.
Defined.

Lemma httpDownload_requests_witness :
  ∃ m, httpDownload (Sample.redirectsThen 2 Sample.okResponse) "https://example.com/start"
       = Ok m
    ∧ validUrl "https://example.com/start" = true
    ∧ ∃ urls, (m Sample.bareWorld).2
              = logged Sample.bareWorld (map EvHttpGet ("https://example.com/start" :: urls))
        ∧ length ("https://example.com/start" :: urls) <= 4
        ∧ ∀ data, (m Sample.bareWorld).1 = Returned data ->
            ∃ r, Sample.redirectsThen 2 Sample.okResponse
                   (requestCount Sample.bareWorld + length urls)
                   (List.last urls "https://example.com/start") = Responded r
                 ∧ statusCode r = 200%N ∧ body r = data.
Proof.
  eexists. split; [reflexivity|].
  apply (httpDownload_requests (Sample.redirectsThen 2 Sample.okResponse)
           "https://example.com/start" _ Sample.bareWorld).
  reflexivity.
Defined.

Lemma ensureInstalled_again_witness :
  ensureInstalled Sample.darwinArm (Sample.always Sample.notFound) (Some "1.7.0")
    (ensureInstalled Sample.darwinArm (Sample.always Sample.okResponse) (Some "1.7.0")
       Sample.bareWorld).2
  = (Returned (mkEntry "/opt/bufbuild/installed" "1.7.0" "buf-Darwin-arm64"),
     (ensureInstalled Sample.darwinArm (Sample.always Sample.okResponse) (Some "1.7.0")
        Sample.bareWorld).2).
Proof.
  apply (ensureInstalled_again Sample.darwinArm (Sample.always Sample.okResponse)
           (Sample.always Sample.notFound) "1.7.0" Sample.bareWorld).
  - discriminate.
  - vm_compute. reflexivity.
Defined.

Lemma ensureInstalled_version_witness :
  ∃ v w0, resolveVersion (Sample.always Sample.okResponse) (Some "1.7.0") Sample.bareWorld
          = (Returned v, w0)
    ∧ Fs.plainName v = true
    ∧ Dist.version (mkEntry "/opt/bufbuild/installed" "1.7.0" "buf-Darwin-arm64") = v
    ∧ releaseOf Sample.darwinArm v
      = Ok (Dist.name (mkEntry "/opt/bufbuild/installed" "1.7.0" "buf-Darwin-arm64")).
Proof.
  apply (ensureInstalled_version Sample.darwinArm (Sample.always Sample.okResponse)
           (Some "1.7.0") Sample.bareWorld
           (ensureInstalled Sample.darwinArm (Sample.always Sample.okResponse) (Some "1.7.0")
              Sample.bareWorld).2).
  - vm_compute. reflexivity.
  - vm_compute. reflexivity.
Defined.

Lemma ensureInstalled_download_rejected_witness :
  ensureInstalled Sample.darwinArm (Sample.always Sample.notFound) (Some "9.9.9")
    Sample.cachedWorld
  = (Raised (Error ("bufbuild failed to download buf v9.9.9. " +:+ Js.newline +:+
       "Did you misspell the version number? The version number must look like "
       +:+ Js.dquote +:+ "1.6.0" +:+ Js.dquote +:+ ", without a leading "
       +:+ Js.dquote +:+ "v" +:+ Js.dquote +:+ "." +:+ Js.newline
       +:+ "Error: HTTP 404 for "
       +:+ "https://github.com/bufbuild/buf/releases/download/v9.9.9/buf-Darwin-arm64")),
     logged Sample.cachedWorld
       [EvHttpGet "https://github.com/bufbuild/buf/releases/download/v9.9.9/buf-Darwin-arm64"]).
Proof.
  apply (ensureInstalled_download_rejected Sample.darwinArm (Sample.always Sample.notFound)
           "9.9.9" "9.9.9/buf-Darwin-arm64" [Sample.cachedEntry] Sample.notFound
           Sample.cachedWorld).
  - discriminate.
  - reflexivity.
  - vm_compute. reflexivity.
  - reflexivity.
  - reflexivity.
  - reflexivity.
  - discriminate.
Defined.

Lemma ensureInstalled_installs_witness :
  ∃ v bin w0,
    resolveVersion (Sample.always Sample.okResponse) (Some "1.7.0") Sample.bareWorld
    = (Returned v, w0)
    ∧ releaseOf Sample.darwinArm v = Ok (v +:+ "/" +:+ bin)
    ∧ Dist.bufPath (mkEntry "/opt/bufbuild/installed" "1.7.0" "buf-Darwin-arm64")
      = absPath (["opt"; "bufbuild"] ++ ["installed"; v; bin])
    ∧ (((ensureInstalled Sample.darwinArm (Sample.always Sample.okResponse) (Some "1.7.0")
           Sample.bareWorld).2 = w0
        ∧ is_Some (w_fs Sample.bareWorld !! (["opt"; "bufbuild"] ++ ["installed"; v; bin])))
       ∨ (∃ data w1,
            downloadRelease (Sample.always Sample.okResponse) v (v +:+ "/" +:+ bin) w0
            = (Returned data, w1)
            ∧ w_fs Sample.bareWorld !! (["opt"; "bufbuild"] ++ ["installed"; v; bin]) = None
            ∧ w_fs (ensureInstalled Sample.darwinArm (Sample.always Sample.okResponse)
                      (Some "1.7.0") Sample.bareWorld).2
                !! (["opt"; "bufbuild"] ++ ["installed"; v; bin])
              = Some (IFile 493 data))).
Proof.
  apply (ensureInstalled_installs Sample.darwinArm (Sample.always Sample.okResponse)
           ["opt"; "bufbuild"] (Some "1.7.0") Sample.bareWorld).
  - vm_compute. reflexivity.
  - reflexivity.
  - reflexivity.
  - vm_compute. reflexivity.
Defined.

Lemma findBufInPath_sound_witness :
  "/usr/bin/buf" ≠ ""
  ∧ Fs.existsSync Sample.cachedFs (cwd Sample.darwinArm) "/usr/bin/buf" = true
  ∧ ∃ p before dir after,
      Some "/proj/node_modules/.bin:/usr/bin" = Some p
      ∧ Js.split Path.delimiter p = before ++ dir :: after
      ∧ isShimDir dir = false ∧ "/usr/bin/buf" = candidatePath Sample.darwinArm dir
      ∧ ∀ d, d ∈ before ->
          isShimDir d = true
          ∨ Fs.existsSync Sample.cachedFs (cwd Sample.darwinArm)
              (candidatePath Sample.darwinArm d) = false.
Proof.
  apply (findBufInPath_sound Sample.darwinArm Sample.cachedFs
           (Some "/proj/node_modules/.bin:/usr/bin") "/usr/bin/buf").
  vm_compute. reflexivity.
Defined.

Lemma findBufVersionConfig_nearest_witness :
  findBufVersionConfig Sample.darwinArm Sample.parse Sample.projectFs "/work/app/src"
  = Ok (Some "1.6.0").
Proof.
  apply (findBufVersionConfig_nearest Sample.darwinArm Sample.parse Sample.projectFs
           ["work"; "app"; "src"] 1 (Ok (Some "1.6.0"))).
  - reflexivity.
  - cbn. lia.
  - intros i Hi. destruct i as [|[|[|[|i]]]]; [lia | lia | vm_compute; reflexivity..
                                               | cbn in Hi; lia].
  - vm_compute. reflexivity.
  - discriminate.
Defined.

Lemma findBufVersionConfig_none_witness :
  findBufVersionConfig Sample.darwinArm Sample.parse Sample.projectFs "/usr/bin" = Ok None.
Proof.
  apply (findBufVersionConfig_none Sample.darwinArm Sample.parse Sample.projectFs
           ["usr"; "bin"]).
  - reflexivity.
  - intros i Hi. destruct i as [|[|[|i]]]; [vm_compute; reflexivity..|cbn in Hi; lia].
Defined.

Lemma tryReadBufVersion_throws_witness :
  tryReadBufVersion Sample.darwinArm Sample.parse Sample.projectFs
    "/work/odd/package.json"
  = Thrown (DescriptorError "EISDIR" "read").
Proof.
  apply (proj2 (tryReadBufVersion_throws Sample.darwinArm Sample.parse Sample.projectFs
                  ltac:(vm_compute; reflexivity) ["work"; "odd"; "package.json"]
                  (DescriptorError "EISDIR" "read") eq_refl)).
  left. split; [vm_compute; reflexivity | reflexivity].
Defined.

Lemma tryReadBufVersion_version_witness :
  tryReadBufVersion Sample.darwinArm Sample.parse Sample.projectFs "/work/package.json"
  = Ok (Some "1.6.0").
Proof.
  apply (proj2 (tryReadBufVersion_version Sample.darwinArm Sample.parse Sample.projectFs
                  ltac:(vm_compute; reflexivity) ["work"; "package.json"] "1.6.0"
                  eq_refl)).
  exists 420%N, (String.list_byte_of_string (Sample.packageJsonText "1.6.0")),
    [("config", JObject [("bufVersion", JString "1.6.0")])],
    [("bufVersion", JString "1.6.0")].
  split; [vm_compute; reflexivity|]. split; [vm_compute; reflexivity|].
  split; reflexivity.
Defined.

Lemma resolveCommand_from_path_witness :
  resolveCommand (Sample.startedIn Sample.darwinArm "/usr/bin")
    (Sample.always Sample.notFound) Sample.parse Sample.shimProcess Sample.projectWorld
  = (Returned "/usr/bin/buf", Sample.projectWorld).
Proof.
  apply (resolveCommand_from_path (Sample.startedIn Sample.darwinArm "/usr/bin")
           (Sample.always Sample.notFound) Sample.parse Sample.shimProcess
           Sample.projectWorld None "/usr/bin/buf").
  - vm_compute. reflexivity.
  - now left.
  - vm_compute. reflexivity.
Defined.

Lemma resolveCommand_configured_installed_witness :
  resolveCommand Sample.darwinArm (Sample.always Sample.notFound) Sample.parse
    Sample.shimProcess Sample.projectWorld
  = (Returned "/opt/bufbuild/installed/1.6.0/buf-Darwin-arm64", Sample.projectWorld).
Proof.
  apply (resolveCommand_configured_installed Sample.darwinArm
           (Sample.always Sample.notFound) Sample.parse Sample.shimProcess
           Sample.projectWorld "1.6.0" "1.6.0/buf-Darwin-arm64"
           [Sample.cachedEntry] Sample.cachedEntry).
  - vm_compute. reflexivity.
  - discriminate.
  - discriminate.
  - reflexivity.
  - vm_compute. reflexivity.
  - reflexivity.
Defined.

Lemma resolveCommand_empty_version_witness :
  isReturned
    (resolveCommand (Sample.startedIn Sample.darwinArm "/work/empty")
       (Sample.always Sample.okResponse) Sample.parse
       {| argv := ["/usr/bin/node"; "/opt/bufbuild/buf.js"]; env_PATH := None |}
       Sample.projectWorld).1
  = false.
Proof.
  apply (resolveCommand_empty_version (Sample.startedIn Sample.darwinArm "/work/empty")
           (Sample.always Sample.okResponse) Sample.parse
           {| argv := ["/usr/bin/node"; "/opt/bufbuild/buf.js"]; env_PATH := None |}
           Sample.projectWorld).
  - vm_compute. reflexivity.
  - vm_compute. reflexivity.
  - reflexivity.
Defined.

Lemma prepareLaunch_shim_witness :
  prepareLaunch Sample.darwinArm (Sample.always Sample.notFound) Sample.parse
    Sample.shimProcess Sample.projectWorld
  = (Returned {| command := "/opt/bufbuild/installed/1.6.0/buf-Darwin-arm64";
                 args := ["lint"];
                 launch_PATH := Some "/work/node_modules/.bin:/usr/bin" |},
     Sample.projectWorld).
Proof.
  apply (prepareLaunch_shim Sample.darwinArm (Sample.always Sample.notFound) Sample.parse
           Sample.shimProcess Sample.projectWorld Sample.projectWorld
           "/opt/bufbuild/installed/1.6.0/buf-Darwin-arm64" ["work"] "buf").
  - reflexivity.
  - reflexivity.
  - reflexivity.
  - vm_compute. reflexivity.
Defined.
